(** * College assistant back end: resolver, scraper and adequacy check

    A shallow embedding of the content discovery and fallback engine of the
    back end ([app/services/search.py], [app/services/dynamic_scraper.py],
    [app/routers/chat.py]) together with the properties proved about it.

    Conventions of the embedding.
    - A Python [str] is a list of 8-bit characters ([str]).  Case mapping,
      whitespace, digits and word characters follow Python on ASCII; a
      character above 127 is caseless and belongs to no class, so a text that
      is not ASCII is read as its UTF-8 bytes.
    - A Python [int] is a [Z]; [len] is [length] (a [nat]).
    - A [dict] loaded from a JSON file is an association list in insertion
      order.
    - The network, the browser and the HTML parser are parameters of the
      sections that use them; every call of a search provider is recorded in
      a log. *)

From Stdlib Require Import Ascii String ZArith NArith Bool Arith Lia List.
From Stdlib Require Import Permutation Sorted.
Import ListNotations.

Local Open Scope string_scope.
Local Open Scope nat_scope.
Local Open Scope list_scope.

(** ** Python strings *)

Definition str := list ascii.

Definition of_string (s : string) : str := list_ascii_of_string s.
Coercion of_string : string >-> str.

Module Py.

Definition code (c : ascii) : N := N_of_ascii c.

Definition in_range (lo hi : N) (c : ascii) : bool :=
  ((lo <=? code c) && (code c <=? hi))%N.

Definition is_upper : ascii -> bool := in_range 65 90.
Definition is_lower : ascii -> bool := in_range 97 122.
Definition is_digit : ascii -> bool := in_range 48 57.

(** [str.isspace] on ASCII: tab, the line breaks, the four separators
    0x1c-0x1f and the space. *)
Definition is_space (c : ascii) : bool :=
  in_range 9 13 c || in_range 28 32 c.

(** [\w] on ASCII. *)
Definition is_word (c : ascii) : bool :=
  is_upper c || is_lower c || is_digit c || Ascii.eqb c "_".

Definition lower_char (c : ascii) : ascii :=
  if is_upper c then ascii_of_N (code c + 32) else c.

Definition lower (s : str) : str := map lower_char s.

(** [s[::-1]], in one pass. *)
Definition reverse (s : str) : str := rev_append s [].

Fixpoint str_eqb (a b : str) : bool :=
  match a, b with
  | [], [] => true
  | x :: a', y :: b' => Ascii.eqb x y && str_eqb a' b'
  | _, _ => false
  end.

(** [s.startswith(p)] *)
Fixpoint startswith (s p : str) {struct p} : bool :=
  match p with
  | [] => true
  | x :: p' =>
      match s with
      | [] => false
      | y :: s' => Ascii.eqb x y && startswith s' p'
      end
  end.

(** [p in s] *)
Fixpoint contains (p s : str) : bool :=
  startswith s p ||
  match s with
  | [] => false
  | _ :: s' => contains p s'
  end.

Fixpoint lstrip (s : str) : str :=
  match s with
  | c :: s' => if is_space c then lstrip s' else s
  | [] => []
  end.

Definition rstrip (s : str) : str := reverse (lstrip (reverse s)).

(** [s.strip()] *)
Definition strip (s : str) : str := rstrip (lstrip s).

(** A string with no white space at either end. *)
Definition trimmed (s : str) : Prop :=
  lstrip s = s /\ lstrip (rev s) = rev s.

(** Lexicographic order on strings by character code, the order [sorted]
    uses on [str] keys. *)
Fixpoint str_ltb (a b : str) : bool :=
  match a, b with
  | _, [] => false
  | [], _ :: _ => true
  | x :: a', y :: b' =>
      (code x <? code y)%N || ((code x =? code y)%N && str_ltb a' b')
  end.

Definition str_leb (a b : str) : bool := negb (str_ltb b a).

(** Maximal runs of characters satisfying [p], left to right:
    [re.findall(r'\w+', s)] for [p = is_word], and [s.split()] for the
    complement of [is_space]. *)
Fixpoint runs_aux (p : ascii -> bool) (cur : str) (s : str) : list str :=
  match s with
  | [] => match cur with [] => [] | _ => [reverse cur] end
  | c :: s' =>
      if p c then runs_aux p (c :: cur) s'
      else match cur with
           | [] => runs_aux p [] s'
           | _ => reverse cur :: runs_aux p [] s'
           end
  end.

Definition runs (p : ascii -> bool) (s : str) : list str := runs_aux p [] s.

Definition findall_words (s : str) : list str := runs is_word s.

Definition split_ws (s : str) : list str := runs (fun c => negb (is_space c)) s.

(** A Python [set] of strings, kept as a duplicate-free list. *)
Definition mem (x : str) (l : list str) : bool := existsb (str_eqb x) l.

Fixpoint dedup (l : list str) : list str :=
  match l with
  | [] => []
  | x :: l' => if mem x l' then dedup l' else x :: dedup l'
  end.

Definition inter (a b : list str) : list str := filter (fun x => mem x b) a.

(** [sep.join(parts)] *)
Fixpoint join (sep : str) (parts : list str) : str :=
  match parts with
  | [] => []
  | [x] => x
  | x :: rest => x ++ sep ++ join sep rest
  end.

(** The text is written in ASCII: on such a text bytes and characters are
    the same, and so are the byte classes above and the classes of [str]. *)
Definition is_ascii (s : str) : bool := forallb (fun c => (code c <? 128)%N) s.

End Py.

(** ** Regular expressions: the fragment of [re] the back end uses *)

Module Re.

Inductive regex : Type :=
| Void
| Eps
| Class (p : ascii -> bool)
| Cat (r1 r2 : regex)
| Alt (r1 r2 : regex)
| Star (r : regex).

Definition Chr (c : ascii) : regex := Class (Ascii.eqb c).

Fixpoint Lit (s : str) : regex :=
  match s with
  | [] => Eps
  | c :: s' => Cat (Chr c) (Lit s')
  end.

Definition Plus (r : regex) : regex := Cat r (Star r).
Definition Opt (r : regex) : regex := Alt r Eps.

Fixpoint Alts (rs : list regex) : regex :=
  match rs with
  | [] => Void
  | [r] => r
  | r :: rs' => Alt r (Alts rs')
  end.

Fixpoint Seq (rs : list regex) : regex :=
  match rs with
  | [] => Eps
  | [r] => r
  | r :: rs' => Cat r (Seq rs')
  end.

(** The language of a pattern. *)
Inductive matches : regex -> str -> Prop :=
| MEps : matches Eps []
| MClass p c : p c = true -> matches (Class p) [c]
| MCat r1 r2 s1 s2 :
    matches r1 s1 -> matches r2 s2 -> matches (Cat r1 r2) (s1 ++ s2)
| MAltL r1 r2 s : matches r1 s -> matches (Alt r1 r2) s
| MAltR r1 r2 s : matches r2 s -> matches (Alt r1 r2) s
| MStar0 r : matches (Star r) []
| MStarS r s1 s2 :
    matches r s1 -> matches (Star r) s2 -> matches (Star r) (s1 ++ s2).

Fixpoint nullable (r : regex) : bool :=
  match r with
  | Void => false
  | Eps => true
  | Class _ => false
  | Cat r1 r2 => nullable r1 && nullable r2
  | Alt r1 r2 => nullable r1 || nullable r2
  | Star _ => true
  end.

Fixpoint deriv (c : ascii) (r : regex) : regex :=
  match r with
  | Void => Void
  | Eps => Void
  | Class p => if p c then Eps else Void
  | Cat r1 r2 =>
      if nullable r1 then Alt (Cat (deriv c r1) r2) (deriv c r2)
      else Cat (deriv c r1) r2
  | Alt r1 r2 => Alt (deriv c r1) (deriv c r2)
  | Star r1 => Cat (deriv c r1) (Star r1)
  end.

(** [re.fullmatch(r, s) is not None] *)
Fixpoint fullmatch (r : regex) (s : str) : bool :=
  match s with
  | [] => nullable r
  | c :: s' => fullmatch (deriv c r) s'
  end.

(** [re.match(r, s) is not None]: some prefix of [s] is in the language. *)
Fixpoint match_prefix (r : regex) (s : str) : bool :=
  nullable r ||
  match s with
  | [] => false
  | c :: s' => match_prefix (deriv c r) s'
  end.

(** [re.search(r, s) is not None]: some substring of [s] is in the
    language. *)
Fixpoint search (r : regex) (s : str) : bool :=
  match_prefix r s ||
  match s with
  | [] => false
  | _ :: s' => search r s'
  end.

End Re.

(** ** [app/routers/chat.py]: the content adequacy check *)

Module Chat.
Import Re.

Definition digits1 : regex := Plus (Class Py.is_digit).
Definition digits0 : regex := Star (Class Py.is_digit).
Definition spaces0 : regex := Star (Class Py.is_space).

(** The pattern "\d+\.?\d*\s*(lpa|lakhs?|crore?|cr|lakh|%)". *)
Definition placements_re : regex :=
  Seq [digits1; Opt (Chr "."); digits0; spaces0;
       Alts [Lit "lpa"; Cat (Lit "lakh") (Opt (Chr "s"));
             Cat (Lit "cror") (Opt (Chr "e")); Lit "cr"; Lit "lakh";
             Lit "%"]].

(** The currency marker as the source file spells it: the bytes
    c3 a2 e2 80 9a c2 b9 of the pattern literal (the UTF-8 form of the three
    characters U+00E2 U+201A U+00B9). *)
Definition currency_mark : str :=
  map ascii_of_nat [195; 162; 226; 128; 154; 194; 185].

(** First alternative: "(<mark>|rs\.?|inr)\s*\d+". *)
Definition fees_amount_re : regex :=
  Seq [Alts [Lit currency_mark; Cat (Lit "rs") (Opt (Chr ".")); Lit "inr"];
       spaces0; digits1].

(** Second alternative: the group "\d+,?\d*", then "\s*(per|/)\s*" and
    "(year|annum|semester)". *)
Definition fees_period_re : regex :=
  Seq [Seq [digits1; Opt (Chr ","); digits0]; spaces0;
       Alts [Lit "per"; Lit "/"]; spaces0;
       Alts [Lit "year"; Lit "annum"; Lit "semester"]].

Definition fees_re : regex := Alt fees_amount_re fees_period_re.

Definition has_specific_data (content intent : str) : bool :=
  if Py.str_eqb intent "placements" then
    search placements_re (Py.lower content)
  else if Py.str_eqb intent "fees" then
    search fees_re (Py.lower content)
  else true.

End Chat.

(** ** Sorting and slicing as Python does them *)

Module PyList.

Section Sort.
Context {A : Type}.
(** [lt x y]: the key of [x] is strictly smaller than the key of [y] in the
    order the sort uses. *)
Variable lt : A -> A -> bool.

Fixpoint insert (x : A) (l : list A) : list A :=
  match l with
  | [] => [x]
  | y :: l' => if lt y x then y :: insert x l' else x :: l
  end.

(** A stable sort: elements whose keys are equal keep their order, as
    [list.sort] and [sorted] guarantee (with or without [reverse=True]). *)
Fixpoint sort (l : list A) : list A :=
  match l with
  | [] => []
  | x :: l' => insert x (sort l')
  end.

End Sort.

(** [l[:n]] for an [int] [n]; a negative [n] counts from the end. *)
Definition slice_to {A : Type} (n : Z) (l : list A) : list A :=
  if (0 <=? n)%Z then firstn (Z.to_nat n) l
  else firstn (length l - Z.to_nat (- n)) l.

(** [l[-n:]] for a positive literal [n]. *)
Definition last_n {A : Type} (n : nat) (l : list A) : list A :=
  skipn (length l - n) l.

Definition len {A : Type} (l : list A) : Z := Z.of_nat (length l).

(** Ascending order of the keys. *)
Definition key_le {A : Type} (key : A -> Z) (a b : A) : Prop :=
  (key a <= key b)%Z.

Definition nonempty {A : Type} (l : list A) : bool :=
  match l with [] => false | _ => true end.

End PyList.

(** ** [app/services/search.py]: resolving a name to candidate sites *)

Module Search.
Import Py PyList.

Definition dict (V : Type) : Type := list (str * V).

Fixpoint lookup {V : Type} (k : str) (d : dict V) : option V :=
  match d with
  | [] => None
  | (k', v) :: d' => if str_eqb k k' then Some v else lookup k d'
  end.

(** An entry of [KNOWN_COLLEGES]. *)
Record college_info : Type := mk_college { ci_name : str; ci_url : str }.

(** An entry of [ALL_INSTITUTIONS]. *)
Record institution_info : Type := mk_institution {
  in_name : str;
  in_university : str;
  in_state : str;
  in_district : str;
  in_type : str
}.

(** The dictionaries the resolver returns.  A key that a path does not set
    is [None]. *)
Record candidate : Type := mk_candidate {
  name : str;
  url : str;
  confidence : str;
  source : option str;
  details : option str;
  score : option Z
}.

(** The dictionaries a search provider returns. *)
Record search_result : Type := mk_result { href : str; title : str }.

(** The two fields of [urlparse]'s result that the code reads. *)
Record url_parts : Type := mk_parts { scheme : str; netloc : str }.

Inductive provider : Type :=
| SearXNG
| Startpage
| DuckDuckGoLite
| PlaywrightGoogle.

(** One call of a search provider with its query. *)
Definition event : Type := (provider * str)%type.

(** Computations that call providers: the value and the calls made. *)
Definition M (A : Type) : Type := (A * list event)%type.

Definition ret {A : Type} (a : A) : M A := (a, []).

Definition bind {A B : Type} (m : M A) (k : A -> M B) : M B :=
  let '(a, l1) := m in
  let '(b, l2) := k a in
  (b, l1 ++ l2).

Definition call {A : Type} (p : provider) (q : str) (a : A) : M A :=
  (a, [(p, q)]).

Definition value {A : Type} (m : M A) : A := fst m.
Definition calls {A : Type} (m : M A) : list event := snd m.

Notation "x <- m ;; k" := (bind m (fun x => k))
  (at level 61, m at next level, right associativity).

(** What the resolver takes from outside the source files: the URL parser
    of the standard library, the two JSON catalogues read at start-up and
    the answers of the four search back ends. *)
Record world : Type := mk_world {
  (** [urlparse(u)]; [None] when it raises [ValueError]. *)
  urlparse : str -> option url_parts;
  KNOWN_COLLEGES : dict college_info;
  ALL_INSTITUTIONS : dict institution_info;
  (** The [(url, title)] pairs of the JSON answer of one SearXNG instance;
      [None] when the request or the decoding raises. *)
  searxng_get : str -> str -> option (list (str * str));
  (** The result blocks of the Startpage answer, each with the [href] of its
      link and the text of its heading, or [None] when either is missing. *)
  startpage_post : str -> option (list (option (str * str)));
  (** The table rows of the DuckDuckGo Lite answer, each with the [href] and
      text of its result link, or [None] when it has none. *)
  ddg_lite_post : str -> option (list (option (str * str)));
  (** The anchors of the Google result page with their [href] and stripped
      text; [None] when the browser raises before the page is read. *)
  google_page : str -> option (list (str * str))
}.

Definition EXCLUDED_DOMAINS : list str :=
  [ "collegedunia.com" : str; "shiksha.com" : str; "careers360.com" : str;
    "getmyuni.com" : str; "collegedekho.com" : str; "justdial.com" : str;
    "wikipedia.org" : str; "youtube.com" : str; "facebook.com" : str;
    "twitter.com" : str; "linkedin.com" : str; "instagram.com" : str;
    "quora.com" : str; "reddit.com" : str; "glassdoor.com" : str;
    "naukri.com" : str; "indeed.com" : str; "studyabroad" : str;
    "embibe.com" : str; "byjus.com" : str; "vedantu.com" : str;
    "toppr.com" : str; "leverage.edu" : str; "admitkard.com" : str;
    "collegesearch.in" : str; "indiaeducation.net" : str;
    "google.com" : str; "bing.com" : str; "duckduckgo.com" : str ].

(** The suffixes of [PREFERRED_PATTERNS]; each pattern is the escaped suffix
    followed by the end anchor. *)
Definition PREFERRED_PATTERNS : list str :=
  [ ".ac.in" : str; ".edu.in" : str; ".edu" : str; ".org.in" : str;
    ".res.in" : str ].

Definition endswith (s suffix : str) : bool :=
  startswith (reverse s) (reverse suffix).

(** [re.search] of an escaped literal followed by the end anchor, which
    matches at the end of the string and before a final newline. *)
Definition search_at_end (suffix s : str) : bool :=
  endswith s suffix || endswith s (suffix ++ "010"%char :: nil).

Definition is_excluded_domain (domain : str) : bool :=
  let domain_lower := lower domain in
  existsb (fun excluded => contains excluded domain_lower) EXCLUDED_DOMAINS.

Definition STOP_WORDS : list str :=
  [ "of" : str; "the" : str; "and" : str; "for" : str; "institute" : str;
    "university" : str; "college" : str ].

(** The body of [get_domain_confidence] after [urlparse]. *)
Definition domain_confidence (parsed : url_parts) (college_name : str) : str :=
  let domain := lower (netloc parsed) in
  if existsb (fun pattern => search_at_end pattern domain) PREFERRED_PATTERNS
  then "high"
  else
    let name_words := split_ws (lower college_name) in
    let significant_words :=
      filter (fun w => (3 <? length w) && negb (mem w STOP_WORDS)) name_words in
    let matches :=
      length (filter (fun word => contains word domain) significant_words) in
    if 2 <=? matches then "high"
    else if 1 <=? matches then "medium"
    else "low".

(** [s.split(sep)] for a non-empty [sep]; [skip] counts the characters of
    a separator still to be passed over. *)
Fixpoint split_aux (sep : str) (skip : nat) (cur : str) (s : str) : list str :=
  match s with
  | [] => [reverse cur]
  | c :: s' =>
      match skip with
      | S k => split_aux sep k cur s'
      | O =>
          if startswith s sep
          then reverse cur :: split_aux sep (length sep - 1) [] s'
          else split_aux sep 0 (c :: cur) s'
      end
  end.

Definition split (sep s : str) : list str := split_aux sep 0 [] s.

(** [s.replace('www.', '')] *)
Fixpoint replace_www (s : str) : str :=
  match s with
  | [] => []
  | c1 :: t1 =>
      match t1 with
      | c2 :: c3 :: c4 :: t4 =>
          if str_eqb [c1; c2; c3; c4] "www."
          then replace_www t4
          else c1 :: replace_www t1
      | _ => c1 :: replace_www t1
      end
  end.

Definition www : str := "www.".

(** Two strings one of which is a prefix of the other. *)
Definition comparable (a b : str) : bool := startswith a b || startswith b a.

(** No non-empty suffix of [e] is comparable with "www.". *)
Fixpoint clear_inside (e : str) : bool :=
  match e with
  | [] => true
  | _ :: e' => negb (comparable e www) && clear_inside e'
  end.

(** [e] is comparable with no non-empty suffix of [w]. *)
Fixpoint clear_of (e w : str) : bool :=
  match w with
  | [] => true
  | _ :: w' => negb (comparable e w) && clear_of e w'
  end.

(** An occurrence of [e] can neither overlap an occurrence of "www." nor
    arise from taking one out. *)
Definition www_safe (e : str) : bool := clear_inside e && clear_of e www.

Definition has_url (r : candidate) : bool := nonempty (url r).

Definition score_of (r : candidate) : Z :=
  match score r with Some z => z | None => 0%Z end.

(** Sort keys: [reverse=True] on the [confidence] string, [reverse=True] on
    the [score], and ascending [confidence_order]. *)
Definition confidence_desc (x y : candidate) : bool :=
  str_ltb (confidence y) (confidence x).

Definition score_desc (x y : candidate) : bool :=
  (score_of y <? score_of x)%Z.

Definition confidence_order (c : str) : Z :=
  if str_eqb c "high" then 0%Z
  else if str_eqb c "medium" then 1%Z
  else if str_eqb c "low" then 2%Z
  else 3%Z.

Definition confidence_asc (x y : candidate) : bool :=
  (confidence_order (confidence x) <? confidence_order (confidence y))%Z.

(** The words of [s] longer than three characters, as a set. *)
Definition significant_words (s : str) : list str :=
  filter (fun w => 3 <? length w) (dedup (findall_words s)).

Definition key_words (key : str) : list str := dedup (findall_words key).

Section Resolver.
Variable W : world.

(** Step 3 of [search_known_colleges]: one pass over [KNOWN_COLLEGES]. *)
Fixpoint fuzzy_known (name_lower : str) (query_words : list str)
    (items : dict college_info) (matches : list candidate) : list candidate :=
  match items with
  | [] => matches
  | (key, info) :: rest =>
      if contains name_lower key || contains key name_lower then
        fuzzy_known name_lower query_words rest
          (matches ++ [mk_candidate (ci_name info) (ci_url info) "high"
                         (Some ("database" : str)) None None])
      else
        let common := inter query_words (key_words key) in
        if 2 <=? length common then
          fuzzy_known name_lower query_words rest
            (matches ++ [mk_candidate (ci_name info) (ci_url info) "medium"
                           (Some ("database" : str)) None None])
        else fuzzy_known name_lower query_words rest matches
  end.

Definition ugc_details (info : institution_info) : str :=
  in_district info ++ (", " : str) ++ in_state info.

(** The score the loop of step 4 gives to one key when [current_matches]
    entries scored 80 or more before it. *)
Definition ugc_score (name_lower : str) (query_words : list str)
    (current_matches : Z) (key : str) : Z :=
  if startswith key name_lower then 90%Z
  else if contains name_lower key then 80%Z
  else if (current_matches <? 10)%Z then
    let common := len (inter query_words (key_words key)) in
    if (2 <=? common)%Z then (60 + common)%Z else 0%Z
  else 0%Z.

(** Step 4 of [search_known_colleges]: one pass over [ALL_INSTITUTIONS]. *)
Fixpoint fuzzy_ugc (name_lower : str) (query_words : list str)
    (items : dict institution_info) (ugc_matches : list candidate)
    (current_matches : Z) : list candidate :=
  match items with
  | [] => ugc_matches
  | (key, info) :: rest =>
      let score := ugc_score name_lower query_words current_matches key in
      if (0 <? score)%Z then
        fuzzy_ugc name_lower query_words rest
          (ugc_matches ++ [mk_candidate (in_name info) "" "medium"
                             (Some ("ugc_database" : str))
                             (Some (ugc_details info)) (Some score)])
          (if (80 <=? score)%Z then (current_matches + 1)%Z
           else current_matches)
      else fuzzy_ugc name_lower query_words rest ugc_matches current_matches
  end.

Definition search_known_colleges (college_name : str) : list candidate :=
  let name_lower := strip (lower college_name) in
  match lookup name_lower (KNOWN_COLLEGES W) with
  | Some info =>
      [mk_candidate (ci_name info) (ci_url info) "high"
         (Some ("database" : str)) None None]
  | None =>
  match lookup name_lower (ALL_INSTITUTIONS W) with
  | Some info =>
      [mk_candidate (in_name info) "" "high" (Some ("ugc_database" : str))
         (Some (ugc_details info)) None]
  | None =>
      let query_words := significant_words name_lower in
      let matches := fuzzy_known name_lower query_words (KNOWN_COLLEGES W) [] in
      if nonempty matches then firstn 5 (sort confidence_desc matches)
      else
        let ugc_matches :=
          fuzzy_ugc name_lower query_words (ALL_INSTITUTIONS W) [] 0%Z in
        if nonempty ugc_matches
        then matches ++ firstn 5 (sort score_desc ugc_matches)
        else matches
  end
  end.

(** The site root a provider keeps of a result link. *)
Definition site_root (parsed : url_parts) : str :=
  scheme parsed ++ ("://" : str) ++ netloc parsed.

(** The body shared by the loops of the three text providers for an item
    that has a link; [None] when [urlparse] raises. *)
Definition keep_result (results : list search_result) (href title : str)
    : option (list search_result) :=
  if startswith href "http" then
    match urlparse W href with
    | None => None
    | Some parsed =>
        if negb (is_excluded_domain (netloc parsed))
        then Some (results ++ [mk_result (site_root parsed) title])
        else Some results
    end
  else Some results.

(** The loop over the items of an answer, left when [max_results] results
    are collected; [None] when an exception leaves the loop. *)
Fixpoint collect (items : list (option (str * str)))
    (results : list search_result) (max_results : Z)
    : option (list search_result) :=
  match items with
  | [] => Some results
  | item :: rest =>
      match
        match item with
        | Some (href, title) => keep_result results href title
        | None => Some results
        end
      with
      | None => None
      | Some results' =>
          if (max_results <=? len results')%Z then Some results'
          else collect rest results' max_results
      end
  end.

Definition searxng_instances : list str :=
  [ "https://searx.tiekoetter.com" : str;
    "https://searx.fmac.aa.net.uk" : str;
    "https://search.ononoki.org" : str;
    "https://opnxng.com" : str;
    "https://search.sapti.me" : str ].

Fixpoint searxng_try (instances : list str) (query : str) (max_results : Z)
    : list search_result :=
  match instances with
  | [] => []
  | instance :: rest =>
      match searxng_get W instance query with
      | None => searxng_try rest query max_results
      | Some items =>
          match collect (map Some items) [] max_results with
          | Some (r :: results) => r :: results
          | _ => searxng_try rest query max_results
          end
      end
  end.

Definition search_with_searxng (query : str) (max_results : Z)
    : M (list search_result) :=
  call SearXNG query (searxng_try searxng_instances query max_results).

Definition search_with_startpage (query : str) (max_results : Z)
    : M (list search_result) :=
  call Startpage query
    match startpage_post W query with
    | None => []
    | Some items =>
        match collect items [] max_results with
        | Some results => results
        | None => []
        end
    end.

Definition search_with_duckduckgo_lite (query : str) (max_results : Z)
    : M (list search_result) :=
  call DuckDuckGoLite query
    match ddg_lite_post W query with
    | None => []
    | Some items =>
        match collect items [] max_results with
        | Some results => results
        | None => []
        end
    end.

(** The link Google wraps as [/url?q=...]. *)
Definition unwrap_google (href : str) : str :=
  if startswith href "/url?q="
  then nth 0 (split "&" (nth 1 (split "/url?q=" href) [])) []
  else href.

(** The loop over the anchors of the Google page; an exception ends it with
    the results collected so far. *)
Fixpoint google_items (anchors : list (str * str)) (seen_domains : list str)
    (results : list search_result) (max_results : Z) : list search_result :=
  match anchors with
  | [] => results
  | (href0, text) :: rest =>
      let href := unwrap_google href0 in
      if negb (startswith href "http")
      then google_items rest seen_domains results max_results
      else
        match urlparse W href with
        | None => results
        | Some parsed =>
            let domain := replace_www (netloc parsed) in
            if is_excluded_domain domain || mem domain seen_domains
            then google_items rest seen_domains results max_results
            else if contains ".edu" domain || contains ".ac.in" domain
                    || contains "college" domain
            then
              let results' :=
                results ++ [mk_result (site_root parsed)
                              (if nonempty text then text else domain)] in
              if (max_results <=? len results')%Z then results'
              else google_items rest (domain :: seen_domains) results'
                     max_results
            else google_items rest seen_domains results max_results
        end
  end.

Definition search_with_playwright_google (query : str) (max_results : Z)
    : M (list search_result) :=
  call PlaywrightGoogle query
    match google_page W query with
    | None => []
    | Some anchors => google_items anchors [] [] max_results
    end.

(** The de-duplicating loop of [search_college_website].  The confidence is
    computed from the parse already at hand: [get_domain_confidence] parses
    the same [url] again. *)
Fixpoint build_candidates (results : list search_result)
    (seen_domains : list str) (candidates : list candidate)
    (college_name : str) (max_results : Z) : list candidate :=
  match results with
  | [] => candidates
  | result :: rest =>
      let url := href result in
      let title := title result in
      if negb (nonempty url)
      then build_candidates rest seen_domains candidates college_name
             max_results
      else
        match urlparse W url with
        | None =>
            build_candidates rest seen_domains candidates college_name
              max_results
        | Some parsed =>
            let domain := lower (netloc parsed) in
            if negb (nonempty domain)
            then build_candidates rest seen_domains candidates college_name
                   max_results
            else
              let base_domain :=
                if contains "." domain
                then join "." (last_n 2 (split "." domain))
                else domain in
              if mem base_domain seen_domains
              then build_candidates rest seen_domains candidates
                     college_name max_results
              else
                let confidence := domain_confidence parsed college_name in
                let candidates' :=
                  candidates ++
                  [mk_candidate
                     (if nonempty title then title
                      else college_name ++ (" - " : str) ++ domain)
                     url confidence None None None] in
                if (max_results <=? len candidates')%Z then candidates'
                else build_candidates rest (base_domain :: seen_domains)
                       candidates' college_name max_results
        end
  end.

Definition get_domain_confidence (url college_name : str) : option str :=
  match urlparse W url with
  | Some parsed => Some (domain_confidence parsed college_name)
  | None => None
  end.

(** Steps 2 to 5 of [search_college_website]: each provider is asked when
    the ones before it returned nothing. *)
Definition provider_chain (query : str) (max_results : Z)
    : M (list search_result) :=
  results <- search_with_searxng query (max_results * 2) ;;
  results <- (if nonempty results then ret results
              else search_with_startpage query (max_results * 2)) ;;
  results <- (if nonempty results then ret results
              else search_with_duckduckgo_lite query (max_results * 2)) ;;
  if nonempty results then ret results
  else search_with_playwright_google query max_results.

(** The web search of [search_college_website] and its ranking. *)
Definition web_search (college_name : str) (max_results : Z)
    : M (list candidate) :=
  let query := college_name ++ (" official website" : str) in
  results <- provider_chain query max_results ;;
  if negb (nonempty results) then ret []
  else
    let candidates := build_candidates results [] [] college_name max_results in
    ret (slice_to max_results (sort confidence_asc candidates)).

Definition search_college_website (college_name : str) (max_results : Z)
    (force_web_search : bool) : M (list candidate) :=
  if negb force_web_search then
    let known_results := search_known_colleges college_name in
    if existsb has_url known_results then
      ret (slice_to max_results (filter has_url known_results))
    else
      match known_results with
      | best_match :: _ =>
          if match source best_match with
             | Some s => str_eqb s "ugc_database"
             | None => false
             end
          then
            web_search
              (name best_match ++ (" " : str) ++
               match details best_match with Some d => d | None => [] end)
              max_results
          else web_search college_name max_results
      | [] => web_search college_name max_results
      end
  else web_search college_name max_results.

End Resolver.

(** *** The registry scan as the specification words it *)

(** The number of significant tokens of the name that the key shares. *)
Definition shared_tokens (name_lower key : str) : Z :=
  len (inter (significant_words name_lower) (key_words key)).

(** A fuzzy match of the curated catalogue: containment either way, or two
    shared tokens. *)
Definition catalog_fuzzy (name_lower key : str) : bool :=
  contains name_lower key || contains key name_lower ||
  (2 <=? shared_tokens name_lower key)%Z.

(** 90 for a prefix, 80 for a substring, otherwise 60 plus the number of
    shared tokens when there are two or more; the token overlap is left out
    once [found] entries, ten or more, have scored at least 80. *)
Definition claimed_score (name_lower : str) (found : nat) (key : str) : Z :=
  if startswith key name_lower then 90%Z
  else if contains name_lower key then 80%Z
  else if 10 <=? found then 0%Z
  else if (2 <=? shared_tokens name_lower key)%Z
       then (60 + shared_tokens name_lower key)%Z
       else 0%Z.

Fixpoint claimed_scores (name_lower : str) (registry : dict institution_info)
    (found : nat) : list (institution_info * Z) :=
  match registry with
  | [] => []
  | (key, info) :: rest =>
      let s := claimed_score name_lower found key in
      (info, s) ::
      claimed_scores name_lower rest (if (80 <=? s)%Z then S found else found)
  end.

Definition registry_candidate (entry : institution_info * Z) : candidate :=
  mk_candidate (in_name (fst entry)) [] "medium" (Some ("ugc_database" : str))
    (Some (ugc_details (fst entry))) (Some (snd entry)).

(** The entries that scored, as candidates, in registry order. *)
Definition registry_scored (name_lower : str)
    (registry : dict institution_info) : list candidate :=
  map registry_candidate
    (filter (fun entry => (0 <? snd entry)%Z)
       (claimed_scores name_lower registry 0)).

(** *** Ranking *)

(** [x] stands before [y] in [l]. *)
Definition precedes {A : Type} (x y : A) (l : list A) : Prop :=
  exists l1 l2 l3, l = l1 ++ x :: l2 ++ y :: l3.

(** No "medium" before a "high" and no "low" before a "medium". *)
Definition well_ranked (l : list candidate) : Prop :=
  forall x y, precedes x y l ->
    ~ (confidence x = ("medium" : str) /\ confidence y = ("high" : str)) /\
    ~ (confidence x = ("low" : str) /\ confidence y = ("medium" : str)).

(** A site root whose network location holds no excluded name. *)
Definition clean_root (W : world) (u : str) : Prop :=
  exists raw parsed,
    urlparse W raw = Some parsed /\ u = site_root parsed /\
    is_excluded_domain (netloc parsed) = false.

(** A candidate built by the web-search path: it has no [source] key. *)
Definition web_candidate (W : world) (c : candidate) : Prop :=
  source c = None /\ clean_root W (url c).

End Search.

(** ** A reading of [urllib.parse.urlparse] for the worked examples *)

Module Url.
Import Py Search.

Definition is_scheme_char (c : ascii) : bool :=
  is_upper c || is_lower c || is_digit c ||
  Ascii.eqb c "+" || Ascii.eqb c "-" || Ascii.eqb c ".".

(** The text before the first [stop] character and the text after it. *)
Fixpoint break_at (stop : ascii -> bool) (s : str) : str * option str :=
  match s with
  | [] => ([], None)
  | c :: s' =>
      if stop c then ([], Some s')
      else let '(a, b) := break_at stop s' in (c :: a, b)
  end.

Definition is_delim (c : ascii) : bool :=
  Ascii.eqb c "/" || Ascii.eqb c "?" || Ascii.eqb c "#".

(** Scheme and network location as [urlsplit] finds them in an ASCII URL:
    the scheme is the text before the first colon when it starts with a
    letter and holds scheme characters only, the network location is what
    follows a double slash up to the next slash, question mark or hash, and
    a lone square bracket in it raises [ValueError]. *)
Definition urlparse (u : str) : option url_parts :=
  let '(scheme, rest) :=
    match break_at (Ascii.eqb ":") u with
    | (c :: before, Some after) =>
        if (is_upper c || is_lower c) && forallb is_scheme_char before
        then (lower (c :: before), after)
        else ([], u)
    | _ => ([], u)
    end in
  let netloc :=
    match rest with
    | c1 :: c2 :: rest' =>
        if Ascii.eqb c1 "/" && Ascii.eqb c2 "/"
        then fst (break_at is_delim rest')
        else []
    | _ => []
    end in
  let opened := existsb (Ascii.eqb "[") netloc in
  let closed := existsb (Ascii.eqb "]") netloc in
  if (opened && negb closed) || (closed && negb opened) then None
  else Some (mk_parts scheme netloc).

End Url.

(** ** [app/services/dynamic_scraper.py]: topic-routed retrieval *)

Module Scraper.
Import Py PyList Search.

Definition PAGE_TIMEOUT : Z := 25000.
Definition CONTENT_LIMIT : Z := 12000.

(** The keys of [AGGREGATOR_SITES]; the code tests membership only and
    never reads the address templates stored under them. *)
Definition AGGREGATOR_INTENTS : list str :=
  [ "placements" : str; "fees" : str; "admissions" : str;
    "facilities" : str ].

Definition INTENT_URL_PATTERNS : dict (list str) :=
  [ ("placements" : str,
      [ "placement" : str; "career" : str; "ocs" : str; "tpo" : str;
        "recruit" : str; "training" : str ]);
    ("fees" : str,
      [ "fee" : str; "tuition" : str; "payment" : str;
        "scholarship" : str ]);
    ("admissions" : str,
      [ "admission" : str; "apply" : str; "eligibility" : str;
        "intake" : str ]);
    ("about" : str, [ "about" : str; "overview" : str; "history" : str ]);
    ("facilities" : str,
      [ "hostel" : str; "accommodation" : str; "campus" : str;
        "infrastructure" : str; "facility" : str; "amenity" : str;
        "library" : str; "mess" : str ]) ].

Definition INTENT_TO_PATHS : dict (list str) :=
  [ ("placements" : str,
      [ "/placements" : str; "/placement" : str; "/careers" : str;
        "/ocs" : str; "/tpo" : str ]);
    ("fees" : str,
      [ "/fees" : str; "/fee-structure" : str; "/tuition" : str ]);
    ("admissions" : str,
      [ "/admissions" : str; "/admission" : str; "/apply" : str ]);
    ("about" : str,
      [ "/about" : str; "/about-us" : str; "/overview" : str ]);
    ("facilities" : str,
      [ "/hostels" : str; "/facilities" : str; "/infrastructure" : str;
        "/campus" : str; "/amenities" : str; "/campus-life" : str ]) ].

(** [d.get(k, [])] *)
Definition get_list (k : str) (d : dict (list str)) : list str :=
  match lookup k d with Some l => l | None => [] end.

(** What [page.goto] followed by [page.content] gives: an exception (or no
    response), or a status with the rendered markup. *)
Inductive fetch : Type :=
| Failed
| Loaded (status : Z) (html : str).

(** A call that either raises or returns. *)
Inductive outcome (A : Type) : Type :=
| Raises
| Returns (a : A).
Arguments Raises {A}.
Arguments Returns {A} a.

Record page_record : Type := mk_page {
  page_type : str;
  content_text : str;
  source_url : str
}.

(** What the scraper takes from outside the source files: the HTML parser,
    [urljoin] and the browser.  A page is a function of its address: loading
    an address twice shows the same page. *)
Record env : Type := mk_env {
  (** The parsed document without its script, style, nav, footer, header,
      aside, noscript, iframe and form elements, read with
      [get_text(separator="\n", strip=True)]. *)
  soup_text : str -> str;
  (** The [src] of every [iframe] that has one, in document order. *)
  soup_iframes : str -> list str;
  (** The [href] and the stripped text of every [a] that has an [href]. *)
  soup_anchors : str -> list (str * str);
  (** [urljoin(base, u)]; [None] when it raises [ValueError]. *)
  urljoin : str -> str -> option str;
  page_goto : str -> fetch;
  (** The markup of a discovered portal after the navigation clicks; [None]
      when loading it raises. *)
  portal_visit : str -> option str;
  (** The markup of an aggregator page after scrolling and expanding;
      [None] when loading it raises. *)
  aggregator_visit : str -> option str
}.

Definition is_line_break (c : ascii) : bool :=
  in_range 10 13 c || in_range 28 30 c.

(** [s.splitlines()] *)
Fixpoint splitlines_aux (cur : str) (s : str) : list str :=
  match s with
  | [] => match cur with [] => [] | _ => [reverse cur] end
  | c :: s' =>
      if Ascii.eqb c "013" then
        match s' with
        | c' :: s'' =>
            if Ascii.eqb c' "010" then reverse cur :: splitlines_aux [] s''
            else reverse cur :: splitlines_aux [] s'
        | [] => reverse cur :: splitlines_aux [] s'
        end
      else if is_line_break c then reverse cur :: splitlines_aux [] s'
      else splitlines_aux (c :: cur) s'
  end.

Definition splitlines (s : str) : list str := splitlines_aux [] s.

Definition newline : ascii := "010".

Definition emit_newlines (run : nat) : str :=
  if 3 <=? run then [newline; newline] else repeat newline run.

(** [re.sub(r"\n{3,}", "\n\n", s)]; [run] counts the newlines just read. *)
Fixpoint collapse_newlines (run : nat) (s : str) : str :=
  match s with
  | [] => emit_newlines run
  | c :: s' =>
      if Ascii.eqb c newline then collapse_newlines (S run) s'
      else emit_newlines run ++ c :: collapse_newlines 0 s'
  end.

(** The list comprehension over the lines of the text. *)
Definition clean_lines (text : str) : list str :=
  map strip
    (filter (fun line => nonempty (strip line) && (3 <? length (strip line)))
       (splitlines text)).

(** [extract_text_content] after the parser has produced the text. *)
Definition normalize_text (text : str) : str :=
  let lines := clean_lines text in
  let text := join [newline] lines in
  let text := collapse_newlines 0 text in
  if (CONTENT_LIMIT <? len text)%Z
  then firstn (Z.to_nat CONTENT_LIMIT) text ++ ("..." : str)
  else text.

Definition no_break (l : str) : Prop :=
  Forall (fun c => is_line_break c = false) l.

(** What the list comprehension leaves: stripped lines without a line
    break that are longer than three characters. *)
Definition good_line (l : str) : Prop :=
  no_break l /\ strip l = l /\ 3 < length l.

Section Retrieval.
Variable W : world.
Variable E : env.

Definition extract_text_content (html : str) : str :=
  normalize_text (soup_text E html).

Definition option_bind {A B : Type} (m : option A) (k : A -> option B)
    : option B :=
  match m with Some a => k a | None => None end.

Notation "x <-? m ;; k" := (option_bind m (fun x => k))
  (at level 61, m at next level, right associativity).

Definition starts_with_any (s : str) (prefixes : list str) : bool :=
  existsb (startswith s) prefixes.

(** [src] or [href] made absolute. *)
Definition absolute (base_url u : str) : option str :=
  if negb (startswith u "http") then urljoin E base_url u else Some u.

(** Loop 1 of [discover_portal_urls]. *)
Fixpoint discover_iframes (base_url : str) (srcs : list str)
    (discovered : list (str * str)) : option (list (str * str)) :=
  match srcs with
  | [] => Some discovered
  | src :: rest =>
      if nonempty src &&
         negb (starts_with_any src
                 [ "data:" : str; "javascript:" : str; "about:" : str ])
      then
        src' <-? absolute base_url src ;;
        discover_iframes base_url rest
          (discovered ++ [("iframe" : str, src')])
      else discover_iframes base_url rest discovered
  end.

Definition is_subdomain_of (base_domain link_domain : str) : bool :=
  contains base_domain link_domain && negb (str_eqb link_domain base_domain).

(** Loop 2 of [discover_portal_urls]. *)
Fixpoint discover_links (base_url base_domain : str) (patterns : list str)
    (anchors : list (str * str)) (discovered : list (str * str))
    : option (list (str * str)) :=
  match anchors with
  | [] => Some discovered
  | (href, stripped) :: rest =>
      let text := lower stripped in
      if negb (nonempty href) ||
         starts_with_any href
           [ "#" : str; "javascript:" : str; "mailto:" : str; "tel:" : str ]
      then discover_links base_url base_domain patterns rest discovered
      else
        href' <-? absolute base_url href ;;
        parsed <-? urlparse W href' ;;
        let link_domain := replace_www (netloc parsed) in
        let is_subdomain := is_subdomain_of base_domain link_domain in
        let matches_pattern :=
          existsb (fun p => contains p (lower href') || contains p text)
            patterns in
        if is_subdomain || matches_pattern
        then discover_links base_url base_domain patterns rest
               (discovered ++ [("link" : str, href')])
        else discover_links base_url base_domain patterns rest discovered
  end.

(** The de-duplication loop. *)
Fixpoint unique_urls (discovered : list (str * str)) (seen : list str)
    (unique : list (str * str)) : list (str * str) :=
  match discovered with
  | [] => unique
  | (source, url) :: rest =>
      if mem url seen then unique_urls rest seen unique
      else unique_urls rest (url :: seen) (unique ++ [(source, url)])
  end.

Definition priority (base_domain : str) (item : str * str) : option Z :=
  let '(source, url) := item in
  parsed <-? urlparse W url ;;
  let is_subdomain := is_subdomain_of base_domain (netloc parsed) in
  if str_eqb source "iframe" then Some 0%Z
  else if is_subdomain then Some 1%Z
  else Some 2%Z.

(** The sort keys of the whole list; [None] when one of them raises. *)
Fixpoint with_priority (base_domain : str) (items : list (str * str))
    : option (list (Z * (str * str))) :=
  match items with
  | [] => Some []
  | item :: rest =>
      k <-? priority base_domain item ;;
      keyed <-? with_priority base_domain rest ;;
      Some ((k, item) :: keyed)
  end.

Definition priority_asc (x y : Z * (str * str)) : bool :=
  (fst x <? fst y)%Z.

(** [discover_portal_urls]; [None] when it raises. *)
Definition discover_portal_urls (html base_url intent : str)
    : option (list str) :=
  let patterns := get_list intent INTENT_URL_PATTERNS in
  base <-? urlparse W base_url ;;
  let base_domain := replace_www (netloc base) in
  discovered <-? discover_iframes base_url (soup_iframes E html) [] ;;
  discovered <-?
    discover_links base_url base_domain patterns (soup_anchors E html)
      discovered ;;
  let unique := unique_urls discovered [] [] in
  keyed <-? with_priority base_domain unique ;;
  Some (map (fun item => snd (snd item)) (firstn 5 (sort priority_asc keyed))).

(** The loop over the discovered portals in [scrape_with_discovery]. *)
Fixpoint try_portals (discovered_urls : list str) (content : str) : str :=
  match discovered_urls with
  | [] => content
  | portal_url :: rest =>
      match portal_visit E portal_url with
      | None => try_portals rest content
      | Some portal_html =>
          let portal_content := extract_text_content portal_html in
          if length content <? length portal_content then portal_content
          else try_portals rest content
      end
  end.

Definition scrape_with_discovery (url intent : str) : option str :=
  match page_goto E url with
  | Failed => None
  | Loaded status html =>
      if (400 <=? status)%Z then None
      else
        let content := extract_text_content html in
        content <-?
          (if length content <? 500 then
             discovered_urls <-? discover_portal_urls html url intent ;;
             Some (try_portals discovered_urls content)
           else Some content) ;;
        if length content <? 100 then None else Some content
  end.

Definition matches_intent (patterns : list str) (portal_url : str) : bool :=
  existsb (fun p => contains p (lower portal_url)) patterns.

(** The loop of step 1 over the portals found on the homepage. *)
Fixpoint scan_portals (patterns : list str) (intent : str)
    (discovered_urls : list str) : option page_record :=
  match discovered_urls with
  | [] => None
  | portal_url :: rest =>
      if matches_intent patterns portal_url then
        match scrape_with_discovery portal_url intent with
        | Some content =>
            if 300 <? length content
            then Some (mk_page intent content portal_url)
            else scan_portals patterns intent rest
        | None => scan_portals patterns intent rest
        end
      else scan_portals patterns intent rest
  end.

(** Step 1 of [scrape_for_intent]; an exception ends the step. *)
Definition homepage_scan (base_url intent : str) : option page_record :=
  match page_goto E base_url with
  | Failed => None
  | Loaded _ html =>
      match discover_portal_urls html base_url intent with
      | None => None
      | Some discovered_urls =>
          scan_portals (get_list intent INTENT_URL_PATTERNS) intent
            discovered_urls
      end
  end.

(** Step 2: the loop over the standard paths; [urljoin] is not guarded
    here. *)
Fixpoint probe_paths (base_url intent : str) (paths : list str)
    : outcome (option page_record) :=
  match paths with
  | [] => Returns None
  | path :: rest =>
      match urljoin E base_url path with
      | None => Raises
      | Some url =>
          match scrape_with_discovery url intent with
          | Some content =>
              if 300 <? length content
              then Returns (Some (mk_page intent content url))
              else probe_paths base_url intent rest
          | None => probe_paths base_url intent rest
          end
      end
  end.

Definition scrape_for_intent (base_url intent : str)
    : outcome (option page_record) :=
  match homepage_scan base_url intent with
  | Some page => Returns (Some page)
  | None =>
      match probe_paths base_url intent (get_list intent INTENT_TO_PATHS) with
      | Raises => Raises
      | Returns (Some page) => Returns (Some page)
      | Returns None =>
          match scrape_with_discovery base_url intent with
          | Some content =>
              if 200 <? length content
              then Returns (Some (mk_page "general" content base_url))
              else Returns None
          | None => Returns None
          end
      end
  end.

Definition quick_scrape_homepage (base_url : str) : option page_record :=
  match page_goto E base_url with
  | Failed => None
  | Loaded _ html =>
      let content := extract_text_content html in
      if 100 <? length content
      then Some (mk_page "general" content base_url)
      else None
  end.

Definition AGGREGATOR_HOSTS : list str :=
  [ "shiksha.com" : str; "collegedunia.com" : str; "careers360.com" : str ].

Definition search_queries (college_name intent : str) : list str :=
  map (fun site =>
         ("site:" : str) ++ site ++ (" " : str) ++ college_name ++
         (" " : str) ++ intent)
      AGGREGATOR_HOSTS.

(** The test a result link has to pass in [scrape_from_aggregators]. *)
Definition relevant_link (intent href : str) : bool :=
  existsb (fun site => contains site href) AGGREGATOR_HOSTS &&
  (contains intent (lower href) || contains "placement" (lower href) ||
   contains "fees" (lower href) || contains "admission" (lower href) ||
   contains "hostel" (lower href) || contains "infra" (lower href)).

Definition first_relevant (intent : str) (results : list search_result)
    : option str :=
  option_map href (find (fun res => relevant_link intent (href res)) results).

(** The results for one query: DuckDuckGo Lite, and SearXNG when that
    returns nothing. *)
Definition query_results (query : str) : M (list search_result) :=
  results <- search_with_duckduckgo_lite W query 3 ;;
  if nonempty results then ret results
  else search_with_searxng W query 3.

(** The loop over the search queries. *)
Fixpoint find_aggregator_url (intent : str) (queries : list str)
    : M (option str) :=
  match queries with
  | [] => ret None
  | query :: rest =>
      results <- query_results query ;;
      match first_relevant intent results with
      | Some found_url => ret (Some found_url)
      | None => find_aggregator_url intent rest
      end
  end.

(** The page of the link that was found. *)
Definition scrape_found (intent : str) (found_url : option str)
    : option page_record :=
  match found_url with
  | None => None
  | Some found_url =>
      match aggregator_visit E found_url with
      | None => None
      | Some html =>
          let content := extract_text_content html in
          if 500 <? length content
          then Some (mk_page intent content found_url)
          else None
      end
  end.

Definition scrape_from_aggregators (college_name intent : str)
    : M (option page_record) :=
  if negb (mem intent AGGREGATOR_INTENTS) then ret None
  else
    found_url <- find_aggregator_url intent
                   (search_queries college_name intent) ;;
    ret (scrape_found intent found_url).

(** The search phase as the specification words it: each query goes to the
    meta-search provider first and to the lightweight text endpoint when
    that finds nothing. *)
Definition query_results_spec (query : str) : M (list search_result) :=
  results <- search_with_searxng W query 3 ;;
  if nonempty results then ret results
  else search_with_duckduckgo_lite W query 3.

Fixpoint find_aggregator_url_spec (intent : str) (queries : list str)
    : M (option str) :=
  match queries with
  | [] => ret None
  | query :: rest =>
      results <- query_results_spec query ;;
      match first_relevant intent results with
      | Some found_url => ret (Some found_url)
      | None => find_aggregator_url_spec intent rest
      end
  end.

Definition fetchAggregatorContent_spec (college_name intent : str)
    : M (option page_record) :=
  if negb (mem intent AGGREGATOR_INTENTS) then ret None
  else
    found_url <- find_aggregator_url_spec intent
                   (search_queries college_name intent) ;;
    ret (scrape_found intent found_url).

(** The address yields no text longer than 300 characters. *)
Definition thin (intent url : str) : Prop :=
  forall content,
    scrape_with_discovery url intent = Some content -> length content <= 300.

(** Steps 1 and 2 find nothing: no portal discovered on the homepage [html]
    that matches the topic, and no standard path, yields a text of more than
    300 characters. *)
Definition nothing_specific (base_url intent html : str) : Prop :=
  (forall discovered_urls portal_url,
     discover_portal_urls html base_url intent = Some discovered_urls ->
     In portal_url discovered_urls ->
     matches_intent (get_list intent INTENT_URL_PATTERNS) portal_url = true ->
     thin intent portal_url) /\
  (forall path,
     In path (get_list intent INTENT_TO_PATHS) ->
     exists url, urljoin E base_url path = Some url /\ thin intent url).

(** The link the loop over the queries stops at. *)
Fixpoint first_hit (intent : str) (queries : list str) : option str :=
  match queries with
  | [] => None
  | query :: rest =>
      match first_relevant intent (value (query_results query)) with
      | Some found_url => Some found_url
      | None => first_hit intent rest
      end
  end.

End Retrieval.

End Scraper.

(** ** Worked inputs *)

Module Examples.
Import Py PyList Search Scraper.

(** Search back ends that are all out of reach. *)
Definition offline (known : dict college_info)
    (registry : dict institution_info) : world :=
  mk_world Url.urlparse known registry
    (fun _ _ => None) (fun _ => None) (fun _ => None) (fun _ => None).

(** A catalogue with two universities of one city. *)
Definition two_universities : dict college_info :=
  [ ("anna university" : str,
      mk_college "Anna University" "https://www.annauniv.edu");
    ("university of madras chennai" : str,
      mk_college "University of Madras" "https://www.unom.ac.in") ].

(** A catalogue entry whose address was left out of the JSON file. *)
Definition entry_without_url : dict college_info :=
  [ ("abc college" : str, mk_college "ABC College" "") ].

(** A catalogue entry that points to a page on a social network. *)
Definition entry_on_social_network : dict college_info :=
  [ ("xyz college" : str,
      mk_college "XYZ College" "https://www.facebook.com/xyzcollege") ].

(** A registry of three colleges. *)
Definition small_registry : dict institution_info :=
  [ ("government arts college salem" : str,
      mk_institution "Government Arts College Salem" "Periyar University"
        "Tamil Nadu" "Salem" "Government");
    ("abc college of engineering" : str,
      mk_institution "ABC College of Engineering" "Anna University"
        "Tamil Nadu" "Chennai" "Private");
    ("abc engineering college for women" : str,
      mk_institution "ABC Engineering College for Women" "Anna University"
        "Tamil Nadu" "Erode" "Private") ].

(** The answer of a meta-search instance. *)
Definition searx_answer : list (str * str) :=
  [ ("https://www.abc.ac.in/about" : str, "ABC College of Engineering" : str);
    ("https://en.wikipedia.org/wiki/ABC_College" : str,
     "ABC College - Wikipedia" : str);
    ("http://abcengineering.com/contact" : str, "" : str);
    ("https://www.shiksha.com/college/abc-college-fees" : str,
     "ABC College fees" : str) ].

(** A world where the first meta-search instance answers every query and
    the other back ends are out of reach. *)
Definition online : world :=
  mk_world Url.urlparse two_universities small_registry
    (fun instance _ =>
       if str_eqb instance "https://searx.tiekoetter.com"
       then Some searx_answer else None)
    (fun _ => None) (fun _ => None) (fun _ => None).

(** A parser for documents that hold no markup: the document is one text
    node, and reading it gives that text stripped. *)
Definition plain_text_env (goto : str -> fetch) : env :=
  mk_env strip (fun _ => []) (fun _ => [])
    (fun base u => Some (base ++ u)) goto (fun _ => None) (fun _ => None).

Definition unreachable (u : str) : fetch := Failed.

(** A line of 11999 letters followed by a second line. *)
Definition long_page : str :=
  repeat "a"%char (Z.to_nat 11999) ++ [Scraper.newline] ++ ("bbbb" : str).

Definition college_site : str := "https://www.abc.ac.in".

(** A homepage of 250 letters and no markup. *)
Definition short_page : str := repeat "x"%char 250.

(** A browser that reaches the homepage only, with the given status. *)
Definition homepage_only (status : Z) (html : str) (u : str) : fetch :=
  if str_eqb u college_site then Loaded status html else Failed.

(** The homepage with a link whose address has an unclosed bracket. *)
Definition page_with_bad_link : str :=
  ("<p>" : str) ++ short_page ++ ("</p><a href='http://['>Fees</a>" : str).

(** The parser on that page: its text is the paragraph and the link text,
    its one anchor is the link. *)
Definition bad_link_env : env :=
  mk_env (fun _ => short_page ++ [Scraper.newline] ++ ("Fees" : str))
    (fun _ => []) (fun _ => [("http://[" : str, "Fees" : str)])
    (fun base u => Some (base ++ u)) (homepage_only 200 page_with_bad_link)
    (fun _ => None) (fun _ => None).

(** A world where the lightweight endpoint answers every query with the
    college's own site and the meta-search with [searx_answer]. *)
Definition both_answer : world :=
  mk_world Url.urlparse two_universities small_registry
    (fun instance _ =>
       if str_eqb instance "https://searx.tiekoetter.com"
       then Some searx_answer else None)
    (fun _ => None)
    (fun _ =>
       Some [Some ("https://www.abc.ac.in/fees" : str, "Fee structure" : str)])
    (fun _ => None).

End Examples.

(** ** [app/routers/college.py]: the resolve end point *)

Module College.
Import Py PyList Search.

(** What an end point answers: an [HTTPException] with its status and
    detail, or the response model. *)
Inductive response (A : Type) : Type :=
| HttpError (status : Z) (detail : str)
| Ok (body : A).
Arguments HttpError {A} status detail.
Arguments Ok {A} body.

(** [CollegeCandidate]: the three fields the schema keeps of a candidate
    dictionary. *)
Record CollegeCandidate : Type := mk_college_candidate {
  cc_name : str;
  cc_url : str;
  cc_confidence : str
}.

Definition to_schema (c : candidate) : CollegeCandidate :=
  mk_college_candidate (name c) (url c) (confidence c).

(** [resolve_college]; the search runs with its default of five results. *)
Definition resolve_college (W : world) (college_name : str)
    (force_search : bool) : M (response (list CollegeCandidate)) :=
  if negb (nonempty college_name) || (length (strip college_name) <? 3) then
    ret (HttpError 400 "College name must be at least 3 characters")
  else
    candidates <- search_college_website W (strip college_name) 5
                    force_search ;;
    if negb (nonempty candidates) then
      ret (HttpError 404
             "Could not find any official website for this college. Please try with a different name or spelling.")
    else ret (Ok (map to_schema candidates)).

End College.

(** ** [app/services/llm.py]: routing a question to the stored pages *)

Module Llm.
Import Py PyList Search Scraper.

Definition INTENT_KEYWORDS : dict (list str) :=
  [ ("fees" : str,
      [ "fee" : str; "fees" : str; "cost" : str; "tuition" : str;
        "payment" : str; "scholarship" : str; "price" : str; "afford" : str;
        "expense" : str; "charges" : str ]);
    ("admissions" : str,
      [ "admission" : str; "apply" : str; "eligibility" : str;
        "entrance" : str; "cutoff" : str; "requirement" : str;
        "enroll" : str; "registration" : str; "intake" : str ]);
    ("placements" : str,
      [ "placement" : str; "salary" : str; "package" : str; "recruit" : str;
        "company" : str; "job" : str; "career" : str; "intern" : str;
        "average package" : str; "highest package" : str ]);
    ("academics" : str,
      [ "course" : str; "program" : str; "degree" : str; "curriculum" : str;
        "subject" : str; "faculty" : str; "professor" : str;
        "department" : str; "branch" : str; "specialization" : str ]);
    ("about" : str,
      [ "history" : str; "established" : str; "founder" : str;
        "accreditation" : str; "ranking" : str; "recognition" : str;
        "about" : str; "overview" : str ]);
    ("facilities" : str,
      [ "hostel" : str; "library" : str; "lab" : str; "campus" : str;
        "infrastructure" : str; "facility" : str; "amenity" : str;
        "sports" : str; "canteen" : str ]);
    ("contact" : str,
      [ "contact" : str; "address" : str; "location" : str; "phone" : str;
        "email" : str; "reach" : str; "where" : str ]) ].

(** The loop of [detect_intent] over a keyword table. *)
Definition matching_intents (table : dict (list str)) (question_lower : str)
    : list str :=
  map fst
    (filter (fun entry =>
               existsb (fun keyword => contains keyword question_lower)
                 (snd entry))
       table).

Definition detect_intent (question : str) : list str :=
  let question_lower := lower question in
  let intents := matching_intents INTENT_KEYWORDS question_lower in
  if negb (nonempty intents) then [ "about" : str; "general" : str ]
  else intents.

Definition upper_char (c : ascii) : ascii :=
  if is_lower c then ascii_of_N (code c - 32) else c.

(** [s.upper()] on ASCII. *)
Definition upper (s : str) : str := map upper_char s.

(** Equality of two page dictionaries. *)
Definition page_eqb (p q : page_record) : bool :=
  str_eqb (page_type p) (page_type q) &&
  str_eqb (content_text p) (content_text q) &&
  str_eqb (source_url p) (source_url q).

(** [page in pages] *)
Definition page_mem (p : page_record) (pages : list page_record) : bool :=
  existsb (page_eqb p) pages.

(** The inner loop of the first pass of [get_relevant_content]. *)
Fixpoint add_matching (intent : str) (pages : list page_record)
    (relevant_pages : list page_record) : list page_record :=
  match pages with
  | [] => relevant_pages
  | page :: rest =>
      if (str_eqb (page_type page) intent ||
          str_eqb (page_type page) (intent ++ ("_aggregator" : str))) &&
         negb (page_mem page relevant_pages)
      then add_matching intent rest (relevant_pages ++ [page])
      else add_matching intent rest relevant_pages
  end.

(** The first pass: the intents in order. *)
Fixpoint add_intents (intents : list str) (pages : list page_record)
    (relevant_pages : list page_record) : list page_record :=
  match intents with
  | [] => relevant_pages
  | intent :: rest =>
      add_intents rest pages (add_matching intent pages relevant_pages)
  end.

(** The second pass: the general pages. *)
Fixpoint add_general (pages : list page_record)
    (relevant_pages : list page_record) : list page_record :=
  match pages with
  | [] => relevant_pages
  | page :: rest =>
      if str_eqb (page_type page) "general" &&
         negb (page_mem page relevant_pages)
      then add_general rest (relevant_pages ++ [page])
      else add_general rest relevant_pages
  end.

(** The pages that [get_relevant_content] reads, in reading order. *)
Definition relevant_pages (pages : list page_record) (intents : list str)
    : list page_record :=
  let relevant := add_general pages (add_intents intents pages []) in
  if (length relevant =? 0) && (0 <? length pages)
  then relevant ++ pages
  else relevant.

(** The variables of the building loop. *)
Record built : Type := mk_built {
  content_parts : list str;
  total_chars : Z;
  primary_source : option (str * str);
  all_sources : list (str * str)
}.

Definition part_of (page : page_record) (page_content : str) : str :=
  ("--- " : str) ++ upper (page_type page) ++ (" PAGE ---" : str) ++
  [newline] ++ page_content.

(** One page taken into the content. *)
Definition take_page (page : page_record) (page_content : str) (b : built)
    : built :=
  mk_built
    (content_parts b ++ [part_of page page_content])
    (total_chars b + len page_content)
    (match primary_source b with
     | None => Some (page_type page, source_url page)
     | Some s => Some s
     end)
    (if nonempty (source_url page)
     then all_sources b ++ [(page_type page, source_url page)]
     else all_sources b).

(** The building loop of [get_relevant_content]. *)
Fixpoint build_content (char_limit : Z) (pages : list page_record)
    (b : built) : built :=
  match pages with
  | [] => b
  | page :: rest =>
      let page_content := content_text page in
      if (char_limit <? total_chars b + len page_content)%Z then
        let remaining := (char_limit - total_chars b)%Z in
        if (500 <? remaining)%Z
        then build_content char_limit rest
               (take_page page (slice_to remaining page_content) b)
        else b
      else build_content char_limit rest (take_page page page_content b)
  end.

(** [get_relevant_content]: the content, the type and address of the
    primary source, and all sources. *)
Definition get_relevant_content (pages : list page_record)
    (intents : list str) (max_tokens : Z)
    : str * str * option str * list (str * str) :=
  let b :=
    build_content (max_tokens * 4) (relevant_pages pages intents)
      (mk_built [] 0 None []) in
  (join [newline; newline] (content_parts b),
   match primary_source b with
   | Some (t, _) => if nonempty t then t else ("general" : str)
   | None => ("general" : str)
   end,
   option_map snd (primary_source b),
   all_sources b).

End Llm.

(** ** [app/services/scraper.py]: classifying links *)

Module StaticScraper.
Import Py PyList Search.

Definition PAGE_TYPE_PATTERNS : dict (list str) :=
  [ ("about" : str,
      [ "about" : str; "overview" : str; "history" : str; "vision" : str;
        "mission" : str; "profile" : str ]);
    ("admissions" : str,
      [ "admission" : str; "apply" : str; "registration" : str;
        "enrollment" : str ]);
    ("academics" : str,
      [ "academic" : str; "courses" : str; "programs" : str;
        "departments" : str; "faculty" : str; "curriculum" : str ]);
    ("fees" : str,
      [ "fee" : str; "tuition" : str; "payment" : str; "scholarship" : str;
        "financial" : str ]);
    ("placements" : str,
      [ "placement" : str; "career" : str; "recruitment" : str;
        "companies" : str; "internship" : str ]);
    ("facilities" : str,
      [ "facility" : str; "infrastructure" : str; "campus" : str;
        "hostel" : str; "library" : str; "lab" : str ]);
    ("contact" : str,
      [ "contact" : str; "address" : str; "location" : str;
        "reach" : str ]) ].

(** The two nested loops of [get_page_type] over a pattern table. *)
Fixpoint first_page_type (table : dict (list str)) (url_lower : str) : str :=
  match table with
  | [] => "general"
  | (page_type, patterns) :: rest =>
      if existsb (fun pattern => contains pattern url_lower) patterns
      then page_type
      else first_page_type rest url_lower
  end.

Definition get_page_type (url : str) : str :=
  first_page_type PAGE_TYPE_PATTERNS (lower url).

Definition skip_patterns : list str :=
  [ ".pdf" : str; ".doc" : str; ".xls" : str; ".ppt" : str; ".zip" : str;
    ".rar" : str; ".jpg" : str; ".jpeg" : str; ".png" : str; ".gif" : str;
    ".mp4" : str; ".mp3" : str; "javascript:" : str; "mailto:" : str;
    "tel:" : str; "#" : str; "login" : str; "signin" : str; "signup" : str;
    "register" : str; "facebook" : str; "twitter" : str; "linkedin" : str;
    "instagram" : str; "youtube" : str ].

Definition relevant_keywords : list str :=
  flat_map snd PAGE_TYPE_PATTERNS.

Definition is_relevant_link (href base_domain : str) : bool :=
  if negb (nonempty href) then false
  else
    let href_lower := lower href in
    if existsb (fun pattern => contains pattern href_lower) skip_patterns
    then false
    else existsb (fun keyword => contains keyword href_lower)
           relevant_keywords.

End StaticScraper.

(** ** Predicates of the further properties *)

Module Props.
Import Py PyList Search Scraper.

(** A tier of the three the schema names. *)
Definition known_tier (c : str) : Prop :=
  c = ("high" : str) \/ c = ("medium" : str) \/ c = ("low" : str).

(** The last two labels of a host name, the key by which
    [search_college_website] tells sites apart. *)
Definition base_domain (domain : str) : str :=
  if contains "." domain
  then join "." (last_n 2 (split "." domain))
  else domain.

(** The base domain of an address, when it parses. *)
Definition base_of (W : world) (u : str) : option str :=
  match urlparse W u with
  | Some parsed => Some (base_domain (lower (netloc parsed)))
  | None => None
  end.

(** Two worlds with the same URL parser and the same search back ends. *)
Definition same_web (W1 W2 : world) : Prop :=
  urlparse W1 = urlparse W2 /\
  searxng_get W1 = searxng_get W2 /\
  startpage_post W1 = startpage_post W2 /\
  ddg_lite_post W1 = ddg_lite_post W2 /\
  google_page W1 = google_page W2.

(** A candidate that comes from the curated catalogue. *)
Definition from_catalog (W : world) (c : candidate) : Prop :=
  source c = Some ("database" : str) /\
  exists key info,
    In (key, info) (KNOWN_COLLEGES W) /\
    name c = ci_name info /\ url c = ci_url info.

(** A candidate that comes from the registry: it carries no address. *)
Definition from_registry (W : world) (c : candidate) : Prop :=
  source c = Some ("ugc_database" : str) /\ url c = [] /\
  exists key info,
    In (key, info) (ALL_INSTITUTIONS W) /\ name c = in_name info.

(** Every key of the dictionary is written in ASCII. *)
Definition ascii_keys {V : Type} (d : dict V) : bool :=
  forallb (fun entry => is_ascii (fst entry)) d.

(** [raw] is a link in the answer of the back end of provider [p] to
    [query]: the [url] of a result of one of the SearXNG instances, the
    [href] of a Startpage block or of a DuckDuckGo Lite row, or the
    unwrapped [href] of an anchor of the Google page. *)
Definition answered (W : world) (p : provider) (query raw : str) : Prop :=
  match p with
  | SearXNG =>
      exists instance items title,
        In instance searxng_instances /\
        searxng_get W instance query = Some items /\
        In (raw, title) items
  | Startpage =>
      exists items title,
        startpage_post W query = Some items /\ In (Some (raw, title)) items
  | DuckDuckGoLite =>
      exists items title,
        ddg_lite_post W query = Some items /\ In (Some (raw, title)) items
  | PlaywrightGoogle =>
      exists anchors href0 text,
        google_page W query = Some anchors /\ In (href0, text) anchors /\
        raw = unwrap_google href0
  end.

(** [u] is what is kept of a link of [links]: the link starts with "http",
    it parses, its network location holds no excluded name, and [u] is its
    scheme, "://" and its network location. *)
Definition rooted (W : world) (links : str -> Prop) (u : str) : Prop :=
  exists raw parsed,
    links raw /\ startswith raw "http" = true /\
    urlparse W raw = Some parsed /\
    is_excluded_domain (netloc parsed) = false /\
    u = scheme parsed ++ ("://" : str) ++ netloc parsed.

(** [u] is what provider [p] keeps of a link answered to [query]. *)
Definition kept_root (W : world) (p : provider) (query u : str) : Prop :=
  rooted W (answered W p query) u.

(** The parser puts no slash, question mark or hash into a network
    location, as [urlparse] does, which ends the network location at the
    first of them. *)
Definition netloc_clear (W : world) : Prop :=
  forall raw parsed,
    urlparse W raw = Some parsed ->
    Forall (fun c => Url.is_delim c = false) (netloc parsed).

(** The links that the two back ends of the aggregator fallback answer to
    [queries], and that start with "http", have the scheme "http" or
    "https". *)
Definition web_schemes (W : world) (queries : list str) : Prop :=
  forall query raw parsed,
    In query queries ->
    answered W DuckDuckGoLite query raw \/ answered W SearXNG query raw ->
    startswith raw "http" = true ->
    urlparse W raw = Some parsed ->
    scheme parsed = ("http" : str) \/ scheme parsed = ("https" : str).

(** The address comes from one of the raw references [raws] of a page,
    made absolute against [base_url]. *)
Definition origin (E : env) (base_url : str) (raws : list str) (u : str)
    : Prop :=
  exists raw, In raw raws /\ absolute E base_url raw = Some u.

(** A page of [pages] with a leading piece of its text: what the building
    loop of [get_relevant_content] takes into the content. *)
Definition taken_from (pages : list page_record) (t : page_record * str)
    : Prop :=
  In (fst t) pages /\ exists rest, content_text (fst t) = snd t ++ rest.

(** The characters of the pieces taken. *)
Definition taken_chars (taken : list (page_record * str)) : Z :=
  fold_right (fun t acc => (len (snd t) + acc)%Z) 0%Z taken.

(** The variables of the building loop of [get_relevant_content] describe
    the pieces [taken] of the pages [all]. *)
Definition describes (all : list page_record) (limit : Z) (b : Llm.built)
    (taken : list (page_record * str)) : Prop :=
  Llm.content_parts b = map (fun t => Llm.part_of (fst t) (snd t)) taken /\
  Llm.total_chars b = taken_chars taken /\
  (taken_chars taken <= Z.max 0 limit)%Z /\
  Forall (taken_from all) taken /\
  Forall (fun s => exists page,
            In page all /\ s = (page_type page, source_url page) /\
            source_url page <> []) (Llm.all_sources b).

(** The four providers in the order of the chain, asked one query. *)
Definition chain_order (query : str) : list event :=
  [ (SearXNG, query); (Startpage, query); (DuckDuckGoLite, query);
    (PlaywrightGoogle, query) ].

End Props.

(** ** Further worked inputs *)

Module MoreExamples.
Import Py PyList Search Scraper Examples.

(** The world [online] with both catalogues emptied. *)
Definition online_without_catalogs : world :=
  mk_world (urlparse online) [] [] (searxng_get online)
    (startpage_post online) (ddg_lite_post online) (google_page online).

(** A world where the lightweight endpoint answers every query with a fee
    page of an aggregator and no other back end answers. *)
Definition aggregator_answer : world :=
  mk_world Url.urlparse [] [] (fun _ _ => None) (fun _ => None)
    (fun _ =>
       Some [Some ("https://www.shiksha.com/college/abc-college-fees" : str,
                   "ABC College fees" : str)])
    (fun _ => None).

(** A world where the lightweight endpoint answers every query with a link
    that carries user information, a port, a path and a query. *)
Definition port_answer : world :=
  mk_world Url.urlparse [] [] (fun _ _ => None) (fun _ => None)
    (fun _ =>
       Some [Some ("https://user:pw@b.edu:8080/admissions?year=2024" : str,
                   "B College" : str)])
    (fun _ => None).

(** A homepage with a frame, two links to one placement page, a link to a
    subdomain and a link inside the page. *)
Definition linked_env : env :=
  mk_env (fun _ => short_page)
    (fun _ => [ "https://stats.abc.ac.in/embed" : str ])
    (fun _ =>
       [ ("/placements" : str, "Placements" : str);
         ("https://ocs.abc.ac.in/" : str, "Career services" : str);
         ("/placements" : str, "Placement cell" : str);
         ("#top" : str, "Back to top" : str);
         ("/gallery" : str, "Gallery" : str) ])
    (fun base u => Some (base ++ u))
    (homepage_only 200 short_page) (fun _ => None) (fun _ => None).

(** A page of 400 letters under the path "/fees" of the college site. *)
Definition fees_page : str := repeat "f"%char 400.

(** A browser that reaches the homepage and that page. *)
Definition with_fees_page (u : str) : fetch :=
  if str_eqb u college_site then Loaded 200 short_page
  else if str_eqb u (college_site ++ ("/fees" : str))
       then Loaded 200 fees_page
       else Failed.

(** A text of four lines: a heading, a line of two letters, an empty line
    and a sentence. *)
Definition fee_lines : str :=
  ("Fees" : str) ++ [newline] ++ ("ab" : str) ++ [newline; newline] ++
  ("Tuition: Rs. 85000 per year" : str).

End MoreExamples.

(** * Properties *)

(** ** The pattern matcher computes the language of a pattern *)

Module ReFacts.
Import Re.

Lemma cat_inv (r1 r2 : regex) (s : str) :
  matches (Cat r1 r2) s ->
  exists s1 s2, s = s1 ++ s2 /\ matches r1 s1 /\ matches r2 s2.
Proof. inversion 1; subst; eauto. Qed.

Lemma nullable_spec (r : regex) : nullable r = true <-> matches r [].
Proof.
  induction r as [| | p | r1 IH1 r2 IH2 | r1 IH1 r2 IH2 | r IH]; simpl.
  - split; [discriminate | inversion 1].
  - split; [constructor | reflexivity].
  - split; [discriminate | inversion 1].
  - rewrite andb_true_iff, IH1, IH2. split.
    + intros [M1 M2]. change (@nil ascii) with (@nil ascii ++ []).
      constructor; assumption.
    + intro H. apply cat_inv in H. destruct H as (s1 & s2 & E & M1 & M2).
      symmetry in E. apply app_eq_nil in E. destruct E; subst. auto.
  - rewrite orb_true_iff, IH1, IH2. split.
    + intros [M | M]; [apply MAltL | apply MAltR]; exact M.
    + inversion 1; subst; auto.
  - split; [constructor | reflexivity].
Qed.

Lemma star_cons_aux (r0 : regex) (s0 : str) :
  matches r0 s0 ->
  forall r c s, r0 = Star r -> s0 = c :: s ->
  exists s1 s2, s = s1 ++ s2 /\ matches r (c :: s1) /\ matches (Star r) s2.
Proof.
  induction 1 as [| | | | | | r' s1 s2 H1 _ H2 IH2]; intros rr cc ss Er Es;
    try discriminate.
  injection Er as ->.
  destruct s1 as [| c1 s1'].
  - simpl in Es. apply IH2; auto.
  - simpl in Es. injection Es as -> <-.
    exists s1', s2. auto.
Qed.

Lemma star_cons (r : regex) (c : ascii) (s : str) :
  matches (Star r) (c :: s) ->
  exists s1 s2, s = s1 ++ s2 /\ matches r (c :: s1) /\ matches (Star r) s2.
Proof. intro H. eapply star_cons_aux; eauto. Qed.

Lemma deriv_spec (c : ascii) (r : regex) (s : str) :
  matches (deriv c r) s <-> matches r (c :: s).
Proof.
  revert s. induction r; intro s; simpl.
  - split; intro H; inversion H.
  - split; intro H; inversion H.
  - destruct (p c) eqn:Ep; split; intro H.
    + inversion H; subst. constructor. exact Ep.
    + inversion H; subst. constructor.
    + inversion H.
    + inversion H; subst. congruence.
  - assert (L : matches (Cat (deriv c r1) r2) s ->
                matches (Cat r1 r2) (c :: s)).
    { intro H. apply cat_inv in H. destruct H as (s1 & s2 & -> & M1 & M2).
      change (c :: s1 ++ s2) with ((c :: s1) ++ s2).
      constructor; [apply IHr1 |]; assumption. }
    assert (R : forall s1 s2, matches r1 (c :: s1) -> matches r2 s2 ->
                matches (Cat (deriv c r1) r2) (s1 ++ s2)).
    { intros s1 s2 M1 M2. constructor; [apply IHr1 |]; assumption. }
    destruct (nullable r1) eqn:En; split; intro H.
    + inversion H; subst; [apply L; assumption |].
      change (c :: s) with ([] ++ c :: s).
      constructor; [apply nullable_spec, En | apply IHr2; assumption].
    + apply cat_inv in H. destruct H as (s1 & s2 & E & M1 & M2).
      destruct s1 as [| c1 s1'].
      * simpl in E. subst. apply MAltR, IHr2, M2.
      * simpl in E. injection E as <- ->. apply MAltL, R; assumption.
    + apply L, H.
    + apply cat_inv in H. destruct H as (s1 & s2 & E & M1 & M2).
      destruct s1 as [| c1 s1'].
      * apply nullable_spec in M1. congruence.
      * simpl in E. injection E as <- ->. apply R; assumption.
  - split; intro H; inversion H; subst.
    + apply MAltL, IHr1; assumption.
    + apply MAltR, IHr2; assumption.
    + apply MAltL, IHr1; assumption.
    + apply MAltR, IHr2; assumption.
  - split; intro H.
    + apply cat_inv in H. destruct H as (s1 & s2 & -> & M1 & M2).
      change (c :: s1 ++ s2) with ((c :: s1) ++ s2).
      constructor; [apply IHr |]; assumption.
    + apply star_cons in H. destruct H as (s1 & s2 & -> & M1 & M2).
      constructor; [apply IHr |]; assumption.
Qed.

Lemma fullmatch_spec (r : regex) (s : str) :
  fullmatch r s = true <-> matches r s.
Proof.
  revert r. induction s as [| c s IH]; intro r; simpl.
  - apply nullable_spec.
  - rewrite IH. apply deriv_spec.
Qed.

Lemma match_prefix_spec (r : regex) (s : str) :
  match_prefix r s = true <->
  exists m rest, s = m ++ rest /\ matches r m.
Proof.
  revert r. induction s as [| c s IH]; intro r; cbn [match_prefix].
  - rewrite orb_false_r, nullable_spec. split.
    + intro H. exists [], []. auto.
    + intros (m & rest & E & H). symmetry in E.
      apply app_eq_nil in E. destruct E; subst. exact H.
  - rewrite orb_true_iff, IH, nullable_spec. split.
    + intros [H | (m & rest & -> & H)].
      * exists [], (c :: s). auto.
      * exists (c :: m), rest. split; [reflexivity | apply deriv_spec, H].
    + intros (m & rest & E & H). destruct m as [| c' m'].
      * left. exact H.
      * simpl in E. injection E as <- ->. right.
        exists m', rest. split; [reflexivity | apply deriv_spec, H].
Qed.

Lemma search_spec (r : regex) (s : str) :
  search r s = true <->
  exists pre m post, s = pre ++ m ++ post /\ matches r m.
Proof.
  induction s as [| c s IH]; cbn [search].
  - rewrite orb_false_r, match_prefix_spec. split.
    + intros (m & rest & E & H). exists [], m, rest. auto.
    + intros (pre & m & post & E & H). exists m, post. split; [| exact H].
      symmetry in E. apply app_eq_nil in E. destruct E as [-> E]. exact (eq_sym E).
  - rewrite orb_true_iff, IH, match_prefix_spec. split.
    + intros [(m & rest & E & H) | (pre & m & post & -> & H)].
      * exists [], m, rest. auto.
      * exists (c :: pre), m, post. auto.
    + intros (pre & m & post & E & H). destruct pre as [| c' pre'].
      * left. exists m, post. auto.
      * simpl in E. injection E as <- ->. right. exists pre', m, post. auto.
Qed.

Lemma search_alt (r1 r2 : regex) (s : str) :
  search (Alt r1 r2) s = search r1 s || search r2 s.
Proof.
  apply eq_true_iff_eq.
  rewrite orb_true_iff, !search_spec. split.
  - intros (pre & m & post & E & H).
    inversion H; subst; [left | right]; exists pre, m, post; auto.
  - intros [(pre & m & post & E & H) | (pre & m & post & E & H)];
      exists pre, m, post; split; auto; [apply MAltL | apply MAltR]; auto.
Qed.

End ReFacts.

(** ** Strings *)

Module PyFacts.
Import Py.

Lemma str_eqb_eq (a b : str) : str_eqb a b = true <-> a = b.
Proof.
  revert b. induction a as [| x a IH]; intros [| y b]; simpl;
    try (split; [discriminate | discriminate]); try tauto.
  rewrite andb_true_iff, Ascii.eqb_eq, IH. split.
  - intros [-> ->]. reflexivity.
  - intro H. injection H as -> ->. auto.
Qed.

Lemma str_eqb_refl (a : str) : str_eqb a a = true.
Proof. apply str_eqb_eq. reflexivity. Qed.

Lemma str_eqb_neq (a b : str) : a <> b -> str_eqb a b = false.
Proof.
  intro H. destruct (str_eqb a b) eqn:E; [| reflexivity].
  apply str_eqb_eq in E. contradiction.
Qed.

Lemma lower_app (a b : str) : lower (a ++ b) = lower a ++ lower b.
Proof. apply map_app. Qed.

End PyFacts.

(** ** The adequacy check *)

Module ChatFacts.
Import Py Re Chat PyFacts ReFacts.

(** C7.  The currency mark of the fees pattern is not the rupee sign: the
    pattern literal holds the three characters that the bytes of the rupee
    sign give when they are read in a one-byte encoding.  So an amount in
    rupees alone is not recognised, "Fee: ₹1,20,000" and "₹ 500" are
    rejected, while the same amount behind the mis-read mark or behind "Rs."
    is accepted; "₹50,000 per year" is accepted through its period phrase
    only. *)
Lemma rupee_amount_not_recognised :
  has_specific_data "Fee: ₹1,20,000" "fees" = false /\
  has_specific_data "₹ 500" "fees" = false /\
  has_specific_data "â‚¹ 500" "fees" = true /\
  has_specific_data "Rs. 500" "fees" = true /\
  has_specific_data "₹50,000 per year" "fees" = true /\
  has_specific_data "₹50,000" "fees" = false.
Proof. repeat split; vm_compute; reflexivity. Qed.

(** C10.  For every topic other than [placements] and [fees] the check
    accepts every text, the empty one included. *)
Theorem other_topics_always_adequate (content intent : str) :
  intent <> ("placements" : str) ->
  intent <> ("fees" : str) ->
  has_specific_data content intent = true.
Proof.
  intros Hp Hf. unfold has_specific_data.
  rewrite (str_eqb_neq _ _ Hp), (str_eqb_neq _ _ Hf). reflexivity.
Qed.

Lemma other_topics_always_adequate_witness :
  ("about" : str) <> ("placements" : str) /\
  ("about" : str) <> ("fees" : str) /\
  has_specific_data [] "about" = true.
Proof.
  assert (Hp : ("about" : str) <> ("placements" : str)) by discriminate.
  assert (Hf : ("about" : str) <> ("fees" : str)) by discriminate.
  split; [exact Hp | split; [exact Hf |]].
  exact (other_topics_always_adequate [] "about" Hp Hf).
Defined.

End ChatFacts.

(** ** Sorting and slicing *)

Module PyListFacts.
Import PyList.

Section SortFacts.
Context {A : Type}.
Variable lt : A -> A -> bool.

Lemma insert_perm (x : A) (l : list A) : Permutation (insert lt x l) (x :: l).
Proof.
  induction l as [| y l IH]; simpl; [reflexivity |].
  destruct (lt y x); [| reflexivity].
  rewrite IH. apply perm_swap.
Qed.

Lemma sort_perm (l : list A) : Permutation (sort lt l) l.
Proof.
  induction l as [| x l IH]; simpl; [reflexivity |].
  rewrite insert_perm. constructor. exact IH.
Qed.

Variable key : A -> Z.
Hypothesis lt_key : forall x y, lt x y = (key x <? key y)%Z.

Lemma insert_sorted (x : A) (l : list A) :
  StronglySorted (key_le key) l -> StronglySorted (key_le key) (insert lt x l).
Proof.
  induction 1 as [| y l Hs IH Hy]; simpl.
  - constructor; constructor.
  - rewrite lt_key. destruct (Z.ltb_spec (key y) (key x)) as [Hlt | Hge].
    + constructor; [exact IH |].
      rewrite (Forall_forall (key_le key y)). intros z Hz.
      apply (Permutation_in _ (insert_perm x l)) in Hz.
      destruct Hz as [<- | Hz]; [unfold key_le; lia |].
      rewrite Forall_forall in Hy. auto.
    + constructor; [constructor; assumption |].
      constructor; [exact Hge |].
      eapply Forall_impl; [| exact Hy]. unfold key_le. intros; lia.
Qed.

Lemma sort_sorted (l : list A) : StronglySorted (key_le key) (sort lt l).
Proof.
  induction l as [| x l IH]; simpl; [constructor | apply insert_sorted, IH].
Qed.

End SortFacts.

Lemma sort_map {A B : Type} (ltA : A -> A -> bool) (ltB : B -> B -> bool)
    (f : B -> A) :
  (forall x y, ltA (f x) (f y) = ltB x y) ->
  forall l, sort ltA (map f l) = map f (sort ltB l).
Proof.
  intros H l. induction l as [| x l IH]; simpl; [reflexivity |].
  rewrite IH. generalize (sort ltB l) as m. intro m.
  induction m as [| y m IHm]; simpl; [reflexivity |].
  rewrite H. destruct (ltB y x); simpl; congruence.
Qed.

Lemma in_firstn {A : Type} (n : nat) (l : list A) (x : A) :
  In x (firstn n l) -> In x l.
Proof.
  intro H. rewrite <- (firstn_skipn n l). apply in_or_app. left. exact H.
Qed.

Lemma firstn_sorted {A : Type} (R : A -> A -> Prop) (n : nat) (l : list A) :
  StronglySorted R l -> StronglySorted R (firstn n l).
Proof.
  intro H. revert n. induction H as [| x l Hs IH Hx]; intros [| n]; simpl;
    try constructor.
  - apply IH.
  - rewrite Forall_forall in *. intros y Hy. apply Hx.
    eapply in_firstn; eauto.
Qed.

Lemma slice_to_firstn {A : Type} (n : Z) (l : list A) :
  exists k, slice_to n l = firstn k l.
Proof. unfold slice_to. destruct (0 <=? n)%Z; eauto. Qed.

Lemma slice_to_one {A : Type} (n : Z) (x : A) :
  (1 <= n)%Z -> slice_to n [x] = [x].
Proof.
  intro H. unfold slice_to.
  destruct (Z.leb_spec 0 n); [| lia].
  destruct (Z.to_nat n) eqn:E; [lia |]. simpl. rewrite firstn_nil. reflexivity.
Qed.

Lemma sorted_precedes {A : Type} (R : A -> A -> Prop) (l : list A) (x y : A) :
  StronglySorted R l -> Search.precedes x y l -> R x y.
Proof.
  intros Hs (l1 & l2 & l3 & ->).
  induction l1 as [| z l1 IH]; simpl in Hs.
  - apply StronglySorted_inv in Hs. destruct Hs as [_ Hx].
    rewrite Forall_forall in Hx. apply Hx.
    apply in_or_app. right. left. reflexivity.
  - apply StronglySorted_inv in Hs. destruct Hs as [Hs _]. auto.
Qed.

End PyListFacts.

(** ** The known-entity resolver *)

Module ResolverFacts.
Import Py PyList Search PyFacts PyListFacts Examples.

Lemma value_bind {A B : Type} (m : M A) (k : A -> M B) :
  value (bind m k) = value (k (value m)).
Proof.
  unfold value, bind. destruct m as [a l1]. simpl.
  destruct (k a). reflexivity.
Qed.

Lemma calls_bind {A B : Type} (m : M A) (k : A -> M B) :
  calls (bind m k) = calls m ++ calls (k (value m)).
Proof.
  unfold value, calls, bind. destruct m as [a l1]. simpl.
  destruct (k a). reflexivity.
Qed.

Lemma precedes_nil {A : Type} (x y : A) : ~ precedes x y [].
Proof. intros (l1 & l2 & l3 & H). destruct l1; discriminate. Qed.

Lemma confidence_order_sorted_ranked (l : list candidate) :
  StronglySorted
    (key_le (fun c => confidence_order (confidence c))) l ->
  well_ranked l.
Proof.
  intros Hs x y Hp. apply (sorted_precedes _ _ _ _ Hs) in Hp.
  unfold key_le in Hp.
  split; intros [Hx Hy]; rewrite Hx, Hy in Hp; vm_compute in Hp;
    apply Hp; reflexivity.
Qed.

(** The ranking of the web-search path puts the better tier first. *)
Lemma web_search_well_ranked (W : world) (college_name : str)
    (max_results : Z) :
  well_ranked (value (web_search W college_name max_results)).
Proof.
  unfold web_search. rewrite value_bind.
  destruct (negb (nonempty (value (provider_chain W _ max_results)))).
  - intros x y Hp. exfalso. exact (precedes_nil _ _ Hp).
  - unfold ret, value. cbn [fst].
    apply confidence_order_sorted_ranked.
    match goal with
    | |- context [slice_to ?n ?l] => destruct (slice_to_firstn n l) as [k ->]
    end.
    apply firstn_sorted, sort_sorted. reflexivity.
Qed.

(** C1.  With a catalogue that holds "anna university" and "university of
    madras chennai", the name "Anna University Chennai" is answered from the
    catalogue alone, and the fuzzy match of tier "medium" stands before the
    substring match of tier "high": the list is not ranked best first. *)
Theorem fuzzy_catalog_medium_before_high :
  let answer :=
    search_college_website (offline two_universities [])
      "Anna University Chennai" 5 false in
  value answer =
    [ mk_candidate "University of Madras" "https://www.unom.ac.in" "medium"
        (Some ("database" : str)) None None;
      mk_candidate "Anna University" "https://www.annauniv.edu" "high"
        (Some ("database" : str)) None None ] /\
  calls answer = [] /\
  ~ well_ranked (value answer).
Proof.
  assert (E : value (search_college_website (offline two_universities [])
                       "Anna University Chennai" 5 false) =
              [ mk_candidate "University of Madras" "https://www.unom.ac.in"
                  "medium" (Some ("database" : str)) None None;
                mk_candidate "Anna University" "https://www.annauniv.edu"
                  "high" (Some ("database" : str)) None None ])
    by (vm_compute; reflexivity).
  cbv zeta. split; [exact E | split; [vm_compute; reflexivity |]].
  rewrite E. intro H.
  destruct (H (mk_candidate "University of Madras" "https://www.unom.ac.in"
                 "medium" (Some ("database" : str)) None None)
              (mk_candidate "Anna University" "https://www.annauniv.edu"
                 "high" (Some ("database" : str)) None None)) as [H1 _].
  - exists [], [], []. reflexivity.
  - apply H1. split; reflexivity.
Qed.

Lemma nonempty_true {A : Type} (l : list A) : l <> [] -> nonempty l = true.
Proof. destruct l; [contradiction | reflexivity]. Qed.

(** C5 does not hold as stated: a catalogue entry without an address is not
    returned but sent to the web search, and a limit of zero returns
    nothing. *)
Lemma exact_catalog_match_not_always_returned :
  lookup (strip (lower "ABC College")) entry_without_url
    = Some (mk_college "ABC College" "") /\
  value (search_college_website (offline entry_without_url [])
           "ABC College" 5 false) = [] /\
  calls (search_college_website (offline entry_without_url [])
           "ABC College" 5 false) <> [] /\
  lookup (strip (lower "Anna University")) two_universities
    = Some (mk_college "Anna University" "https://www.annauniv.edu") /\
  value (search_college_website (offline two_universities [])
           "Anna University" 0 false) = [].
Proof.
  repeat split; try (vm_compute; reflexivity).
  vm_compute. discriminate.
Qed.

(** C5, amended.  When the trimmed, lower-case name is a key of the
    catalogue, the entry has a non-empty address and the limit is at least
    one, the resolver without forced web search returns exactly the one
    candidate of that entry, tier "high", with the address of the catalogue,
    and calls no search provider. *)
Theorem exact_catalog_match_returned (W : world) (college_name : str)
    (max_results : Z) (info : college_info) :
  lookup (strip (lower college_name)) (KNOWN_COLLEGES W) = Some info ->
  ci_url info <> [] ->
  (1 <= max_results)%Z ->
  search_college_website W college_name max_results false =
    ([ mk_candidate (ci_name info) (ci_url info) "high"
         (Some ("database" : str)) None None ], []).
Proof.
  intros Hk Hu Hm. unfold search_college_website, search_known_colleges.
  rewrite Hk. cbn [negb existsb filter orb].
  unfold has_url. cbn [url]. rewrite (nonempty_true _ Hu). cbn [orb].
  rewrite slice_to_one by exact Hm. reflexivity.
Qed.

Lemma exact_catalog_match_returned_witness :
  search_college_website (offline two_universities []) " Anna University " 5
    false =
    ([ mk_candidate "Anna University" "https://www.annauniv.edu" "high"
         (Some ("database" : str)) None None ], []).
Proof.
  apply (exact_catalog_match_returned (offline two_universities [])
           " Anna University " 5
           (mk_college "Anna University" "https://www.annauniv.edu")).
  - vm_compute. reflexivity.
  - discriminate.
  - lia.
Defined.

End ResolverFacts.

Module RegistryFacts.
Import Py PyList Search PyFacts PyListFacts Examples.

Lemma ugc_score_claimed (name_lower key : str) (found : nat) :
  ugc_score name_lower (significant_words name_lower) (Z.of_nat found) key =
  claimed_score name_lower found key.
Proof.
  unfold ugc_score, claimed_score, shared_tokens.
  destruct (startswith key name_lower); [reflexivity |].
  destruct (contains name_lower key); [reflexivity |].
  destruct (Z.ltb_spec (Z.of_nat found) 10), (Nat.leb_spec 10 found);
    try lia; reflexivity.
Qed.

Lemma fuzzy_ugc_scored (name_lower : str) (items : dict institution_info) :
  forall (acc : list candidate) (found : nat),
    fuzzy_ugc name_lower (significant_words name_lower) items acc
      (Z.of_nat found) =
    acc ++ map registry_candidate
             (filter (fun entry => (0 <? snd entry)%Z)
                (claimed_scores name_lower items found)).
Proof.
  induction items as [| [key info] rest IH]; intros acc found;
    cbn [fuzzy_ugc claimed_scores].
  - simpl. rewrite app_nil_r. reflexivity.
  - rewrite ugc_score_claimed.
    set (s := claimed_score name_lower found key).
    cbn [filter snd map].
    destruct (Z.ltb_spec 0 s) as [Hpos | Hneg].
    + replace (if (80 <=? s)%Z then (Z.of_nat found + 1)%Z
               else Z.of_nat found)
        with (Z.of_nat (if (80 <=? s)%Z then S found else found))
        by (destruct (80 <=? s)%Z; lia).
      rewrite IH. cbn [map]. rewrite <- app_assoc. reflexivity.
    + replace (80 <=? s)%Z with false by (symmetry; apply Z.leb_gt; lia).
      apply IH.
Qed.

Lemma fuzzy_known_none (name_lower : str) (items : dict college_info) :
  forallb (fun entry => negb (catalog_fuzzy name_lower (fst entry))) items
    = true ->
  forall acc,
    fuzzy_known name_lower (significant_words name_lower) items acc = acc.
Proof.
  induction items as [| [key info] rest IH]; intros H acc;
    cbn [fuzzy_known]; [reflexivity |].
  cbn [forallb fst] in H. apply andb_true_iff in H. destruct H as [Hk Hrest].
  apply negb_true_iff in Hk. unfold catalog_fuzzy, shared_tokens, len in Hk.
  apply orb_false_iff in Hk. destruct Hk as [Hc Ht]. rewrite Hc.
  apply Z.leb_gt in Ht.
  replace (2 <=? length (inter (significant_words name_lower)
                           (key_words key)))
    with false by (symmetry; apply Nat.leb_gt; lia).
  apply IH, Hrest.
Qed.

Lemma sorted_weaken {A : Type} (R R' : A -> A -> Prop) (l : list A) :
  (forall a b, R a b -> R' a b) -> StronglySorted R l -> StronglySorted R' l.
Proof.
  intros HR. induction 1 as [| x l Hs IH Hx]; constructor; [exact IH |].
  eapply Forall_impl; [| exact Hx]. intros a Ha. apply HR, Ha.
Qed.

Lemma score_desc_key (x y : candidate) :
  score_desc x y = (- score_of x <? - score_of y)%Z.
Proof.
  unfold score_desc.
  destruct (Z.ltb_spec (score_of y) (score_of x)),
           (Z.ltb_spec (- score_of x) (- score_of y)); lia || reflexivity.
Qed.

Lemma registry_scored_shape (name_lower : str)
    (registry : dict institution_info) :
  Forall (fun c => confidence c = ("medium" : str) /\ url c = [] /\
                   (0 < score_of c)%Z)
    (registry_scored name_lower registry).
Proof.
  unfold registry_scored. rewrite Forall_forall. intros c Hc.
  apply in_map_iff in Hc. destruct Hc as ([info s] & <- & Hin).
  apply filter_In in Hin. destruct Hin as [_ Hs]. simpl in Hs.
  apply Z.ltb_lt in Hs. repeat split. exact Hs.
Qed.

Lemma sorted_with {A : Type} (R : A -> A -> Prop) (P : A -> Prop)
    (l : list A) :
  Forall P l -> StronglySorted R l ->
  StronglySorted (fun a b => P a /\ P b /\ R a b) l.
Proof.
  intros HP. induction 1 as [| x l Hs IH Hx]; [constructor |].
  inversion HP as [| ? ? Px Pl]; subst.
  constructor; [apply IH, Pl |].
  rewrite Forall_forall in *. intros y Hy. auto.
Qed.

Lemma registry_scored_has_score (name_lower : str)
    (registry : dict institution_info) :
  Forall (fun c => exists s, score c = Some s)
    (registry_scored name_lower registry).
Proof.
  unfold registry_scored. rewrite Forall_forall. intros c Hc.
  apply in_map_iff in Hc. destruct Hc as ([info s] & <- & _).
  exists s. reflexivity.
Qed.

(** C6.  For a name and catalogue and registry keys written in ASCII: when
    the trimmed, lower-case name is no key of the catalogue, has no fuzzy
    match in it and is no key of the registry, the answer of the resolver is
    the first five entries of a ranking of the registry entries that scored.
    The ranking holds exactly the entries with a positive score under the
    rule 90 for a prefix, 80 for a substring, else 60 plus the number of
    shared tokens when two or more are shared and fewer than ten entries
    have reached 80 so far; every candidate in it carries its score, and no
    candidate stands before one with a higher score; each candidate has tier
    "medium" and an empty address. *)
Theorem registry_scan_top_five (W : world) (college_name : str) :
  is_ascii college_name = true ->
  Props.ascii_keys (KNOWN_COLLEGES W) = true ->
  Props.ascii_keys (ALL_INSTITUTIONS W) = true ->
  lookup (strip (lower college_name)) (KNOWN_COLLEGES W) = None ->
  forallb (fun entry =>
             negb (catalog_fuzzy (strip (lower college_name)) (fst entry)))
    (KNOWN_COLLEGES W) = true ->
  lookup (strip (lower college_name)) (ALL_INSTITUTIONS W) = None ->
  exists ranking,
    Permutation ranking
      (registry_scored (strip (lower college_name)) (ALL_INSTITUTIONS W)) /\
    StronglySorted
      (fun a b => exists sa sb,
                    score a = Some sa /\ score b = Some sb /\ (sb <= sa)%Z)
      ranking /\
    search_known_colleges W college_name = firstn 5 ranking /\
    length (search_known_colleges W college_name) <= 5 /\
    Forall (fun c => confidence c = ("medium" : str) /\ url c = [])
      ranking.
Proof.
  intros _ _ _ Hk Hf Hr.
  set (name_lower := strip (lower college_name)) in *.
  set (scored := registry_scored name_lower (ALL_INSTITUTIONS W)).
  assert (Hans : search_known_colleges W college_name =
                 firstn 5 (sort score_desc scored)).
  { unfold search_known_colleges. fold name_lower. rewrite Hk, Hr.
    rewrite (fuzzy_known_none _ _ Hf). cbn [nonempty].
    change 0%Z with (Z.of_nat 0).
    rewrite (fuzzy_ugc_scored name_lower (ALL_INSTITUTIONS W) [] 0).
    cbn [app]. fold (registry_scored name_lower (ALL_INSTITUTIONS W)).
    fold scored. destruct scored; reflexivity. }
  exists (sort score_desc scored). repeat split.
  - apply sort_perm.
  - assert (Hsc : Forall (fun c => exists s, score c = Some s)
                    (sort score_desc scored)).
    { assert (H := registry_scored_has_score name_lower (ALL_INSTITUTIONS W)).
      fold scored in H. rewrite Forall_forall in *. intros c Hc.
      apply H. exact (Permutation_in _ (sort_perm score_desc scored) Hc). }
    eapply sorted_weaken;
      [| apply (sorted_with _ _ _ Hsc
                  (sort_sorted score_desc (fun c => (- score_of c)%Z)
                     score_desc_key scored))].
    unfold key_le, score_of. intros a b ((sa & Ha) & (sb & Hb) & Hab).
    rewrite Ha, Hb in Hab. exists sa, sb. repeat split; try assumption. lia.
  - exact Hans.
  - rewrite Hans, length_firstn. lia.
  - assert (Hs := registry_scored_shape name_lower (ALL_INSTITUTIONS W)).
    fold scored in Hs. rewrite Forall_forall in *. intros c Hc.
    apply (Permutation_in _ (sort_perm score_desc scored)) in Hc.
    destruct (Hs c Hc) as (H1 & H2 & _). auto.
Qed.

Lemma registry_scan_top_five_witness :
  exists ranking,
    Permutation ranking
      (registry_scored (strip (lower "ABC Engineering College"))
         small_registry) /\
    StronglySorted
      (fun a b => exists sa sb,
                    score a = Some sa /\ score b = Some sb /\ (sb <= sa)%Z)
      ranking /\
    search_known_colleges (offline two_universities small_registry)
      "ABC Engineering College" = firstn 5 ranking /\
    length (search_known_colleges (offline two_universities small_registry)
              "ABC Engineering College") <= 5 /\
    Forall (fun c => confidence c = ("medium" : str) /\ url c = [])
      ranking.
Proof.
  apply (registry_scan_top_five (offline two_universities small_registry)
           "ABC Engineering College"); vm_compute; reflexivity.
Defined.

End RegistryFacts.

(** ** Removing "www." keeps every excluded name in place *)

Module ExclusionFacts.
Import Py PyList Search PyFacts.

Lemma startswith_spec (s p : str) :
  startswith s p = true <-> exists r, s = p ++ r.
Proof.
  revert s. induction p as [| x p IH]; intro s.
  - split; [intros _; exists s; reflexivity | destruct s; reflexivity].
  - destruct s as [| y s]; simpl.
    + split; [discriminate | intros [r H]; discriminate].
    + rewrite andb_true_iff, Ascii.eqb_eq, IH. split.
      * intros [-> [r ->]]. eauto.
      * intros [r H]. injection H as -> ->. eauto.
Qed.

Lemma common_prefix_comparable (x a b : str) :
  startswith x a = true -> startswith x b = true -> comparable a b = true.
Proof.
  revert x b. induction a as [| c a IH]; intros x b Ha Hb.
  - unfold comparable. destruct b; reflexivity.
  - destruct b as [| d b]; [reflexivity |].
    destruct x as [| y x]; [discriminate |].
    simpl in Ha, Hb. apply andb_true_iff in Ha, Hb.
    destruct Ha as [E1 Ha], Hb as [E2 Hb].
    apply Ascii.eqb_eq in E1, E2. subst c d.
    specialize (IH x b Ha Hb). unfold comparable in *. simpl.
    rewrite Ascii.eqb_refl. exact IH.
Qed.

Lemma excluded_www_safe : forallb www_safe EXCLUDED_DOMAINS = true.
Proof. vm_compute. reflexivity. Qed.

Lemma replace_www_hit (t : str) : replace_www (www ++ t) = replace_www t.
Proof. reflexivity. Qed.

Lemma replace_www_miss (c : ascii) (t : str) :
  startswith (c :: t) www = false ->
  replace_www (c :: t) = c :: replace_www t.
Proof.
  intro H. destruct t as [| c2 [| c3 [| c4 t4]]]; try reflexivity.
  cbn [replace_www].
  destruct (str_eqb [c; c2; c3; c4] "www.") eqn:E; [| reflexivity].
  apply str_eqb_eq in E. cbv in E. injection E as -> -> -> ->.
  discriminate H.
Qed.

Lemma lower_www (t : str) : lower (www ++ t) = www ++ lower t.
Proof. reflexivity. Qed.

Lemma www_or_not (s : str) :
  (exists t, s = www ++ t) \/ startswith s www = false.
Proof.
  destruct (startswith s www) eqn:E; [left | right; reflexivity].
  apply startswith_spec, E.
Qed.

Lemma prefix_survives (e : str) :
  clear_inside e = true ->
  forall s, startswith (lower s) e = true ->
            startswith (lower (replace_www s)) e = true.
Proof.
  induction e as [| x e IH]; intros Hc s Hs; [reflexivity |].
  cbn [clear_inside] in Hc. apply andb_true_iff in Hc.
  destruct Hc as [Hx He]. apply negb_true_iff in Hx.
  destruct s as [| c t]; [discriminate |].
  destruct (www_or_not (c :: t)) as [[t4 E] | Hmiss].
  - rewrite E, lower_www in Hs.
    assert (Hw : startswith (www ++ lower t4) www = true)
      by (apply startswith_spec; eauto).
    rewrite (common_prefix_comparable _ _ _ Hs Hw) in Hx. discriminate.
  - rewrite (replace_www_miss _ _ Hmiss).
    cbn [lower map startswith] in *. apply andb_true_iff in Hs.
    destruct Hs as [E Hs]. rewrite E. apply (IH He t Hs).
Qed.

Lemma contains_cons (e : str) (c : ascii) (s : str) :
  contains e (c :: s) = startswith (c :: s) e || contains e s.
Proof. reflexivity. Qed.

Lemma occurrence_past (e w x : str) :
  clear_of e w = true ->
  contains e (w ++ x) = true -> contains e x = true.
Proof.
  induction w as [| c w IH]; intros Hc Hs; [exact Hs |].
  cbn [clear_of] in Hc. apply andb_true_iff in Hc. destruct Hc as [Hw Hc].
  apply negb_true_iff in Hw.
  change ((c :: w) ++ x) with (c :: w ++ x) in Hs.
  rewrite contains_cons in Hs. apply orb_true_iff in Hs.
  destruct Hs as [Hs | Hs]; [| exact (IH Hc Hs)].
  assert (Hp : startswith (c :: w ++ x) (c :: w) = true)
    by (apply startswith_spec; exists x; reflexivity).
  rewrite (common_prefix_comparable _ _ _ Hs Hp) in Hw. discriminate.
Qed.

Lemma substring_survives (e : str) :
  www_safe e = true ->
  forall n s, length s <= n ->
    contains e (lower s) = true ->
    contains e (lower (replace_www s)) = true.
Proof.
  intro Hsafe. unfold www_safe in Hsafe. apply andb_true_iff in Hsafe.
  destruct Hsafe as [Hin Hst].
  induction n as [| n IH]; intros s Hlen Hs.
  - destruct s; [exact Hs | simpl in Hlen; lia].
  - destruct s as [| c t]; [exact Hs |].
    destruct (www_or_not (c :: t)) as [[t4 E] | Hmiss].
    + rewrite E in *. rewrite replace_www_hit.
      apply IH; [unfold www in Hlen; simpl in Hlen; lia |].
      rewrite lower_www in Hs. exact (occurrence_past _ _ _ Hst Hs).
    + rewrite (replace_www_miss _ _ Hmiss).
      cbn [lower map] in *. rewrite contains_cons in *.
      apply orb_true_iff in Hs. apply orb_true_iff.
      destruct Hs as [Hs | Hs].
      * left. apply (prefix_survives e Hin (c :: t)) in Hs.
        rewrite (replace_www_miss _ _ Hmiss) in Hs. exact Hs.
      * right. apply IH; [simpl in Hlen; lia | exact Hs].
Qed.

(** A host that is clean once "www." is taken out was clean before. *)
Lemma excluded_without_www (domain : str) :
  is_excluded_domain (replace_www domain) = false ->
  is_excluded_domain domain = false.
Proof.
  intro H. destruct (is_excluded_domain domain) eqn:E; [| reflexivity].
  rewrite <- H. symmetry. unfold is_excluded_domain in *.
  apply existsb_exists in E. destruct E as (e & He & Hc).
  apply existsb_exists. exists e. split; [exact He |].
  apply (substring_survives e) with (n := length domain); auto.
  assert (Hall := excluded_www_safe). rewrite forallb_forall in Hall. auto.
Qed.

End ExclusionFacts.

(** ** What the search providers return *)

Module ProviderFacts.
Import Py PyList Search PyFacts PyListFacts ResolverFacts ExclusionFacts.
Import Examples.

Section Providers.
Variable W : world.

Local Notation "'clean_results'" :=
  (Forall (fun r => clean_root W (href r))).

Lemma clean_snoc (results : list search_result) (r : search_result) :
  clean_results results -> clean_root W (href r) ->
  clean_results (results ++ [r]).
Proof.
  intros H Hr. apply Forall_app. split; [exact H |].
  constructor; [exact Hr | constructor].
Qed.

Lemma keep_result_clean (results out : list search_result)
    (href0 title0 : str) :
  clean_results results ->
  keep_result W results href0 title0 = Some out ->
  clean_results out.
Proof.
  intros H. unfold keep_result.
  destruct (startswith href0 "http"); [| intros [= <-]; exact H].
  destruct (urlparse W href0) as [parsed |] eqn:Ep; [| discriminate].
  destruct (is_excluded_domain (netloc parsed)) eqn:Ex; cbn [negb];
    intros [= <-]; [exact H |].
  apply clean_snoc; [exact H |]. exists href0, parsed. auto.
Qed.

Lemma collect_clean (items : list (option (str * str))) (max_results : Z) :
  forall results out,
    clean_results results ->
    collect W items results max_results = Some out ->
    clean_results out.
Proof.
  induction items as [| item rest IH]; intros results out H;
    cbn [collect].
  - intros [= <-]. exact H.
  - destruct (match item with
              | Some (href0, title0) => keep_result W results href0 title0
              | None => Some results
              end) as [results' |] eqn:Ek; [| discriminate].
    assert (H' : clean_results results').
    { destruct item as [[href0 title0] |].
      - exact (keep_result_clean _ _ _ _ H Ek).
      - injection Ek as <-. exact H. }
    destruct (max_results <=? len results')%Z.
    + intros [= <-]. exact H'.
    + apply IH, H'.
Qed.

Lemma searxng_try_clean (instances : list str) (query : str)
    (max_results : Z) :
  clean_results (searxng_try W instances query max_results).
Proof.
  induction instances as [| instance rest IH]; cbn [searxng_try];
    [constructor |].
  destruct (searxng_get W instance query) as [items |]; [| exact IH].
  destruct (collect W (map Some items) [] max_results) as [[| r out] |] eqn:Ec;
    try exact IH.
  exact (collect_clean _ _ _ _ (Forall_nil _) Ec).
Qed.

Lemma searxng_clean (query : str) (max_results : Z) :
  clean_results (value (search_with_searxng W query max_results)).
Proof. apply searxng_try_clean. Qed.

Lemma startpage_clean (query : str) (max_results : Z) :
  clean_results (value (search_with_startpage W query max_results)).
Proof.
  unfold search_with_startpage, call, value. cbn [fst].
  destruct (startpage_post W query) as [items |]; [| constructor].
  destruct (collect W items [] max_results) eqn:Ec; [| constructor].
  exact (collect_clean _ _ _ _ (Forall_nil _) Ec).
Qed.

Lemma duckduckgo_lite_clean (query : str) (max_results : Z) :
  clean_results (value (search_with_duckduckgo_lite W query max_results)).
Proof.
  unfold search_with_duckduckgo_lite, call, value. cbn [fst].
  destruct (ddg_lite_post W query) as [items |]; [| constructor].
  destruct (collect W items [] max_results) eqn:Ec; [| constructor].
  exact (collect_clean _ _ _ _ (Forall_nil _) Ec).
Qed.

Lemma google_items_clean (anchors : list (str * str)) (max_results : Z) :
  forall seen results,
    clean_results results ->
    clean_results (google_items W anchors seen results max_results).
Proof.
  induction anchors as [| [href0 text] rest IH]; intros seen results H;
    cbn [google_items]; [exact H |].
  destruct (negb (startswith (unwrap_google href0) "http")); [apply IH, H |].
  destruct (urlparse W (unwrap_google href0)) as [parsed |] eqn:Ep;
    [| exact H].
  destruct (is_excluded_domain (replace_www (netloc parsed))) eqn:Ex;
    cbn [orb]; [apply IH, H |].
  destruct (mem (replace_www (netloc parsed)) seen); [apply IH, H |].
  destruct (contains ".edu" (replace_www (netloc parsed))
            || contains ".ac.in" (replace_www (netloc parsed))
            || contains "college" (replace_www (netloc parsed)));
    [| apply IH, H].
  match goal with
  | |- context [results ++ [?new]] =>
      assert (H' : clean_results (results ++ [new]))
  end.
  { apply clean_snoc; [exact H |].
    exists (unwrap_google href0), parsed.
    repeat split; [exact Ep |]. apply excluded_without_www, Ex. }
  match goal with
  | |- context [if ?b then _ else _] => destruct b
  end; [exact H' | apply IH, H'].
Qed.

Lemma google_clean (query : str) (max_results : Z) :
  clean_results (value (search_with_playwright_google W query max_results)).
Proof.
  unfold search_with_playwright_google, call, value. cbn [fst].
  destruct (google_page W query) as [anchors |]; [| constructor].
  apply google_items_clean. constructor.
Qed.

Lemma provider_chain_clean (query : str) (max_results : Z) :
  clean_results (value (provider_chain W query max_results)).
Proof.
  unfold provider_chain. rewrite !value_bind.
  repeat match goal with
         | |- context [if nonempty ?l then _ else _] =>
             let E := fresh "E" in destruct (nonempty l) eqn:E
         end;
    first [ apply searxng_clean | apply startpage_clean
          | apply duckduckgo_lite_clean | apply google_clean ].
Qed.

(** The second parse inside [get_domain_confidence] gives the confidence
    the loop computes from the parse it already holds. *)
Lemma get_domain_confidence_parsed (url0 college_name : str)
    (parsed : url_parts) :
  urlparse W url0 = Some parsed ->
  get_domain_confidence W url0 college_name =
    Some (domain_confidence parsed college_name).
Proof. intro H. unfold get_domain_confidence. rewrite H. reflexivity. Qed.

Lemma build_candidates_web (results : list search_result)
    (college_name : str) (max_results : Z) :
  clean_results results ->
  forall seen candidates,
    Forall (web_candidate W) candidates ->
    Forall (web_candidate W)
      (build_candidates W results seen candidates college_name max_results).
Proof.
  induction 1 as [| r results Hr Hrest IH]; intros seen candidates Hc;
    cbn [build_candidates]; [exact Hc |].
  destruct (negb (nonempty (href r))); [apply IH, Hc |].
  destruct (urlparse W (href r)) as [parsed |]; [| apply IH, Hc].
  destruct (negb (nonempty (lower (netloc parsed)))); [apply IH, Hc |].
  match goal with
  | |- context [if mem ?b seen then _ else _] => destruct (mem b seen)
  end; [apply IH, Hc |].
  match goal with
  | |- context [candidates ++ [?c]] =>
      assert (Hc' : Forall (web_candidate W) (candidates ++ [c]))
  end.
  { apply Forall_app. split; [exact Hc |].
    constructor; [| constructor]. split; [reflexivity | exact Hr]. }
  match goal with
  | |- context [if (max_results <=? ?n)%Z then _ else _] =>
      destruct (max_results <=? n)%Z
  end; [exact Hc' | apply IH, Hc'].
Qed.

Lemma web_search_web (college_name : str) (max_results : Z) :
  Forall (web_candidate W) (value (web_search W college_name max_results)).
Proof.
  unfold web_search. rewrite value_bind.
  match goal with
  | |- context [if ?b then _ else _] => destruct b
  end; [constructor |].
  unfold ret, value. cbn [fst].
  match goal with
  | |- context [slice_to ?n ?l] => destruct (slice_to_firstn n l) as [k ->]
  end.
  rewrite Forall_forall. intros c Hc. apply in_firstn in Hc.
  apply (Permutation_in _ (sort_perm _ _)) in Hc. revert c Hc.
  rewrite <- Forall_forall.
  apply build_candidates_web; [apply provider_chain_clean | constructor].
Qed.

Lemma fuzzy_known_sourced (name_lower : str) (query_words : list str)
    (items : dict college_info) :
  forall matches,
    Forall (fun c => source c <> None) matches ->
    Forall (fun c => source c <> None)
      (fuzzy_known name_lower query_words items matches).
Proof.
  induction items as [| [key info] rest IH]; intros matches H;
    cbn [fuzzy_known]; [exact H |].
  repeat match goal with
         | |- context [if ?b then _ else _] => destruct b
         end;
    apply IH; try exact H;
    (apply Forall_app; split; [exact H |]);
    (constructor; [discriminate | constructor]).
Qed.

Lemma fuzzy_ugc_sourced (name_lower : str) (query_words : list str)
    (items : dict institution_info) :
  forall matches current_matches,
    Forall (fun c => source c <> None) matches ->
    Forall (fun c => source c <> None)
      (fuzzy_ugc name_lower query_words items matches current_matches).
Proof.
  induction items as [| [key info] rest IH]; intros matches cm H;
    cbn [fuzzy_ugc]; [exact H |].
  destruct (0 <? ugc_score name_lower query_words cm key)%Z;
    apply IH; try exact H.
  apply Forall_app; split; [exact H |].
  constructor; [discriminate | constructor].
Qed.

Lemma Forall_firstn_sort {A : Type} (P : A -> Prop) (lt : A -> A -> bool)
    (n : nat) (l : list A) :
  Forall P l -> Forall P (firstn n (sort lt l)).
Proof.
  rewrite !Forall_forall. intros H x Hx. apply in_firstn in Hx.
  apply (Permutation_in _ (sort_perm _ _)) in Hx. auto.
Qed.

Lemma known_colleges_sourced (college_name : str) :
  Forall (fun c => source c <> None) (search_known_colleges W college_name).
Proof.
  unfold search_known_colleges.
  destruct (lookup _ (KNOWN_COLLEGES W));
    [constructor; [discriminate | constructor] |].
  destruct (lookup _ (ALL_INSTITUTIONS W));
    [constructor; [discriminate | constructor] |].
  match goal with
  | |- context [if nonempty ?l then _ else _] =>
      assert (Hk : Forall (fun c => source c <> None) l)
        by (apply fuzzy_known_sourced; constructor);
      destruct (nonempty l)
  end.
  - apply Forall_firstn_sort, Hk.
  - match goal with
    | |- context [if nonempty ?l then _ else _] =>
        assert (Hu : Forall (fun c => source c <> None) l)
          by (apply fuzzy_ugc_sourced; constructor);
        destruct (nonempty l)
    end; [| exact Hk].
    apply Forall_app. split; [exact Hk | apply Forall_firstn_sort, Hu].
Qed.

Lemma resolve_web_candidates (college_name : str) (max_results : Z)
    (force_web_search : bool) (c : candidate) :
  In c (value (search_college_website W college_name max_results
                 force_web_search)) ->
  source c = None ->
  clean_root W (url c).
Proof.
  intros Hin Hsrc.
  assert (Hweb : forall n m, In c (value (web_search W n m)) ->
                             clean_root W (url c)).
  { intros n m H. assert (Hall := web_search_web n m).
    rewrite Forall_forall in Hall. apply (Hall c H). }
  unfold search_college_website in Hin.
  destruct force_web_search; cbn [negb] in Hin; [eauto |].
  destruct (existsb has_url (search_known_colleges W college_name)).
  - exfalso. unfold ret, value in Hin. cbn [fst] in Hin.
    destruct (slice_to_firstn max_results
                (filter has_url (search_known_colleges W college_name)))
      as [k Ek].
    rewrite Ek in Hin. apply in_firstn, filter_In in Hin.
    destruct Hin as [Hin _].
    assert (Hall := known_colleges_sourced college_name).
    rewrite Forall_forall in Hall. exact (Hall c Hin Hsrc).
  - destruct (search_known_colleges W college_name) as [| best rest];
      [eauto |].
    destruct (match source best with
              | Some s => str_eqb s "ugc_database"
              | None => false
              end); eauto.
Qed.

End Providers.

End ProviderFacts.

Module ResolveClaims.
Import Py PyList Search PyFacts PyListFacts ResolverFacts ExclusionFacts.
Import ProviderFacts Examples Props.

(** *** Where a result link comes from *)

Section Roots.
Variable W : world.

Lemma keep_result_rooted (links : str -> Prop)
    (results out : list search_result) (href0 title0 : str) :
  Forall (fun r => rooted W links (href r)) results ->
  links href0 ->
  keep_result W results href0 title0 = Some out ->
  Forall (fun r => rooted W links (href r)) out.
Proof.
  intros H Hl. unfold keep_result.
  destruct (startswith href0 "http") eqn:Eh; [| intros [= <-]; exact H].
  destruct (urlparse W href0) as [parsed |] eqn:Ep; [| discriminate].
  destruct (is_excluded_domain (netloc parsed)) eqn:Ex; cbn [negb];
    intros [= <-]; [exact H |].
  apply Forall_app. split; [exact H |].
  constructor; [| constructor]. exists href0, parsed.
  repeat split; assumption.
Qed.

Lemma collect_rooted (links : str -> Prop)
    (items : list (option (str * str))) (max_results : Z) :
  (forall raw title, In (Some (raw, title)) items -> links raw) ->
  forall results out,
    Forall (fun r => rooted W links (href r)) results ->
    collect W items results max_results = Some out ->
    Forall (fun r => rooted W links (href r)) out.
Proof.
  induction items as [| item rest IH]; intros Hl results out H;
    cbn [collect].
  - intros [= <-]. exact H.
  - destruct (match item with
              | Some (href0, title0) => keep_result W results href0 title0
              | None => Some results
              end) as [results' |] eqn:Ek; [| discriminate].
    assert (H' : Forall (fun r => rooted W links (href r)) results').
    { destruct item as [[href0 title0] |].
      - eapply keep_result_rooted; [exact H | | exact Ek].
        apply (Hl href0 title0). left. reflexivity.
      - injection Ek as <-. exact H. }
    destruct (max_results <=? len results')%Z.
    + intros [= <-]. exact H'.
    + apply IH; [| exact H'].
      intros raw title0 Hin. apply (Hl raw title0). right. exact Hin.
Qed.

Lemma searxng_try_rooted (query : str) (max_results : Z)
    (instances : list str) :
  incl instances searxng_instances ->
  Forall (fun r => kept_root W SearXNG query (href r))
    (searxng_try W instances query max_results).
Proof.
  induction instances as [| instance rest IH]; intro Hincl;
    cbn [searxng_try]; [constructor |].
  assert (Hrest : Forall (fun r => kept_root W SearXNG query (href r))
                    (searxng_try W rest query max_results)).
  { apply IH. intros x Hx. apply Hincl. right. exact Hx. }
  destruct (searxng_get W instance query) as [items |] eqn:Eg;
    [| exact Hrest].
  destruct (collect W (map Some items) [] max_results) as [[| r out] |] eqn:Ec;
    try exact Hrest.
  apply (collect_rooted (answered W SearXNG query) (map Some items)
           max_results) with (results := []); [| constructor | exact Ec].
  intros raw title0 Hin. apply in_map_iff in Hin.
  destruct Hin as ([raw' title'] & [= -> ->] & Hin).
  exists instance, items, title0. repeat split; try assumption.
  apply Hincl. left. reflexivity.
Qed.

Lemma searxng_rooted (query : str) (max_results : Z) :
  Forall (fun r => kept_root W SearXNG query (href r))
    (value (search_with_searxng W query max_results)).
Proof. apply searxng_try_rooted, incl_refl. Qed.

Lemma startpage_rooted (query : str) (max_results : Z) :
  Forall (fun r => kept_root W Startpage query (href r))
    (value (search_with_startpage W query max_results)).
Proof.
  unfold search_with_startpage, call, value. cbn [fst].
  destruct (startpage_post W query) as [items |] eqn:Ep; [| constructor].
  destruct (collect W items [] max_results) eqn:Ec; [| constructor].
  apply (collect_rooted (answered W Startpage query) items max_results)
    with (results := []); [| constructor | exact Ec].
  intros raw title0 Hin. exists items, title0. auto.
Qed.

Lemma duckduckgo_lite_rooted (query : str) (max_results : Z) :
  Forall (fun r => kept_root W DuckDuckGoLite query (href r))
    (value (search_with_duckduckgo_lite W query max_results)).
Proof.
  unfold search_with_duckduckgo_lite, call, value. cbn [fst].
  destruct (ddg_lite_post W query) as [items |] eqn:Ep; [| constructor].
  destruct (collect W items [] max_results) eqn:Ec; [| constructor].
  apply (collect_rooted (answered W DuckDuckGoLite query) items max_results)
    with (results := []); [| constructor | exact Ec].
  intros raw title0 Hin. exists items, title0. auto.
Qed.

Lemma google_items_rooted (query : str) (page : list (str * str))
    (max_results : Z) (anchors : list (str * str)) :
  google_page W query = Some page ->
  incl anchors page ->
  forall seen results,
    Forall (fun r => kept_root W PlaywrightGoogle query (href r)) results ->
    Forall (fun r => kept_root W PlaywrightGoogle query (href r))
      (google_items W anchors seen results max_results).
Proof.
  intro Hpage.
  induction anchors as [| [href0 text] rest IH]; intros Hincl seen results H;
    cbn [google_items]; [exact H |].
  assert (Hrest : incl rest page).
  { intros x Hx. apply Hincl. right. exact Hx. }
  destruct (startswith (unwrap_google href0) "http") eqn:Eh; cbn [negb];
    [| apply IH; assumption].
  destruct (urlparse W (unwrap_google href0)) as [parsed |] eqn:Ep;
    [| exact H].
  destruct (is_excluded_domain (replace_www (netloc parsed))) eqn:Ex;
    cbn [orb]; [apply IH; assumption |].
  destruct (mem (replace_www (netloc parsed)) seen); [apply IH; assumption |].
  destruct (contains ".edu" (replace_www (netloc parsed))
            || contains ".ac.in" (replace_www (netloc parsed))
            || contains "college" (replace_www (netloc parsed)));
    [| apply IH; assumption].
  match goal with
  | |- context [results ++ [?new]] =>
      assert (H' : Forall (fun r => kept_root W PlaywrightGoogle query
                                      (href r)) (results ++ [new]))
  end.
  { apply Forall_app. split; [exact H |]. constructor; [| constructor].
    exists (unwrap_google href0), parsed.
    split; [| repeat split; try assumption].
    - exists page, href0, text. repeat split; [exact Hpage |].
      apply Hincl. left. reflexivity.
    - apply excluded_without_www, Ex. }
  match goal with
  | |- context [if ?b then _ else _] => destruct b
  end; [exact H' | apply IH; assumption].
Qed.

Lemma google_rooted (query : str) (max_results : Z) :
  Forall (fun r => kept_root W PlaywrightGoogle query (href r))
    (value (search_with_playwright_google W query max_results)).
Proof.
  unfold search_with_playwright_google, call, value. cbn [fst].
  destruct (google_page W query) as [anchors |] eqn:Ep; [| constructor].
  apply (google_items_rooted query anchors max_results anchors Ep);
    [apply incl_refl | constructor].
Qed.

Lemma query_results_rooted (query : str) :
  Forall (fun r => kept_root W DuckDuckGoLite query (href r) \/
                   kept_root W SearXNG query (href r))
    (value (Scraper.query_results W query)).
Proof.
  unfold Scraper.query_results. rewrite value_bind.
  destruct (nonempty (value (search_with_duckduckgo_lite W query 3))).
  - eapply Forall_impl; [| apply (duckduckgo_lite_rooted query 3)].
    intros r Hr. left. exact Hr.
  - eapply Forall_impl; [| apply (searxng_rooted query 3)].
    intros r Hr. right. exact Hr.
Qed.

Lemma provider_chain_rooted (query : str) (max_results : Z) :
  Forall (fun r => exists p, kept_root W p query (href r))
    (value (provider_chain W query max_results)).
Proof.
  unfold provider_chain. rewrite !value_bind.
  repeat match goal with
         | |- context [if nonempty ?l then _ else _] =>
             let E := fresh "E" in destruct (nonempty l) eqn:E
         end;
    (eapply Forall_impl;
     [| first [ apply searxng_rooted | apply startpage_rooted
              | apply duckduckgo_lite_rooted | apply google_rooted ]]);
    intros r Hr; eexists; exact Hr.
Qed.

Lemma build_candidates_hrefs (college_name : str) (max_results : Z)
    (results : list search_result) (c : candidate) :
  forall seen candidates,
    In c (build_candidates W results seen candidates college_name
            max_results) ->
    In c candidates \/ In (url c) (map href results).
Proof.
  induction results as [| r results IH]; intros seen candidates;
    cbn [build_candidates]; [auto |].
  assert (Hskip : forall seen',
            In c (build_candidates W results seen' candidates college_name
                    max_results) ->
            In c candidates \/ In (url c) (map href (r :: results))).
  { intros seen' H. destruct (IH _ _ H) as [H1 | H1]; [left; exact H1 |].
    right. right. exact H1. }
  destruct (negb (nonempty (href r))); [apply Hskip |].
  destruct (urlparse W (href r)) as [parsed |]; [| apply Hskip].
  destruct (negb (nonempty (lower (netloc parsed)))); [apply Hskip |].
  match goal with
  | |- context [if mem ?b seen then _ else _] => destruct (mem b seen)
  end; [apply Hskip |].
  assert (Hnew : forall new,
            url new = href r ->
            In c (candidates ++ [new]) ->
            In c candidates \/ In (url c) (map href (r :: results))).
  { intros new Hu H. apply in_app_or in H.
    destruct H as [H | [<- | []]]; [left; exact H |].
    right. left. symmetry. exact Hu. }
  match goal with
  | |- context [if (max_results <=? ?n)%Z then _ else _] =>
      destruct (max_results <=? n)%Z
  end.
  - apply Hnew. reflexivity.
  - intro H. destruct (IH _ _ H) as [H1 | H1].
    + eapply Hnew; [| exact H1]. reflexivity.
    + right. right. exact H1.
Qed.

Lemma web_search_rooted (college_name : str) (max_results : Z)
    (c : candidate) :
  In c (value (web_search W college_name max_results)) ->
  exists p,
    kept_root W p (college_name ++ (" official website" : str)) (url c).
Proof.
  unfold web_search. rewrite value_bind.
  match goal with
  | |- context [if ?b then _ else _] => destruct b
  end; [intros [] |].
  unfold ret, value. cbn [fst].
  match goal with
  | |- context [slice_to ?n ?l] => destruct (slice_to_firstn n l) as [k ->]
  end.
  intro Hc. apply in_firstn in Hc.
  apply (Permutation_in _ (sort_perm _ _)) in Hc.
  apply build_candidates_hrefs in Hc. destruct Hc as [[] | Hc].
  apply in_map_iff in Hc. destruct Hc as (r & Hr & Hin).
  assert (H := provider_chain_rooted
                 (college_name ++ (" official website" : str)) max_results).
  rewrite Forall_forall in H. rewrite <- Hr. apply H, Hin.
Qed.

Lemma resolve_rooted (college_name : str) (max_results : Z)
    (force_web_search : bool) (c : candidate) :
  In c (value (search_college_website W college_name max_results
                 force_web_search)) ->
  source c = None ->
  exists p query, kept_root W p query (url c).
Proof.
  intros Hin Hsrc.
  assert (Hweb : forall n m, In c (value (web_search W n m)) ->
                             exists p query, kept_root W p query (url c)).
  { intros n m H. destruct (web_search_rooted n m c H) as [p Hp]. eauto. }
  unfold search_college_website in Hin.
  destruct force_web_search; cbn [negb] in Hin; [eauto |].
  destruct (existsb has_url (search_known_colleges W college_name)).
  - exfalso. unfold ret, value in Hin. cbn [fst] in Hin.
    destruct (slice_to_firstn max_results
                (filter has_url (search_known_colleges W college_name)))
      as [k Ek].
    rewrite Ek in Hin. apply in_firstn, filter_In in Hin.
    destruct Hin as [Hin _].
    assert (Hall := known_colleges_sourced W college_name).
    rewrite Forall_forall in Hall. exact (Hall c Hin Hsrc).
  - destruct (search_known_colleges W college_name) as [| best rest];
      [eauto |].
    destruct (match source best with
              | Some s => str_eqb s "ugc_database"
              | None => false
              end); eauto.
Qed.

End Roots.

Lemma break_at_clear (stop : ascii -> bool) (s : str) :
  Forall (fun c => stop c = false) (fst (Url.break_at stop s)).
Proof.
  induction s as [| c s IH]; cbn [Url.break_at]; [constructor |].
  destruct (stop c) eqn:E; [constructor |].
  destruct (Url.break_at stop s) as [a b]. cbn [fst] in *.
  constructor; assumption.
Qed.

(** In the reading of [urlparse] used for the examples a network location
    holds no slash, question mark or hash: a site root has no path, query
    or fragment. *)
Lemma netloc_without_path (raw : str) (parsed : url_parts) :
  Url.urlparse raw = Some parsed ->
  Forall (fun c => Url.is_delim c = false) (netloc parsed).
Proof.
  unfold Url.urlparse.
  destruct (match Url.break_at (Ascii.eqb ":") raw with
            | (c :: before, Some after) =>
                if (is_upper c || is_lower c)
                   && forallb Url.is_scheme_char before
                then (lower (c :: before), after)
                else ([], raw)
            | _ => ([], raw)
            end) as [sch rest].
  set (loc := match rest with
              | c1 :: c2 :: rest' =>
                  if Ascii.eqb c1 "/" && Ascii.eqb c2 "/"
                  then fst (Url.break_at Url.is_delim rest')
                  else []
              | _ => []
              end).
  assert (Hloc : Forall (fun c => Url.is_delim c = false) loc).
  { unfold loc. destruct rest as [| c1 [| c2 rest']]; try constructor.
    destruct (Ascii.eqb c1 "/" && Ascii.eqb c2 "/"); [| constructor].
    apply break_at_clear. }
  destruct ((existsb (Ascii.eqb "[") loc && negb (existsb (Ascii.eqb "]") loc))
            || (existsb (Ascii.eqb "]") loc
                && negb (existsb (Ascii.eqb "[") loc))); [discriminate |].
  intros [= <-]. exact Hloc.
Qed.

Lemma port_answer_netloc_clear : netloc_clear MoreExamples.port_answer.
Proof. intros raw parsed H. exact (netloc_without_path raw parsed H). Qed.

(** C9 does not hold as stated: a provider keeps the network location of
    the link, not its host name.  Of a link with user information and a
    port both stay in the result; only the path and the query are gone. *)
Lemma provider_keeps_user_and_port :
  Url.urlparse "https://user:pw@b.edu:8080/admissions?year=2024" =
    Some (mk_parts "https" "user:pw@b.edu:8080") /\
  value (search_with_duckduckgo_lite MoreExamples.port_answer "B College" 5) =
    [mk_result "https://user:pw@b.edu:8080" "B College"].
Proof. split; vm_compute; reflexivity. Qed.

(** C9, amended.  Every result link that one of the four search providers
    returns for a query is made of a link its back end answered to that
    query: the link starts with "http", and the result is the scheme of the
    link, "://" and its network location as [urlparse] gives them, the
    network location holding no excluded name.  The same holds of the
    address of every candidate the resolver builds from a web search and of
    every link the aggregator fallback tests for its keywords.  With a
    parser that puts no slash, question mark or hash into a network
    location, nothing of the path, the query or the fragment of the link is
    left in a result. *)
Theorem providers_keep_scheme_and_netloc (W : world) :
  (forall query max_results r,
     In r (value (search_with_searxng W query max_results)) ->
     Props.kept_root W SearXNG query (href r)) /\
  (forall query max_results r,
     In r (value (search_with_startpage W query max_results)) ->
     Props.kept_root W Startpage query (href r)) /\
  (forall query max_results r,
     In r (value (search_with_duckduckgo_lite W query max_results)) ->
     Props.kept_root W DuckDuckGoLite query (href r)) /\
  (forall query max_results r,
     In r (value (search_with_playwright_google W query max_results)) ->
     Props.kept_root W PlaywrightGoogle query (href r)) /\
  (forall college_name max_results force_web_search c,
     In c (value (search_college_website W college_name max_results
                    force_web_search)) ->
     source c = None ->
     exists p query, Props.kept_root W p query (url c)) /\
  (forall query r,
     In r (value (Scraper.query_results W query)) ->
     Props.kept_root W DuckDuckGoLite query (href r) \/
     Props.kept_root W SearXNG query (href r)) /\
  (Props.netloc_clear W ->
   forall p query u,
     Props.kept_root W p query u ->
     exists sch loc,
       u = sch ++ ("://" : str) ++ loc /\
       Forall (fun c => Url.is_delim c = false) loc).
Proof.
  split; [| split; [| split; [| split; [| split; [| split]]]]].
  - intros q m r Hr.
    exact (proj1 (Forall_forall _ _) (searxng_rooted W q m) r Hr).
  - intros q m r Hr.
    exact (proj1 (Forall_forall _ _) (startpage_rooted W q m) r Hr).
  - intros q m r Hr.
    exact (proj1 (Forall_forall _ _) (duckduckgo_lite_rooted W q m) r Hr).
  - intros q m r Hr.
    exact (proj1 (Forall_forall _ _) (google_rooted W q m) r Hr).
  - intros n m f c Hin Hsrc. exact (resolve_rooted W n m f c Hin Hsrc).
  - intros q r Hr.
    exact (proj1 (Forall_forall _ _) (query_results_rooted W q) r Hr).
  - intros Hclear p q u (raw & parsed & _ & _ & Hp & _ & ->).
    exists (scheme parsed), (netloc parsed).
    split; [reflexivity | exact (Hclear raw parsed Hp)].
Qed.

(** C4 does not hold for the catalogue: an entry whose address is on an
    excluded host is returned as it stands. *)
Lemma catalog_candidate_on_excluded_host :
  exists c,
    value (search_college_website (offline entry_on_social_network [])
             "XYZ College" 5 false) = [c] /\
    Url.urlparse (url c) = Some (mk_parts "https" "www.facebook.com") /\
    is_excluded_domain "www.facebook.com" = true.
Proof.
  eexists. repeat split; vm_compute; reflexivity.
Qed.

(** C4, amended.  Every candidate that the resolver builds from a web
    search has as its address the scheme and network location of a parsed
    result link whose network location contains no entry of the exclusion
    list. *)
Theorem web_candidates_not_excluded (W : world) (college_name : str)
    (max_results : Z) (force_web_search : bool) (c : candidate) :
  In c (value (search_college_website W college_name max_results
                 force_web_search)) ->
  source c = None ->
  exists raw parsed,
    urlparse W raw = Some parsed /\
    url c = site_root parsed /\
    is_excluded_domain (netloc parsed) = false.
Proof. apply resolve_web_candidates. Qed.

Lemma web_candidates_not_excluded_witness :
  exists raw parsed,
    urlparse online raw = Some parsed /\
    ("https://www.abc.ac.in" : str) = site_root parsed /\
    is_excluded_domain (netloc parsed) = false.
Proof.
  apply (web_candidates_not_excluded online "ABC College of Arts" 5 true
           (mk_candidate "ABC College of Engineering" "https://www.abc.ac.in"
              "high" None None None)).
  - vm_compute. left. reflexivity.
  - reflexivity.
Defined.

End ResolveClaims.

(** ** The content extractor *)

Module ExtractFacts.
Import Py PyList Search Scraper PyFacts Examples.

Lemma reverse_rev (s : str) : reverse s = rev s.
Proof. unfold reverse. symmetry. apply rev_alt. Qed.

(** *** Stripping *)

Lemma lstrip_fixed (c : ascii) (s : str) :
  is_space c = false -> lstrip (c :: s) = c :: s.
Proof. intro H. simpl. rewrite H. reflexivity. Qed.

Lemma lstrip_head (s : str) :
  lstrip s = [] \/ exists c t, lstrip s = c :: t /\ is_space c = false.
Proof.
  induction s as [| c s IH]; simpl; [left; reflexivity |].
  destruct (is_space c) eqn:E; [exact IH | right; eauto].
Qed.

Lemma lstrip_idem (s : str) : lstrip (lstrip s) = lstrip s.
Proof.
  destruct (lstrip_head s) as [-> | (c & t & -> & H)]; [reflexivity |].
  apply lstrip_fixed, H.
Qed.

Lemma lstrip_snoc (a : str) (c : ascii) :
  is_space c = false -> lstrip (a ++ [c]) = lstrip a ++ [c].
Proof.
  intro H. induction a as [| x a IH]; simpl.
  - rewrite H. reflexivity.
  - destruct (is_space x); [exact IH | reflexivity].
Qed.

Lemma lstrip_Forall (P : ascii -> Prop) (s : str) :
  Forall P s -> Forall P (lstrip s).
Proof.
  induction 1 as [| c s Hc Hs IH]; simpl; [constructor |].
  destruct (is_space c); [exact IH | constructor; assumption].
Qed.

Lemma strip_rev (s : str) : strip s = rev (lstrip (rev (lstrip s))).
Proof. unfold strip, rstrip. rewrite !reverse_rev. reflexivity. Qed.

Lemma strip_trimmed (s : str) : trimmed s -> strip s = s.
Proof.
  intros [H1 H2]. rewrite strip_rev, H1, H2. apply rev_involutive.
Qed.

Lemma strip_is_trimmed (s : str) : trimmed (strip s).
Proof.
  rewrite strip_rev. split.
  - destruct (lstrip_head s) as [-> | (c & t & -> & H)]; [reflexivity |].
    cbn [rev]. rewrite (lstrip_snoc _ _ H), rev_app_distr. cbn [rev app].
    apply lstrip_fixed, H.
  - rewrite rev_involutive. apply lstrip_idem.
Qed.

Lemma strip_idem (s : str) : strip (strip s) = strip s.
Proof. apply strip_trimmed, strip_is_trimmed. Qed.

Lemma strip_Forall (P : ascii -> Prop) (s : str) :
  Forall P s -> Forall P (strip s).
Proof.
  intro H. rewrite strip_rev.
  apply Forall_rev, lstrip_Forall, Forall_rev, lstrip_Forall, H.
Qed.

(** *** Lines *)

Lemma return_is_break (c : ascii) :
  Ascii.eqb c "013" = true -> is_line_break c = true.
Proof. intro H. apply Ascii.eqb_eq in H. subst. reflexivity. Qed.

Lemma splitlines_aux_no_break (s : str) :
  forall cur, no_break cur -> Forall no_break (splitlines_aux cur s).
Proof.
  assert (Hrev : forall cur, no_break cur -> no_break (reverse cur)).
  { intros cur H. rewrite reverse_rev. apply Forall_rev, H. }
  assert (Hnil : no_break []) by constructor.
  induction s as [s IH] using (well_founded_induction
                                 (Wf_nat.well_founded_ltof _ (@length ascii))).
  intros cur Hcur. destruct s as [| c s]; cbn [splitlines_aux].
  - destruct cur; constructor; [apply Hrev, Hcur | constructor].
  - assert (Hs : forall cur', no_break cur' ->
                   Forall no_break (splitlines_aux cur' s)).
    { apply IH. unfold Wf_nat.ltof. simpl. lia. }
    destruct (Ascii.eqb c "013") eqn:Er.
    + destruct s as [| c' s'];
        [constructor; [apply Hrev, Hcur | apply Hs, Hnil] |].
      destruct (Ascii.eqb c' "010");
        (constructor; [apply Hrev, Hcur |]); [| apply Hs, Hnil].
      apply IH; [| exact Hnil]. unfold Wf_nat.ltof. simpl. lia.
    + destruct (is_line_break c) eqn:Eb.
      * constructor; [apply Hrev, Hcur | apply Hs, Hnil].
      * apply Hs. constructor; assumption.
Qed.

Lemma splitlines_aux_line (l : str) :
  no_break l ->
  forall cur s, splitlines_aux cur (l ++ s) = splitlines_aux (rev l ++ cur) s.
Proof.
  induction 1 as [| c l Hc Hl IH]; intros cur s; [reflexivity |].
  cbn [app splitlines_aux].
  destruct (Ascii.eqb c "013") eqn:Er;
    [apply return_is_break in Er; congruence |].
  rewrite Hc, IH. cbn [rev]. rewrite <- app_assoc. reflexivity.
Qed.

Lemma splitlines_aux_last (l cur : str) :
  no_break l -> l <> [] ->
  splitlines_aux cur l = [rev cur ++ l].
Proof.
  intros Hl Hne. rewrite <- (app_nil_r l) at 1.
  rewrite (splitlines_aux_line l Hl). cbn [splitlines_aux].
  destruct (rev l ++ cur) eqn:E.
  - apply app_eq_nil in E. destruct E as [E _].
    apply (f_equal (@rev ascii)) in E. rewrite rev_involutive in E.
    contradiction.
  - rewrite <- E, reverse_rev, rev_app_distr, rev_involutive. reflexivity.
Qed.

Lemma splitlines_join (ls : list str) :
  Forall (fun l => no_break l /\ l <> []) ls ->
  splitlines (join [newline] ls) = ls.
Proof.
  unfold splitlines.
  induction 1 as [| x ls [Hx Hne] Hls IH]; [reflexivity |].
  destruct ls as [| y ls'].
  - cbn [join]. rewrite (splitlines_aux_last x [] Hx Hne). reflexivity.
  - change (join [newline] (x :: y :: ls'))
      with (x ++ newline :: join [newline] (y :: ls')).
    rewrite (splitlines_aux_line x Hx). rewrite app_nil_r.
    cbn [splitlines_aux]. change (Ascii.eqb newline "013") with false.
    change (is_line_break newline) with true. cbv iota.
    rewrite IH.
    destruct (rev x) eqn:E.
    + apply (f_equal (@rev ascii)) in E. rewrite rev_involutive in E.
      contradiction.
    + rewrite <- E, reverse_rev, rev_involutive. reflexivity.
Qed.

(** *** Runs of newlines *)

Lemma not_newline (c : ascii) :
  is_line_break c = false -> Ascii.eqb c newline = false.
Proof.
  intro H. destruct (Ascii.eqb c newline) eqn:E; [| reflexivity].
  apply Ascii.eqb_eq in E. subst. discriminate.
Qed.

Lemma collapse_line (l : str) :
  no_break l -> l <> [] ->
  forall run s,
    collapse_newlines run (l ++ s) =
    emit_newlines run ++ l ++ collapse_newlines 0 s.
Proof.
  induction 1 as [| c l Hc Hl IH]; intros Hne run s; [contradiction |].
  cbn [app collapse_newlines]. rewrite (not_newline _ Hc).
  destruct l as [| c' l'].
  - reflexivity.
  - rewrite IH by discriminate. reflexivity.
Qed.

Lemma collapse_join (ls : list str) :
  Forall (fun l => no_break l /\ l <> []) ls ->
  forall run, run < 3 ->
    collapse_newlines run (join [newline] ls) =
    repeat newline run ++ join [newline] ls.
Proof.
  assert (Hemit : forall run, run < 3 -> emit_newlines run = repeat newline run).
  { intros run H. unfold emit_newlines.
    destruct (Nat.leb_spec 3 run); [lia | reflexivity]. }
  induction 1 as [| x ls [Hx Hne] Hls IH]; intros run Hrun.
  - cbn [join collapse_newlines]. rewrite app_nil_r. apply Hemit, Hrun.
  - destruct ls as [| y ls'].
    + cbn [join]. rewrite <- (app_nil_r x) at 1.
      rewrite (collapse_line x Hx Hne). cbn [collapse_newlines].
      rewrite (Hemit run Hrun), (Hemit 0) by lia.
      cbn [repeat]. rewrite app_nil_r. reflexivity.
    + change (join [newline] (x :: y :: ls'))
        with (x ++ newline :: join [newline] (y :: ls')).
      rewrite (collapse_line x Hx Hne). cbn [collapse_newlines].
      change (Ascii.eqb newline newline) with true. cbv iota.
      rewrite (IH 1) by lia. rewrite (Hemit run Hrun). reflexivity.
Qed.

(** *** The normalisation *)

Lemma clean_lines_good (text : str) : Forall good_line (clean_lines text).
Proof.
  unfold clean_lines. rewrite Forall_forall. intros l Hl.
  apply in_map_iff in Hl. destruct Hl as (l0 & <- & H0).
  apply filter_In in H0. destruct H0 as [Hin Hf].
  apply andb_true_iff in Hf. destruct Hf as [_ Hlen].
  apply Nat.ltb_lt in Hlen.
  assert (Hall := splitlines_aux_no_break text [] (Forall_nil _)).
  rewrite Forall_forall in Hall.
  repeat split.
  - apply strip_Forall, Hall, Hin.
  - apply strip_idem.
  - exact Hlen.
Qed.

Lemma good_lines_split (ls : list str) :
  Forall good_line ls -> Forall (fun l => no_break l /\ l <> []) ls.
Proof.
  apply Forall_impl. intros l (H1 & _ & H3). split; [exact H1 |].
  intros ->. simpl in H3. lia.
Qed.

Lemma clean_lines_join (ls : list str) :
  Forall good_line ls -> clean_lines (join [newline] ls) = ls.
Proof.
  intro H. unfold clean_lines.
  rewrite (splitlines_join ls (good_lines_split ls H)).
  induction H as [| l ls (H1 & H2 & H3) Hls IH]; [reflexivity |].
  cbn [filter]. rewrite H2.
  replace (3 <? length l) with true by (symmetry; apply Nat.ltb_lt, H3).
  replace (nonempty l) with true by (destruct l; [simpl in H3; lia | reflexivity]).
  cbn [andb map]. rewrite H2, IH. reflexivity.
Qed.

(** The text before the cut: the clean lines joined by newlines. *)
Lemma normalize_text_cases (text : str) :
  let joined := join [newline] (clean_lines text) in
  normalize_text text =
    if (CONTENT_LIMIT <? len joined)%Z
    then firstn (Z.to_nat CONTENT_LIMIT) joined ++ ("..." : str)
    else joined.
Proof.
  cbv zeta. unfold normalize_text.
  rewrite (collapse_join _ (good_lines_split _ (clean_lines_good text)) 0)
    by lia.
  reflexivity.
Qed.

Lemma normalize_text_bound (text : str) :
  (len (normalize_text text) <= CONTENT_LIMIT + 3)%Z.
Proof.
  rewrite normalize_text_cases. cbv zeta.
  set (joined := join [newline] (clean_lines text)).
  destruct (Z.ltb_spec CONTENT_LIMIT (len joined)) as [Hlong | Hshort].
  - unfold len in *. rewrite length_app, length_firstn.
    change (length (of_string "...")) with 3.
    unfold CONTENT_LIMIT in *. lia.
  - lia.
Qed.

Lemma normalize_text_idem (text : str) :
  (len (normalize_text text) <= CONTENT_LIMIT)%Z ->
  normalize_text (normalize_text text) = normalize_text text.
Proof.
  intro Hlen. rewrite (normalize_text_cases text) in *. cbv zeta in *.
  set (joined := join [newline] (clean_lines text)) in *.
  destruct (Z.ltb_spec CONTENT_LIMIT (len joined)) as [Hlong | Hshort].
  - exfalso. unfold len in *. rewrite length_app, length_firstn in Hlen.
    change (length (of_string "...")) with 3 in Hlen.
    unfold CONTENT_LIMIT in *. lia.
  - rewrite normalize_text_cases. cbv zeta.
    assert (Hsame : clean_lines joined = clean_lines text)
      by apply (clean_lines_join _ (clean_lines_good text)).
    rewrite Hsame. fold joined.
    destruct (Z.ltb_spec CONTENT_LIMIT (len joined)); [lia | reflexivity].
Qed.

(** C3.  The cut keeps [CONTENT_LIMIT] characters and then appends the
    mark "...", so a cut text has three characters more than the limit the
    source declares as the most characters of a page.  On a page whose
    first line of 11999 letters is followed by a second line, the output is
    that line, a newline and the mark, 12003 characters; extracting from
    that output again drops the mark, a line of three characters, and gives
    a different text. *)
Lemma extract_over_limit_and_not_idempotent :
  let E := plain_text_env unreachable in
  let out := extract_text_content E long_page in
  out = repeat "a"%char (Z.to_nat 11999) ++ [newline] ++ ("..." : str) /\
  len out = 12003%Z /\
  (CONTENT_LIMIT < len out)%Z /\
  extract_text_content E out <> out.
Proof.
  cbv zeta. split; [vm_compute; reflexivity |].
  split; [vm_compute; reflexivity |].
  split; [vm_compute; reflexivity |].
  intro H. apply (f_equal (@length ascii)) in H.
  vm_compute in H. discriminate H.
Qed.

End ExtractFacts.

(** ** The intent-routed scraper *)

Module ScraperFacts.
Import Py PyList Search Scraper PyFacts Examples.

Section Fallback.
Variable W : world.
Variable E : env.

Lemma try_portals_grows (discovered_urls : list str) (content : str) :
  length content <= length (try_portals E discovered_urls content).
Proof.
  induction discovered_urls as [| portal_url rest IH]; cbn [try_portals];
    [lia |].
  destruct (portal_visit E portal_url) as [portal_html |]; [| exact IH].
  destruct (Nat.ltb_spec (length content)
              (length (extract_text_content E portal_html))); [lia | exact IH].
Qed.

Lemma unreachable_thin (intent url : str) :
  page_goto E url = Failed -> thin W E intent url.
Proof.
  intros H content Hc. unfold scrape_with_discovery in Hc.
  rewrite H in Hc. discriminate.
Qed.

Lemma scan_portals_none (patterns : list str) (intent : str)
    (discovered_urls : list str) :
  (forall portal_url,
     In portal_url discovered_urls ->
     matches_intent patterns portal_url = true ->
     thin W E intent portal_url) ->
  scan_portals W E patterns intent discovered_urls = None.
Proof.
  induction discovered_urls as [| portal_url rest IH]; intro H;
    cbn [scan_portals]; [reflexivity |].
  assert (Hrest : scan_portals W E patterns intent rest = None).
  { apply IH. intros u Hu. apply H. right. exact Hu. }
  destruct (matches_intent patterns portal_url) eqn:Em; [| exact Hrest].
  destruct (scrape_with_discovery W E portal_url intent) as [content |] eqn:Es;
    [| exact Hrest].
  assert (Hthin : length content <= 300).
  { apply (H portal_url); [left; reflexivity | exact Em | exact Es]. }
  destruct (Nat.ltb_spec 300 (length content)); [lia | exact Hrest].
Qed.

Lemma probe_paths_none (base_url intent : str) (paths : list str) :
  (forall path,
     In path paths ->
     exists url, urljoin E base_url path = Some url /\ thin W E intent url) ->
  probe_paths W E base_url intent paths = Returns None.
Proof.
  induction paths as [| path rest IH]; intro H; cbn [probe_paths];
    [reflexivity |].
  assert (Hrest : probe_paths W E base_url intent rest = Returns None).
  { apply IH. intros p Hp. apply H. right. exact Hp. }
  destruct (H path (or_introl eq_refl)) as (url & -> & Hthin).
  destruct (scrape_with_discovery W E url intent) as [content |] eqn:Es;
    [| exact Hrest].
  specialize (Hthin content Es).
  destruct (Nat.ltb_spec 300 (length content)); [lia | exact Hrest].
Qed.

Lemma homepage_scan_none (base_url intent : str) (status : Z) (html : str) :
  page_goto E base_url = Loaded status html ->
  nothing_specific W E base_url intent html ->
  homepage_scan W E base_url intent = None.
Proof.
  intros Hgo [H1 _]. unfold homepage_scan. rewrite Hgo.
  destruct (discover_portal_urls W E html base_url intent) as [discovered |]
    eqn:Ed; [| reflexivity].
  apply scan_portals_none. intros u Hu Hm. exact (H1 discovered u eq_refl Hu Hm).
Qed.

Lemma base_page_content (base_url intent : str) (status : Z) (html : str) :
  page_goto E base_url = Loaded status html ->
  (status < 400)%Z ->
  100 <= length (extract_text_content E html) ->
  500 <= length (extract_text_content E html) \/
    discover_portal_urls W E html base_url intent <> None ->
  exists content,
    scrape_with_discovery W E base_url intent = Some content /\
    length (extract_text_content E html) <= length content.
Proof.
  intros Hgo Hst Hlen Hdisc. unfold scrape_with_discovery. rewrite Hgo.
  destruct (Z.leb_spec 400 status); [lia |].
  set (content := extract_text_content E html) in *.
  destruct (Nat.ltb_spec (length content) 500) as [Hlow | Hhigh].
  - destruct Hdisc as [Hbig | Hdisc]; [lia |].
    destruct (discover_portal_urls W E html base_url intent) as [urls |];
      [| contradiction].
    cbn [option_bind].
    assert (Hg := try_portals_grows urls content).
    destruct (Nat.ltb_spec (length (try_portals E urls content)) 100);
      [lia |].
    eexists. split; [reflexivity | exact Hg].
  - cbn [option_bind].
    destruct (Nat.ltb_spec (length content) 100); [lia |].
    exists content. split; [reflexivity | lia].
Qed.

End Fallback.

(** C8 does not hold as stated.  A homepage that is served with status 404
    and 250 characters of text, and a homepage served with status 200 whose
    255 characters of text come with a link that the URL parser rejects, both
    leave steps 1 and 2 without a text and have more than 200 characters of
    their own, and the scraper returns nothing for either. *)
Lemma base_page_not_always_returned :
  (let E := plain_text_env (homepage_only 404 short_page) in
   let W := offline [] [] in
   page_goto E college_site = Loaded 404 short_page /\
   nothing_specific W E college_site "fees" short_page /\
   200 < length (extract_text_content E short_page) /\
   scrape_for_intent W E college_site "fees" = Returns None) /\
  (let E := bad_link_env in
   let W := offline [] [] in
   page_goto E college_site = Loaded 200 page_with_bad_link /\
   nothing_specific W E college_site "fees" page_with_bad_link /\
   200 < length (extract_text_content E page_with_bad_link) /\
   scrape_for_intent W E college_site "fees" = Returns None).
Proof.
  assert (Hpaths :
    forall (W : world) (E : env),
      urljoin E = (fun base u => Some (base ++ u)) ->
      (forall path, In path (get_list "fees" INTENT_TO_PATHS) ->
                    page_goto E (college_site ++ path) = Failed) ->
      forall path,
        In path (get_list "fees" INTENT_TO_PATHS) ->
        exists url, urljoin E college_site path = Some url /\
                    thin W E "fees" url).
  { intros W E Hj Hg path Hin. rewrite Hj. eexists. split; [reflexivity |].
    apply unreachable_thin, Hg, Hin. }
  assert (Hfees : forall path, In path (get_list "fees" INTENT_TO_PATHS) ->
            path = ("/fees" : str) \/ path = ("/fee-structure" : str) \/
            path = ("/tuition" : str)).
  { intros path Hin. simpl in Hin. intuition auto. }
  split; cbv zeta.
  - split; [reflexivity |]. split; [split |].
    + intros discovered u Hd Hu. vm_compute in Hd. injection Hd as <-.
      destruct Hu.
    + apply Hpaths; [reflexivity |]. intros path Hin.
      destruct (Hfees path Hin) as [-> | [-> | ->]]; reflexivity.
    + split; [vm_compute; lia | vm_compute; reflexivity].
  - split; [reflexivity |]. split; [split |].
    + intros discovered u Hd. vm_compute in Hd. discriminate.
    + apply Hpaths; [reflexivity |]. intros path Hin.
      destruct (Hfees path Hin) as [-> | [-> | ->]]; reflexivity.
    + split; [vm_compute; lia | vm_compute; reflexivity].
Qed.

(** C8, amended.  When the base address loads with a status below 400,
    steps 1 and 2 find nothing, the text of the base page has more than 200
    characters, and either that text has 500 characters or more or portal
    discovery on the page does not raise, the scraper returns a record of
    type "general" whose source is the base address. *)
Theorem base_page_fallback (W : world) (E : env) (base_url intent : str)
    (status : Z) (html : str) :
  page_goto E base_url = Loaded status html ->
  (status < 400)%Z ->
  nothing_specific W E base_url intent html ->
  200 < length (extract_text_content E html) ->
  500 <= length (extract_text_content E html) \/
    discover_portal_urls W E html base_url intent <> None ->
  exists content,
    200 < length content /\
    scrape_for_intent W E base_url intent =
      Returns (Some (mk_page "general" content base_url)).
Proof.
  intros Hgo Hst Hnone Hlen Hdisc. unfold scrape_for_intent.
  rewrite (homepage_scan_none W E _ _ _ _ Hgo Hnone).
  rewrite (probe_paths_none W E _ _ _ (proj2 Hnone)).
  destruct (base_page_content W E base_url intent status html Hgo Hst
              ltac:(lia) Hdisc) as (content & -> & Hc).
  exists content. split; [lia |].
  destruct (Nat.ltb_spec 200 (length content)); [reflexivity | lia].
Qed.

Lemma base_page_fallback_witness :
  exists content,
    200 < length content /\
    scrape_for_intent (offline [] [])
      (plain_text_env (homepage_only 200 short_page)) college_site "fees" =
      Returns (Some (mk_page "general" content college_site)).
Proof.
  apply (base_page_fallback (offline [] [])
           (plain_text_env (homepage_only 200 short_page)) college_site "fees"
           200 short_page).
  - reflexivity.
  - lia.
  - split.
    + intros discovered u Hd Hu. vm_compute in Hd. injection Hd as <-.
      destruct Hu.
    + intros path Hin. eexists. split; [reflexivity |].
      apply unreachable_thin. simpl in Hin.
      destruct Hin as [<- | [<- | [<- | []]]]; reflexivity.
  - vm_compute. lia.
  - right. vm_compute. discriminate.
Defined.

End ScraperFacts.

(** ** The aggregator fallback *)

Module AggregatorFacts.
Import Py PyList Search Scraper PyFacts ResolverFacts Examples.

Section Aggregators.
Variable W : world.
Variable E : env.

Lemma query_results_calls (query : str) :
  calls (query_results W query) =
    (DuckDuckGoLite, query) ::
    (if nonempty (value (search_with_duckduckgo_lite W query 3)) then []
     else [(SearXNG, query)]).
Proof.
  unfold query_results. rewrite calls_bind.
  destruct (nonempty (value (search_with_duckduckgo_lite W query 3)));
    reflexivity.
Qed.

Lemma find_aggregator_url_value (intent : str) (queries : list str) :
  value (find_aggregator_url W intent queries) = first_hit W intent queries.
Proof.
  induction queries as [| query rest IH];
    cbn [find_aggregator_url first_hit]; [reflexivity |].
  rewrite value_bind.
  destruct (first_relevant intent (value (query_results W query)));
    [reflexivity | exact IH].
Qed.

Lemma find_aggregator_url_calls (intent : str) (queries : list str) :
  calls (find_aggregator_url W intent queries) =
    match queries with
    | [] => []
    | query :: rest =>
        calls (query_results W query) ++
        match first_relevant intent (value (query_results W query)) with
        | Some _ => []
        | None => calls (find_aggregator_url W intent rest)
        end
    end.
Proof.
  destruct queries as [| query rest]; cbn [find_aggregator_url];
    [reflexivity |].
  rewrite calls_bind.
  destruct (first_relevant intent (value (query_results W query)));
    reflexivity.
Qed.

(** The calls are those of the two providers on the given queries. *)
Lemma find_aggregator_url_providers (intent : str) (queries : list str) :
  Forall (fun ev => (fst ev = DuckDuckGoLite \/ fst ev = SearXNG) /\
                    In (snd ev) queries)
    (calls (find_aggregator_url W intent queries)).
Proof.
  induction queries as [| query rest IH];
    rewrite find_aggregator_url_calls; [constructor |].
  apply Forall_app. split.
  - rewrite query_results_calls.
    constructor; [cbn; auto |].
    destruct (nonempty _); constructor; [cbn; auto | constructor].
  - destruct (first_relevant intent _); [constructor |].
    eapply Forall_impl; [| exact IH]. cbn. intros ev [H1 H2]. auto.
Qed.

(** A call of the meta-search follows at once a call of the lightweight
    endpoint for the same query that returned nothing. *)
Lemma find_aggregator_url_order (intent : str) (queries : list str)
    (query : str) :
  In (SearXNG, query) (calls (find_aggregator_url W intent queries)) ->
  value (search_with_duckduckgo_lite W query 3) = [] /\
  exists before after,
    calls (find_aggregator_url W intent queries) =
      before ++ (DuckDuckGoLite, query) :: (SearXNG, query) :: after.
Proof.
  induction queries as [| q rest IH];
    rewrite find_aggregator_url_calls; [intros [] |].
  rewrite query_results_calls. intro Hin.
  apply in_app_or in Hin. destruct Hin as [Hin | Hin].
  - destruct (value (search_with_duckduckgo_lite W q 3)) eqn:Ed;
      cbn [nonempty] in *.
    + destruct Hin as [Hin | [Hin | []]]; [discriminate |].
      injection Hin as ->. split; [exact Ed |].
      exists []. eexists. cbn [app]. reflexivity.
    + destruct Hin as [Hin | []]. discriminate.
  - destruct (first_relevant intent (value (query_results W q)));
      [destruct Hin |].
    destruct (IH Hin) as (Hd & before & after & Hc). split; [exact Hd |].
    rewrite Hc.
    exists (((DuckDuckGoLite, q)
             :: (if nonempty (value (search_with_duckduckgo_lite W q 3))
                 then [] else [(SearXNG, q)])) ++ before), after.
    rewrite <- app_assoc. reflexivity.
Qed.

Lemma first_hit_none (intent : str) (queries : list str) :
  (forall query, In query queries ->
     first_relevant intent (value (query_results W query)) = None) ->
  first_hit W intent queries = None.
Proof.
  induction queries as [| query rest IH]; intro H; cbn [first_hit];
    [reflexivity |].
  rewrite (H query (or_introl eq_refl)). apply IH.
  intros q Hq. apply H. right. exact Hq.
Qed.

Lemma contains_spec (p s : str) :
  contains p s = true <-> exists a b, s = a ++ p ++ b.
Proof.
  induction s as [| c s IH]; cbn [contains].
  - rewrite orb_false_r, ExclusionFacts.startswith_spec. split.
    + intros [r H]. exists [], r. exact H.
    + intros (a & b & H). destruct a; [eauto | discriminate].
  - rewrite orb_true_iff, IH, ExclusionFacts.startswith_spec. split.
    + intros [[r H] | (a & b & ->)].
      * exists [], r. exact H.
      * exists (c :: a), b. reflexivity.
    + intros (a & b & H). destruct a as [| x a].
      * left. exists b. exact H.
      * injection H as -> ->. right. eauto.
Qed.

Lemma contains_lower (p s : str) :
  lower p = p -> contains p s = true -> contains p (lower s) = true.
Proof.
  intros Hp H. apply contains_spec in H. destruct H as (a & b & ->).
  apply contains_spec. exists (lower a), (lower b).
  rewrite !lower_app, Hp. reflexivity.
Qed.

(** A result link with a scheme of the web whose network location passed
    the exclusion filter never passes the aggregator test: the three
    aggregator names are on the exclusion list. *)
Lemma aggregator_links_dropped (intent : str) (parsed : url_parts) :
  scheme parsed = ("http" : str) \/ scheme parsed = ("https" : str) ->
  is_excluded_domain (netloc parsed) = false ->
  relevant_link intent (site_root parsed) = false.
Proof.
  intros Hs Hx. unfold relevant_link.
  replace (existsb (fun site => contains site (site_root parsed))
             AGGREGATOR_HOSTS) with false; [reflexivity |].
  symmetry. apply not_true_is_false. intro H.
  apply existsb_exists in H. destruct H as (site & Hin & Hc).
  assert (Hloc : contains site (netloc parsed) = true).
  { unfold site_root in Hc.
    destruct Hs as [Hs | Hs]; rewrite Hs, app_assoc in Hc;
      match type of Hc with
      | contains _ (?w ++ _) = true =>
          apply (ExclusionFacts.occurrence_past site w (netloc parsed))
      end;
      try exact Hc;
      cbn in Hin; destruct Hin as [<- | [<- | [<- | []]]];
      vm_compute; reflexivity. }
  assert (Hex : is_excluded_domain (netloc parsed) = true).
  { unfold is_excluded_domain. apply existsb_exists. exists site. split.
    - cbn in Hin. destruct Hin as [<- | [<- | [<- | []]]]; cbn; tauto.
    - apply contains_lower; [| exact Hloc].
      cbn in Hin. destruct Hin as [<- | [<- | [<- | []]]]; reflexivity. }
  congruence.
Qed.

End Aggregators.

(** C2 does not hold as stated: when both providers answer, the code asks
    the lightweight endpoint for each query and never reaches the
    meta-search, while the order of the specification asks the meta-search
    for each query. *)
Lemma lightweight_endpoint_asked_first :
  let E := plain_text_env unreachable in
  let queries := search_queries "ABC College" "fees" in
  calls (scrape_from_aggregators both_answer E "ABC College" "fees") =
    map (fun query => (DuckDuckGoLite, query)) queries /\
  calls (fetchAggregatorContent_spec both_answer E "ABC College" "fees") =
    map (fun query => (SearXNG, query)) queries /\
  scrape_from_aggregators both_answer E "ABC College" "fees" <>
  fetchAggregatorContent_spec both_answer E "ABC College" "fees".
Proof.
  cbv zeta. split; [vm_compute; reflexivity |].
  split; [vm_compute; reflexivity |].
  intro H. apply (f_equal (fun r => option_map fst (hd_error (snd r)))) in H.
  vm_compute in H. discriminate H.
Qed.

(** C2, amended.  For a topic outside the supported set the fallback
    returns none without a call.  For a supported topic it runs the
    site-restricted queries, one per aggregator, through two providers only:
    the lightweight text endpoint first, and the meta-search provider for a
    query exactly after the lightweight endpoint returned nothing for it.  It
    stops at the first result link that contains an aggregator name and the
    topic or a related keyword, and scrapes that link; when no query has such
    a link it returns none. *)
Theorem aggregator_search_order (W : world) (E : env)
    (college_name intent : str) :
  let queries := search_queries college_name intent in
  let run := scrape_from_aggregators W E college_name intent in
  (mem intent AGGREGATOR_INTENTS = false -> run = (None, [])) /\
  (mem intent AGGREGATOR_INTENTS = true ->
     value run = scrape_found E intent (first_hit W intent queries)) /\
  Forall (fun ev => (fst ev = DuckDuckGoLite \/ fst ev = SearXNG) /\
                    In (snd ev) queries) (calls run) /\
  (forall query,
     In (SearXNG, query) (calls run) ->
     value (search_with_duckduckgo_lite W query 3) = [] /\
     exists before after,
       calls run =
         before ++ (DuckDuckGoLite, query) :: (SearXNG, query) :: after) /\
  ((forall query, In query queries ->
      first_relevant intent (value (query_results W query)) = None) ->
   value run = None).
Proof.
  cbv zeta. unfold scrape_from_aggregators.
  destruct (mem intent AGGREGATOR_INTENTS) eqn:Em; cbn [negb].
  - assert (Hv : value (x <- find_aggregator_url W intent
                               (search_queries college_name intent) ;;
                        ret (scrape_found E intent x)) =
                 scrape_found E intent
                   (first_hit W intent (search_queries college_name intent))).
    { rewrite value_bind, find_aggregator_url_value. reflexivity. }
    assert (Hc : calls (x <- find_aggregator_url W intent
                               (search_queries college_name intent) ;;
                        ret (scrape_found E intent x)) =
                 calls (find_aggregator_url W intent
                          (search_queries college_name intent))).
    { rewrite calls_bind. unfold ret, calls at 2. cbn [snd].
      apply app_nil_r. }
    rewrite Hc, Hv.
    split; [discriminate |]. split; [reflexivity |].
    split; [apply find_aggregator_url_providers |].
    split; [apply find_aggregator_url_order |].
    intro H. rewrite (first_hit_none W intent _ H). reflexivity.
  - split; [reflexivity |]. split; [discriminate |].
    split; [constructor |]. split; [intros q [] | reflexivity].
Qed.

End AggregatorFacts.

(** ** The embedding on small inputs *)

Module ModelChecks.
Import Py PyList Search Scraper Chat Examples.

Example strip_both_ends : strip "  IIT  Bombay " = ("IIT  Bombay" : str).
Proof. reflexivity. Qed.

Example lower_ascii : lower "Anna University, CHENNAI-25" =
                      ("anna university, chennai-25" : str).
Proof. reflexivity. Qed.

Example findall_words_runs :
  findall_words "govt. arts_college (salem-7)" =
    [ "govt" : str; "arts_college" : str; "salem" : str; "7" : str ].
Proof. reflexivity. Qed.

Example split_on_dot :
  split "." "www.cse.iitb.ac.in" =
    [ "www" : str; "cse" : str; "iitb" : str; "ac" : str; "in" : str ].
Proof. reflexivity. Qed.

Example split_keeps_empty_ends : split "." ".a." = [ [] ; "a" : str; [] ].
Proof. reflexivity. Qed.

Example replace_www_everywhere :
  replace_www "www.awww.b.wwwwww." = ("ab.www" : str).
Proof. reflexivity. Qed.

Example unwrap_google_link :
  unwrap_google "/url?q=https://www.abc.edu/&sa=U" =
    ("https://www.abc.edu/" : str).
Proof. reflexivity. Qed.

Example confidence_strings_descend :
  str_ltb "high" "medium" = true /\ str_ltb "low" "medium" = true.
Proof. split; reflexivity. Qed.

Example urlparse_plain :
  Url.urlparse "https://www.iitb.ac.in/placements?year=2024" =
    Some (mk_parts "https" "www.iitb.ac.in").
Proof. reflexivity. Qed.

Example urlparse_upper_scheme_and_port :
  Url.urlparse "HTTP://Example.edu:8080#top" =
    Some (mk_parts "http" "Example.edu:8080").
Proof. reflexivity. Qed.

Example urlparse_no_scheme :
  Url.urlparse "httpfoo" = Some (mk_parts [] []).
Proof. reflexivity. Qed.

Example urlparse_open_bracket : Url.urlparse "http://[" = None.
Proof. reflexivity. Qed.

Example excluded_by_substring :
  is_excluded_domain "en.Wikipedia.org" = true /\
  is_excluded_domain "www.studyabroadhelp.in" = true /\
  is_excluded_domain "www.iitb.ac.in" = false.
Proof. repeat split; reflexivity. Qed.

Example confidence_by_suffix_and_words :
  domain_confidence (mk_parts "https" "www.iitb.ac.in") "anything" =
    ("high" : str) /\
  domain_confidence (mk_parts "https" "www.sastra.com")
    "Sastra Deemed University" = ("medium" : str) /\
  domain_confidence (mk_parts "https" "www.example.com")
    "Sastra Deemed University" = ("low" : str).
Proof. repeat split; reflexivity. Qed.

Example splitlines_breaks :
  splitlines (("one" : str) ++ ["013"; "010"]%char ++ ("two" : str)
              ++ ["010"; "010"]%char ++ ("three" : str) ++ ["010"]%char) =
    [ "one" : str; "two" : str; []; "three" : str ].
Proof. reflexivity. Qed.

Example collapse_three_newlines :
  collapse_newlines 0 (("a" : str) ++ repeat newline 4 ++ ("b" : str)
                       ++ repeat newline 2 ++ ("c" : str)) =
    ("a" : str) ++ repeat newline 2 ++ ("b" : str) ++ repeat newline 2
    ++ ("c" : str).
Proof. reflexivity. Qed.

Example normalize_drops_short_lines :
  normalize_text (("  Fees 2024  " : str) ++ [newline] ++ ("ok" : str)
                  ++ [newline] ++ ("Rs. 50,000 per year" : str)) =
    ("Fees 2024" : str) ++ [newline] ++ ("Rs. 50,000 per year" : str).
Proof. reflexivity. Qed.

Example placements_need_a_figure :
  has_specific_data "Highest package 42.5 LPA" "placements" = true /\
  has_specific_data "Great placements every year" "placements" = false.
Proof. split; vm_compute; reflexivity. Qed.

Example fees_amounts :
  has_specific_data "Tuition: Rs. 85000" "fees" = true /\
  has_specific_data "1,20,000 / annum" "fees" = true.
Proof. split; vm_compute; reflexivity. Qed.

(** A name that the catalogue does not know and the registry matches
    fuzzily is searched on the web under the registry's name and locality,
    and the candidates come back ranked. *)
Example registry_hit_refines_query :
  search_college_website online "ABC Engineering College" 5 false =
    ([ mk_candidate "ABC College of Engineering" "https://www.abc.ac.in"
         "high" None None None;
       mk_candidate
         (("ABC Engineering College for Women Erode, Tamil Nadu" : str)
          ++ (" - abcengineering.com" : str))
         "http://abcengineering.com" "medium" None None None ],
     [ (SearXNG,
        (("ABC Engineering College for Women Erode, Tamil Nadu" : str)
         ++ (" official website" : str))) ]).
Proof. vm_compute. reflexivity. Qed.

(** With forced web search a catalogue key is not answered from the
    catalogue. *)
Example forced_search_skips_catalog :
  calls (search_college_website online "Anna University" 5 true) =
    [ (SearXNG, "Anna University official website" : str) ] /\
  Forall (fun c => source c = None)
    (value (search_college_website online "Anna University" 5 true)).
Proof. split; vm_compute; repeat constructor. Qed.

(** The aggregator fallback with both providers in reach of the first
    meta-search instance only: each query goes to the lightweight endpoint,
    then to the meta-search, and the aggregator link of the answer is gone
    before the test. *)
Example aggregator_link_filtered_out :
  scrape_from_aggregators online (plain_text_env unreachable) "ABC College"
    "fees" =
    (None,
     flat_map (fun query => [(DuckDuckGoLite, query); (SearXNG, query)])
       (search_queries "ABC College" "fees")).
Proof. vm_compute. reflexivity. Qed.

End ModelChecks.

(** ** What every answer of the resolver satisfies *)

Module ResolveInvariants.
Import Py PyList Search PyFacts PyListFacts ResolverFacts ProviderFacts.
Import Examples Props.

Lemma mem_spec (x : str) (l : list str) : mem x l = true <-> In x l.
Proof.
  unfold mem. rewrite existsb_exists. split.
  - intros (y & Hy & E). apply str_eqb_eq in E. subst. exact Hy.
  - intro H. exists x. split; [exact H | apply str_eqb_refl].
Qed.

Lemma slice_to_length {A : Type} (n : Z) (l : list A) :
  (0 <= n)%Z -> (len (slice_to n l) <= n)%Z.
Proof.
  intro H. unfold slice_to, len. destruct (Z.leb_spec 0 n); [| lia].
  rewrite length_firstn. lia.
Qed.

Lemma web_search_value (W : world) (college_name : str) (max_results : Z) :
  let results :=
    value (provider_chain W (college_name ++ (" official website" : str))
             max_results) in
  value (web_search W college_name max_results) =
    if negb (nonempty results) then []
    else slice_to max_results
           (sort confidence_asc
              (build_candidates W results [] [] college_name max_results)).
Proof.
  cbv zeta. unfold web_search. rewrite value_bind.
  destruct (negb (nonempty (value (provider_chain W _ max_results))));
    reflexivity.
Qed.

(** The two ways an answer is made: from the catalogue entries that have
    an address, or by a web search under some name. *)
Lemma resolve_cases (W : world) (college_name : str) (max_results : Z)
    (force_web_search : bool) (P : M (list candidate) -> Prop) :
  (force_web_search = false ->
   existsb has_url (search_known_colleges W college_name) = true ->
   P (ret (slice_to max_results
             (filter has_url (search_known_colleges W college_name))))) ->
  (forall searched, P (web_search W searched max_results)) ->
  P (search_college_website W college_name max_results force_web_search).
Proof.
  intros Hcat Hweb. unfold search_college_website.
  destruct force_web_search; cbn [negb]; [apply Hweb |].
  destruct (existsb has_url (search_known_colleges W college_name)) eqn:Eu;
    [apply Hcat; reflexivity |].
  destruct (search_known_colleges W college_name) as [| best rest];
    [apply Hweb |].
  destruct (match source best with
            | Some s => str_eqb s "ugc_database"
            | None => false
            end); apply Hweb.
Qed.

Lemma resolve_length (W : world) (college_name : str)
    (max_results : Z) (force_web_search : bool) :
  (0 <= max_results)%Z ->
  (len (value (search_college_website W college_name max_results
                 force_web_search)) <= max_results)%Z.
Proof.
  intro Hm. apply resolve_cases.
  - intros _ _. apply slice_to_length, Hm.
  - intro searched. rewrite web_search_value. cbv zeta.
    destruct (negb (nonempty _)); [cbn; lia | apply slice_to_length, Hm].
Qed.

(** X1.  The resolver never returns more candidates than it was asked
    for. *)
Theorem resolve_at_most_max_results (W : world) (college_name : str)
    (max_results : Z) (force_web_search : bool) :
  (0 <= max_results)%Z ->
  (len (value (search_college_website W college_name max_results
                 force_web_search)) <= max_results)%Z.
Proof. apply resolve_length. Qed.

Lemma resolve_at_most_max_results_witness :
  (len (value (search_college_website online "ABC College of Arts" 1 true))
   <= 1)%Z.
Proof.
  apply (resolve_at_most_max_results online "ABC College of Arts" 1 true).
  lia.
Defined.

Lemma domain_confidence_tier (parsed : url_parts) (college_name : str) :
  known_tier (domain_confidence parsed college_name).
Proof.
  unfold domain_confidence, known_tier.
  repeat match goal with
         | |- context [if ?b then _ else _] => destruct b
         end; auto.
Qed.

Lemma build_candidates_wellformed (W : world) (college_name : str)
    (max_results : Z) (results : list search_result) :
  forall seen candidates,
    Forall (fun c => url c <> [] /\ known_tier (confidence c)) candidates ->
    Forall (fun c => url c <> [] /\ known_tier (confidence c))
      (build_candidates W results seen candidates college_name max_results).
Proof.
  induction results as [| r results IH]; intros seen candidates Hc;
    cbn [build_candidates]; [exact Hc |].
  destruct (href r) as [| h0 ht] eqn:Eh; cbn [nonempty negb];
    [apply IH, Hc |].
  destruct (urlparse W (h0 :: ht)) as [parsed |]; [| apply IH, Hc].
  destruct (negb (nonempty (lower (netloc parsed)))); [apply IH, Hc |].
  match goal with
  | |- context [if mem ?b seen then _ else _] => destruct (mem b seen)
  end; [apply IH, Hc |].
  match goal with
  | |- context [candidates ++ [?new]] =>
      assert (Hc' : Forall (fun c => url c <> [] /\ known_tier (confidence c))
                      (candidates ++ [new]))
  end.
  { apply Forall_app. split; [exact Hc |].
    constructor; [| constructor]. cbn [url confidence].
    split; [discriminate | apply domain_confidence_tier]. }
  match goal with
  | |- context [if (max_results <=? ?n)%Z then _ else _] =>
      destruct (max_results <=? n)%Z
  end; [exact Hc' | apply IH, Hc'].
Qed.

Lemma fuzzy_known_tiers (name_lower : str) (query_words : list str)
    (items : dict college_info) :
  forall matches,
    Forall (fun c => known_tier (confidence c)) matches ->
    Forall (fun c => known_tier (confidence c))
      (fuzzy_known name_lower query_words items matches).
Proof.
  induction items as [| [key info] rest IH]; intros matches H;
    cbn [fuzzy_known]; [exact H |].
  repeat match goal with
         | |- context [if ?b then _ else _] => destruct b
         end;
    apply IH; try exact H;
    (apply Forall_app; split; [exact H |]);
    (constructor; [unfold known_tier; cbn; auto | constructor]).
Qed.

Lemma fuzzy_ugc_tiers (name_lower : str) (query_words : list str)
    (items : dict institution_info) :
  forall matches current_matches,
    Forall (fun c => known_tier (confidence c)) matches ->
    Forall (fun c => known_tier (confidence c))
      (fuzzy_ugc name_lower query_words items matches current_matches).
Proof.
  induction items as [| [key info] rest IH]; intros matches cm H;
    cbn [fuzzy_ugc]; [exact H |].
  destruct (0 <? ugc_score name_lower query_words cm key)%Z;
    apply IH; try exact H.
  apply Forall_app; split; [exact H |].
  constructor; [unfold known_tier; cbn; auto | constructor].
Qed.

Lemma known_colleges_tiers (W : world) (college_name : str) :
  Forall (fun c => known_tier (confidence c))
    (search_known_colleges W college_name).
Proof.
  unfold search_known_colleges.
  destruct (lookup _ (KNOWN_COLLEGES W));
    [constructor; [unfold known_tier; cbn; auto | constructor] |].
  destruct (lookup _ (ALL_INSTITUTIONS W));
    [constructor; [unfold known_tier; cbn; auto | constructor] |].
  match goal with
  | |- context [if nonempty ?l then _ else _] =>
      assert (Hk : Forall (fun c => known_tier (confidence c)) l)
        by (apply fuzzy_known_tiers; constructor);
      destruct (nonempty l)
  end.
  - apply Forall_firstn_sort, Hk.
  - match goal with
    | |- context [if nonempty ?l then _ else _] =>
        assert (Hu : Forall (fun c => known_tier (confidence c)) l)
          by (apply fuzzy_ugc_tiers; constructor);
        destruct (nonempty l)
    end; [| exact Hk].
    apply Forall_app. split; [exact Hk | apply Forall_firstn_sort, Hu].
Qed.

Lemma Forall_slice_to {A : Type} (P : A -> Prop) (n : Z) (l : list A) :
  Forall P l -> Forall P (slice_to n l).
Proof.
  intro H. destruct (slice_to_firstn n l) as [k ->].
  rewrite Forall_forall in *. intros x Hx. apply H. eapply in_firstn, Hx.
Qed.

Lemma resolve_wellformed (W : world) (college_name : str)
    (max_results : Z) (force_web_search : bool) :
  Forall (fun c => url c <> [] /\ known_tier (confidence c))
    (value (search_college_website W college_name max_results
              force_web_search)).
Proof.
  apply resolve_cases.
  - intros _ _. unfold ret, value. cbn [fst]. apply Forall_slice_to.
    assert (Ht := known_colleges_tiers W college_name).
    rewrite Forall_forall in *. intros c Hc. apply filter_In in Hc.
    destruct Hc as [Hin Hu]. split; [| exact (Ht c Hin)].
    unfold has_url in Hu. destruct (url c); [discriminate | discriminate].
  - intro searched. rewrite web_search_value. cbv zeta.
    destruct (negb (nonempty _)); [constructor |].
    apply Forall_slice_to.
    assert (Hb := build_candidates_wellformed W searched max_results
                    (value (provider_chain W
                              (searched ++ (" official website" : str))
                              max_results)) [] [] (Forall_nil _)).
    rewrite Forall_forall in *. intros c Hc.
    apply (Permutation_in _ (sort_perm _ _)) in Hc. exact (Hb c Hc).
Qed.

(** X2.  Every candidate the resolver returns, on either path, has an
    address that is not empty and a tier that is "high", "medium" or
    "low". *)
Theorem resolve_candidates_wellformed (W : world) (college_name : str)
    (max_results : Z) (force_web_search : bool) :
  Forall (fun c => url c <> [] /\
                   (confidence c = ("high" : str) \/
                    confidence c = ("medium" : str) \/
                    confidence c = ("low" : str)))
    (value (search_college_website W college_name max_results
              force_web_search)).
Proof. apply resolve_wellformed. Qed.

End ResolveInvariants.

(** ** The web search and its provider chain *)

Module WebSearchFacts.
Import Py PyList Search PyFacts PyListFacts ResolverFacts ProviderFacts.
Import ResolveInvariants Examples MoreExamples Props.

Section SameWeb.
Variables W1 W2 : world.
Hypothesis Hsame : same_web W1 W2.

Lemma keep_result_same (results : list search_result) (href0 title0 : str) :
  keep_result W1 results href0 title0 = keep_result W2 results href0 title0.
Proof.
  unfold keep_result. destruct Hsame as (-> & _). reflexivity.
Qed.

Lemma collect_same (items : list (option (str * str))) (max_results : Z) :
  forall results,
    collect W1 items results max_results = collect W2 items results max_results.
Proof.
  induction items as [| item rest IH]; intro results; cbn [collect];
    [reflexivity |].
  destruct item as [[href0 title0] |].
  - rewrite keep_result_same.
    destruct (keep_result W2 results href0 title0) as [results' |];
      [| reflexivity].
    destruct (max_results <=? len results')%Z; [reflexivity | apply IH].
  - destruct (max_results <=? len results)%Z; [reflexivity | apply IH].
Qed.

Lemma searxng_try_same (instances : list str) (query : str)
    (max_results : Z) :
  searxng_try W1 instances query max_results =
  searxng_try W2 instances query max_results.
Proof.
  induction instances as [| instance rest IH]; cbn [searxng_try];
    [reflexivity |].
  destruct Hsame as (_ & -> & _).
  destruct (searxng_get W2 instance query) as [items |]; [| exact IH].
  rewrite collect_same, IH. reflexivity.
Qed.

Lemma google_items_same (anchors : list (str * str)) (max_results : Z) :
  forall seen results,
    google_items W1 anchors seen results max_results =
    google_items W2 anchors seen results max_results.
Proof.
  induction anchors as [| [href0 text] rest IH]; intros seen results;
    cbn [google_items]; [reflexivity |].
  destruct Hsame as (-> & _).
  destruct (negb (startswith (unwrap_google href0) "http")); [apply IH |].
  destruct (urlparse W2 (unwrap_google href0)) as [parsed |];
    [| reflexivity].
  repeat match goal with
         | |- context [if ?b then _ else _] => destruct b
         end; try reflexivity; apply IH.
Qed.

Lemma startpage_same (query : str) (max_results : Z) :
  search_with_startpage W1 query max_results =
  search_with_startpage W2 query max_results.
Proof.
  unfold search_with_startpage. destruct Hsame as (_ & _ & -> & _).
  destruct (startpage_post W2 query) as [items |]; [| reflexivity].
  rewrite collect_same. reflexivity.
Qed.

Lemma duckduckgo_lite_same (query : str) (max_results : Z) :
  search_with_duckduckgo_lite W1 query max_results =
  search_with_duckduckgo_lite W2 query max_results.
Proof.
  unfold search_with_duckduckgo_lite. destruct Hsame as (_ & _ & _ & -> & _).
  destruct (ddg_lite_post W2 query) as [items |]; [| reflexivity].
  rewrite collect_same. reflexivity.
Qed.

Lemma google_same (query : str) (max_results : Z) :
  search_with_playwright_google W1 query max_results =
  search_with_playwright_google W2 query max_results.
Proof.
  unfold search_with_playwright_google.
  destruct Hsame as (_ & _ & _ & _ & ->).
  destruct (google_page W2 query) as [anchors |]; [| reflexivity].
  rewrite google_items_same. reflexivity.
Qed.

Lemma provider_chain_same (query : str) (max_results : Z) :
  provider_chain W1 query max_results = provider_chain W2 query max_results.
Proof.
  unfold provider_chain, search_with_searxng.
  rewrite searxng_try_same, startpage_same, duckduckgo_lite_same, google_same.
  reflexivity.
Qed.

Lemma build_candidates_same (results : list search_result)
    (college_name : str) (max_results : Z) :
  forall seen candidates,
    build_candidates W1 results seen candidates college_name max_results =
    build_candidates W2 results seen candidates college_name max_results.
Proof.
  induction results as [| r results IH]; intros seen candidates;
    cbn [build_candidates]; [reflexivity |].
  destruct Hsame as (-> & _).
  destruct (negb (nonempty (href r))); [apply IH |].
  destruct (urlparse W2 (href r)) as [parsed |]; [| apply IH].
  repeat match goal with
         | |- context [if ?b then _ else _] => destruct b
         end; try reflexivity; apply IH.
Qed.

Lemma web_search_same (college_name : str) (max_results : Z) :
  web_search W1 college_name max_results =
  web_search W2 college_name max_results.
Proof.
  unfold web_search. rewrite provider_chain_same.
  destruct (provider_chain W2 _ max_results) as [results log].
  cbn [bind]. rewrite build_candidates_same. reflexivity.
Qed.

End SameWeb.

(** X3.  With forced web search the two catalogues are never read: two worlds
    with the same URL parser and the same search back ends give the same
    candidates and the same provider calls, whatever their catalogues
    hold. *)
Theorem forced_search_ignores_catalogs (W1 W2 : world) (college_name : str)
    (max_results : Z) :
  same_web W1 W2 ->
  search_college_website W1 college_name max_results true =
  search_college_website W2 college_name max_results true.
Proof.
  intro H. unfold search_college_website. cbn [negb].
  apply web_search_same, H.
Qed.

Lemma forced_search_ignores_catalogs_witness :
  search_college_website online "Anna University" 5 true =
  search_college_website online_without_catalogs "Anna University" 5 true.
Proof.
  apply (forced_search_ignores_catalogs online online_without_catalogs
           "Anna University" 5).
  repeat split; reflexivity.
Defined.

Lemma provider_chain_calls_head (W : world) (query : str) (max_results : Z) :
  exists rest,
    calls (provider_chain W query max_results) = (SearXNG, query) :: rest.
Proof.
  unfold provider_chain. rewrite calls_bind. eexists. reflexivity.
Qed.

Lemma web_search_calls (W : world) (college_name : str) (max_results : Z) :
  calls (web_search W college_name max_results) =
  calls (provider_chain W (college_name ++ (" official website" : str))
           max_results).
Proof.
  unfold web_search. rewrite calls_bind.
  destruct (negb (nonempty _)); unfold ret, calls at 2; cbn [snd];
    apply app_nil_r.
Qed.

(** X4.  A name that is a key of the registry and not of the catalogue is not
    answered from the registry: the resolver searches the web under the
    registry's spelling of the name followed by district and state, and the
    first provider is asked for that text with " official website". *)
Theorem registry_match_refines_query (W : world) (college_name : str)
    (max_results : Z) (info : institution_info) :
  lookup (strip (lower college_name)) (KNOWN_COLLEGES W) = None ->
  lookup (strip (lower college_name)) (ALL_INSTITUTIONS W) = Some info ->
  let refined :=
    in_name info ++ (" " : str) ++ in_district info ++ (", " : str)
    ++ in_state info in
  search_college_website W college_name max_results false =
    web_search W refined max_results /\
  exists rest,
    calls (search_college_website W college_name max_results false) =
      (SearXNG, refined ++ (" official website" : str)) :: rest.
Proof.
  intros Hk Hr. cbv zeta.
  assert (E : search_college_website W college_name max_results false =
              web_search W
                (in_name info ++ (" " : str) ++ in_district info
                 ++ (", " : str) ++ in_state info) max_results).
  { unfold search_college_website, search_known_colleges.
    rewrite Hk, Hr. reflexivity. }
  split; [exact E |]. rewrite E, web_search_calls.
  apply provider_chain_calls_head.
Qed.

Lemma registry_match_refines_query_witness :
  let refined : str := "ABC College of Engineering Chennai, Tamil Nadu" in
  search_college_website online " ABC College of Engineering" 5 false =
    web_search online refined 5 /\
  exists rest,
    calls (search_college_website online " ABC College of Engineering" 5
             false) =
      (SearXNG, refined ++ (" official website" : str)) :: rest.
Proof.
  apply (registry_match_refines_query online " ABC College of Engineering" 5
           (mk_institution "ABC College of Engineering" "Anna University"
              "Tamil Nadu" "Chennai" "Private"));
    vm_compute; reflexivity.
Defined.

(** X5.  The chain asks the providers in a fixed order and stops at the first
    that returns a result: its value is that provider's answer, and the
    providers after it are not called.  When all four return nothing the
    value is empty and all four were asked. *)
Theorem provider_chain_first_answer_wins (W : world) (query : str)
    (max_results : Z) :
  let r1 := value (search_with_searxng W query (max_results * 2)) in
  let r2 := value (search_with_startpage W query (max_results * 2)) in
  let r3 := value (search_with_duckduckgo_lite W query (max_results * 2)) in
  let r4 := value (search_with_playwright_google W query max_results) in
  let chain := provider_chain W query max_results in
  (r1 <> [] -> chain = (r1, firstn 1 (chain_order query))) /\
  (r1 = [] -> r2 <> [] -> chain = (r2, firstn 2 (chain_order query))) /\
  (r1 = [] -> r2 = [] -> r3 <> [] ->
   chain = (r3, firstn 3 (chain_order query))) /\
  (r1 = [] -> r2 = [] -> r3 = [] -> chain = (r4, chain_order query)) /\
  (value chain = [] <-> r1 = [] /\ r2 = [] /\ r3 = [] /\ r4 = []).
Proof.
  cbv zeta. unfold provider_chain.
  unfold search_with_searxng, search_with_startpage,
    search_with_duckduckgo_lite, search_with_playwright_google, call, value,
    bind, ret. cbn [fst].
  set (r1 := searxng_try W searxng_instances query (max_results * 2)).
  set (r2 := match startpage_post W query with
             | Some items =>
                 match collect W items [] (max_results * 2) with
                 | Some results => results
                 | None => []
                 end
             | None => []
             end).
  set (r3 := match ddg_lite_post W query with
             | Some items =>
                 match collect W items [] (max_results * 2) with
                 | Some results => results
                 | None => []
                 end
             | None => []
             end).
  set (r4 := match google_page W query with
             | Some anchors => google_items W anchors [] [] max_results
             | None => []
             end).
  destruct r1 as [| a1 t1]; cbn [nonempty app];
    [| repeat split; try congruence; try reflexivity;
       intros; try discriminate; intuition discriminate].
  destruct r2 as [| a2 t2]; cbn [nonempty app];
    [| repeat split; try congruence; try reflexivity;
       intros; try discriminate; intuition discriminate].
  destruct r3 as [| a3 t3]; cbn [nonempty app];
    [| repeat split; try congruence; try reflexivity;
       intros; try discriminate; intuition discriminate].
  repeat split; try congruence; try reflexivity; intuition auto.
Qed.

End WebSearchFacts.

(** ** De-duplication, bounds and the exclusion test *)

Module CandidateFacts.
Import Py PyList Search PyFacts PyListFacts ResolverFacts ProviderFacts.
Import ResolveInvariants WebSearchFacts Examples MoreExamples Props.

Lemma NoDup_snoc {A : Type} (l : list A) (x : A) :
  NoDup l -> ~ In x l -> NoDup (l ++ [x]).
Proof.
  intros Hl Hx. apply (Permutation_NoDup (Permutation_cons_append l x)).
  constructor; assumption.
Qed.

Lemma NoDup_firstn_of {A : Type} (n : nat) (l : list A) :
  NoDup l -> NoDup (firstn n l).
Proof.
  intro H. rewrite <- (firstn_skipn n l) in H.
  exact (NoDup_app_remove_r _ _ H).
Qed.

Lemma build_candidates_distinct (W : world) (college_name : str)
    (max_results : Z) (results : list search_result) :
  forall seen candidates,
    NoDup (map (fun c => base_of W (url c)) candidates) ->
    Forall (fun c => exists b, base_of W (url c) = Some b /\ In b seen)
      candidates ->
    NoDup (map (fun c => base_of W (url c))
             (build_candidates W results seen candidates college_name
                max_results)).
Proof.
  induction results as [| r results IH]; intros seen candidates Hnd Hseen;
    cbn [build_candidates]; [exact Hnd |].
  destruct (negb (nonempty (href r))); [apply IH; assumption |].
  destruct (urlparse W (href r)) as [parsed |] eqn:Ep;
    [| apply IH; assumption].
  destruct (negb (nonempty (lower (netloc parsed))));
    [apply IH; assumption |].
  fold (base_domain (lower (netloc parsed))).
  set (b := base_domain (lower (netloc parsed))).
  destruct (mem b seen) eqn:Em; [apply IH; assumption |].
  assert (Hb : ~ In b seen).
  { intro Hin. apply mem_spec in Hin. congruence. }
  match goal with
  | |- context [candidates ++ [?new]] => set (c := new)
  end.
  assert (Hc : base_of W (url c) = Some b).
  { unfold base_of, c. cbn [url]. rewrite Ep. reflexivity. }
  assert (Hnd' : NoDup (map (fun c => base_of W (url c))
                          (candidates ++ [c]))).
  { rewrite map_app. cbn [map]. apply NoDup_snoc; [exact Hnd |].
    rewrite Hc. intro Hin. apply in_map_iff in Hin.
    destruct Hin as (c' & Hc' & Hin'). rewrite Forall_forall in Hseen.
    destruct (Hseen c' Hin') as (b' & Hb1 & Hb2). congruence. }
  destruct (max_results <=? len (candidates ++ [c]))%Z; [exact Hnd' |].
  apply IH; [exact Hnd' |].
  apply Forall_app. split.
  - eapply Forall_impl; [| exact Hseen]. cbn beta.
    intros c' (b' & H1 & H2). exists b'. split; [exact H1 | right; exact H2].
  - constructor; [| constructor]. exists b. split; [exact Hc | left; reflexivity].
Qed.

(** X6.  No two candidates of a forced web search have the same key of the
    de-duplication: the last two labels, between dots, of the lower-case
    network location of the address, taken as it stands, with a port if
    there is one and with no "www." removed. *)
Theorem web_candidates_distinct_sites (W : world) (college_name : str)
    (max_results : Z) :
  NoDup (map (fun c => base_of W (url c))
           (value (search_college_website W college_name max_results true))).
Proof.
  unfold search_college_website. cbn [negb]. rewrite web_search_value.
  cbv zeta. destruct (negb (nonempty _)); [constructor |].
  match goal with
  | |- context [slice_to ?n ?l] => destruct (slice_to_firstn n l) as [k ->]
  end.
  rewrite <- firstn_map. apply NoDup_firstn_of.
  eapply Permutation_NoDup;
    [apply Permutation_map; symmetry; apply sort_perm |].
  apply build_candidates_distinct; constructor.
Qed.

Lemma keep_result_length (W : world) (results out : list search_result)
    (href0 title0 : str) :
  keep_result W results href0 title0 = Some out ->
  (len out <= len results + 1)%Z.
Proof.
  unfold keep_result, len.
  destruct (startswith href0 "http"); [| intros [= <-]; lia].
  destruct (urlparse W href0) as [parsed |]; [| discriminate].
  destruct (negb (is_excluded_domain (netloc parsed))); intros [= <-];
    [rewrite length_app; cbn; lia | lia].
Qed.

Lemma collect_bound (W : world) (items : list (option (str * str)))
    (max_results : Z) :
  forall results out,
    (len results < max_results)%Z ->
    collect W items results max_results = Some out ->
    (len out <= max_results)%Z.
Proof.
  induction items as [| item rest IH]; intros results out Hlt;
    cbn [collect].
  - intros [= <-]. lia.
  - destruct (match item with
              | Some (href0, title0) => keep_result W results href0 title0
              | None => Some results
              end) as [results' |] eqn:Ek; [| discriminate].
    assert (Hle : (len results' <= len results + 1)%Z).
    { destruct item as [[href0 title0] |].
      - exact (keep_result_length _ _ _ _ _ Ek).
      - injection Ek as <-. lia. }
    destruct (Z.leb_spec max_results (len results')).
    + intros [= <-]. lia.
    + apply IH. lia.
Qed.

Lemma searxng_try_bound (W : world) (instances : list str) (query : str)
    (max_results : Z) :
  (1 <= max_results)%Z ->
  (len (searxng_try W instances query max_results) <= max_results)%Z.
Proof.
  intro Hm. induction instances as [| instance rest IH];
    cbn [searxng_try]; [cbn; lia |].
  destruct (searxng_get W instance query) as [items |]; [| exact IH].
  destruct (collect W (map Some items) [] max_results) as [[| r out] |] eqn:Ec;
    try exact IH.
  apply (collect_bound W _ _ [] _) in Ec; [exact Ec | cbn; lia].
Qed.

Lemma google_items_bound (W : world) (anchors : list (str * str))
    (max_results : Z) :
  forall seen results,
    (len results < max_results)%Z ->
    (len (google_items W anchors seen results max_results) <= max_results)%Z.
Proof.
  induction anchors as [| [href0 text] rest IH]; intros seen results Hlt;
    cbn [google_items]; [lia |].
  destruct (negb (startswith (unwrap_google href0) "http")); [apply IH, Hlt |].
  destruct (urlparse W (unwrap_google href0)) as [parsed |]; [| lia].
  destruct (is_excluded_domain (replace_www (netloc parsed))
            || mem (replace_www (netloc parsed)) seen); [apply IH, Hlt |].
  destruct (contains ".edu" (replace_www (netloc parsed))
            || contains ".ac.in" (replace_www (netloc parsed))
            || contains "college" (replace_www (netloc parsed)));
    [| apply IH, Hlt].
  match goal with
  | |- context [results ++ [?new]] => set (r := new)
  end.
  assert (Hlen : len (results ++ [r]) = (len results + 1)%Z).
  { unfold len. rewrite length_app. cbn. lia. }
  destruct (Z.leb_spec max_results (len (results ++ [r]))); [lia |].
  apply IH. lia.
Qed.

(** X7.  Asked for at least one result, each of the four providers returns at
    most as many results as it was asked for; and a provider whose back end
    fails, for SearXNG on every instance, returns the empty list. *)
Theorem providers_return_at_most_max_results (W : world) (query : str)
    (max_results : Z) :
  (1 <= max_results)%Z ->
  ((len (value (search_with_searxng W query max_results)) <= max_results)%Z /\
   (len (value (search_with_startpage W query max_results))
    <= max_results)%Z /\
   (len (value (search_with_duckduckgo_lite W query max_results))
    <= max_results)%Z /\
   (len (value (search_with_playwright_google W query max_results))
    <= max_results)%Z) /\
  ((forall instance, searxng_get W instance query = None) ->
   value (search_with_searxng W query max_results) = []) /\
  (startpage_post W query = None ->
   value (search_with_startpage W query max_results) = []) /\
  (ddg_lite_post W query = None ->
   value (search_with_duckduckgo_lite W query max_results) = []) /\
  (google_page W query = None ->
   value (search_with_playwright_google W query max_results) = []).
Proof.
  intro Hm.
  assert (H0 : (len (@nil search_result) < max_results)%Z) by (cbn; lia).
  assert (Hnil : (len (@nil search_result) <= max_results)%Z) by (cbn; lia).
  split; [repeat split | split; [| split; [| split]]].
  - apply searxng_try_bound, Hm.
  - unfold search_with_startpage, call, value. cbn [fst].
    destruct (startpage_post W query) as [items |]; [| exact Hnil].
    destruct (collect W items [] max_results) eqn:Ec; [| exact Hnil].
    exact (collect_bound W _ _ _ _ H0 Ec).
  - unfold search_with_duckduckgo_lite, call, value. cbn [fst].
    destruct (ddg_lite_post W query) as [items |]; [| exact Hnil].
    destruct (collect W items [] max_results) eqn:Ec; [| exact Hnil].
    exact (collect_bound W _ _ _ _ H0 Ec).
  - unfold search_with_playwright_google, call, value. cbn [fst].
    destruct (google_page W query) as [anchors |]; [| exact Hnil].
    apply google_items_bound, H0.
  - intro Hfail. unfold search_with_searxng, call, value. cbn [fst].
    induction searxng_instances as [| instance rest IH]; [reflexivity |].
    cbn [searxng_try]. rewrite Hfail. exact IH.
  - intro Hfail. unfold search_with_startpage, call, value. cbn [fst].
    rewrite Hfail. reflexivity.
  - intro Hfail. unfold search_with_duckduckgo_lite, call, value. cbn [fst].
    rewrite Hfail. reflexivity.
  - intro Hfail. unfold search_with_playwright_google, call, value.
    cbn [fst]. rewrite Hfail. reflexivity.
Qed.

Lemma providers_return_at_most_max_results_witness :
  ((len (value (search_with_searxng online "ABC College" 2)) <= 2)%Z /\
   (len (value (search_with_startpage online "ABC College" 2)) <= 2)%Z /\
   (len (value (search_with_duckduckgo_lite online "ABC College" 2))
    <= 2)%Z /\
   (len (value (search_with_playwright_google online "ABC College" 2))
    <= 2)%Z) /\
  ((forall instance, searxng_get online instance "ABC College" = None) ->
   value (search_with_searxng online "ABC College" 2) = []) /\
  (startpage_post online "ABC College" = None ->
   value (search_with_startpage online "ABC College" 2) = []) /\
  (ddg_lite_post online "ABC College" = None ->
   value (search_with_duckduckgo_lite online "ABC College" 2) = []) /\
  (google_page online "ABC College" = None ->
   value (search_with_playwright_google online "ABC College" 2) = []).
Proof.
  apply (providers_return_at_most_max_results online "ABC College" 2). lia.
Defined.

Lemma lower_char_idem (c : ascii) : lower_char (lower_char c) = lower_char c.
Proof.
  destruct c as [[] [] [] [] [] [] [] []]; reflexivity.
Qed.

Lemma lower_idem (s : str) : lower (lower s) = lower s.
Proof.
  unfold lower. rewrite map_map. apply map_ext, lower_char_idem.
Qed.

(** X8.  The exclusion test does not depend on the case of the host, and a host
    that contains an excluded host as a part (a subdomain of it, or the host
    with a port) is excluded as well. *)
Theorem excluded_domain_closed :
  (forall domain : str,
     is_excluded_domain (lower domain) = is_excluded_domain domain) /\
  (forall before domain after : str,
     is_excluded_domain domain = true ->
     is_excluded_domain (before ++ domain ++ after) = true).
Proof.
  split.
  - intro domain. unfold is_excluded_domain. rewrite lower_idem. reflexivity.
  - intros before domain after H. unfold is_excluded_domain in *.
    apply existsb_exists in H. destruct H as (e & He & Hc).
    apply existsb_exists. exists e. split; [exact He |].
    apply AggregatorFacts.contains_spec in Hc. destruct Hc as (a & b & Hc).
    apply AggregatorFacts.contains_spec.
    exists (lower before ++ a), (b ++ lower after).
    rewrite !lower_app, Hc, <- !app_assoc. reflexivity.
Qed.

End CandidateFacts.

(** ** The catalogue lookup and the resolve end point *)

Module LookupFacts.
Import Py PyList Search PyFacts PyListFacts ResolverFacts ProviderFacts.
Import ResolveInvariants WebSearchFacts CandidateFacts Examples MoreExamples.
Import Props College.

Lemma lookup_In {V : Type} (k : str) (d : dict V) (v : V) :
  lookup k d = Some v -> In (k, v) d.
Proof.
  induction d as [| [k' v'] d IH]; cbn [lookup]; [discriminate |].
  destruct (str_eqb k k') eqn:E.
  - intros [= ->]. apply str_eqb_eq in E. subst. left. reflexivity.
  - intro H. right. exact (IH H).
Qed.

Lemma fuzzy_known_from_catalog (W : world) (name_lower : str)
    (query_words : list str) (items : dict college_info) :
  (forall entry, In entry items -> In entry (KNOWN_COLLEGES W)) ->
  forall matches,
    Forall (from_catalog W) matches ->
    Forall (from_catalog W)
      (fuzzy_known name_lower query_words items matches).
Proof.
  induction items as [| [key info] rest IH]; intros Hsub matches H;
    cbn [fuzzy_known]; [exact H |].
  assert (Hrest : forall entry, In entry rest -> In entry (KNOWN_COLLEGES W))
    by (intros e He; apply Hsub; right; exact He).
  assert (Hnew : forall tier,
            Forall (from_catalog W)
              (matches ++ [mk_candidate (ci_name info) (ci_url info) tier
                             (Some ("database" : str)) None None])).
  { intro tier. apply Forall_app. split; [exact H |].
    constructor; [| constructor]. split; [reflexivity |].
    exists key, info. repeat split. apply Hsub. left. reflexivity. }
  repeat match goal with
         | |- context [if ?b then _ else _] => destruct b
         end; apply IH; auto.
Qed.

Lemma fuzzy_ugc_from_registry (W : world) (name_lower : str)
    (query_words : list str) (items : dict institution_info) :
  (forall entry, In entry items -> In entry (ALL_INSTITUTIONS W)) ->
  forall matches current_matches,
    Forall (from_registry W) matches ->
    Forall (from_registry W)
      (fuzzy_ugc name_lower query_words items matches current_matches).
Proof.
  induction items as [| [key info] rest IH]; intros Hsub matches cm H;
    cbn [fuzzy_ugc]; [exact H |].
  assert (Hrest : forall entry, In entry rest -> In entry (ALL_INSTITUTIONS W))
    by (intros e He; apply Hsub; right; exact He).
  destruct (0 <? ugc_score name_lower query_words cm key)%Z;
    apply IH; auto.
  apply Forall_app. split; [exact H |].
  constructor; [| constructor]. repeat split.
  exists key, info. split; [apply Hsub; left |]; reflexivity.
Qed.

(** X9.  The lookup in the two catalogues returns at most five candidates, and
    they are all of one kind: either all come from the curated catalogue,
    with the name and address of one of its entries, or all come from the
    registry, with the name of one of its entries and no address. *)
Theorem known_colleges_one_kind (W : world) (college_name : str) :
  length (search_known_colleges W college_name) <= 5 /\
  (Forall (from_catalog W) (search_known_colleges W college_name) \/
   Forall (from_registry W) (search_known_colleges W college_name)).
Proof.
  unfold search_known_colleges.
  destruct (lookup _ (KNOWN_COLLEGES W)) as [info |] eqn:Ek.
  { split; [cbn; lia | left]. constructor; [| constructor].
    split; [reflexivity |]. exists (strip (lower college_name)), info.
    repeat split. apply lookup_In, Ek. }
  destruct (lookup _ (ALL_INSTITUTIONS W)) as [info |] eqn:Er.
  { split; [cbn; lia | right]. constructor; [| constructor].
    repeat split. exists (strip (lower college_name)), info.
    split; [apply lookup_In, Er | reflexivity]. }
  match goal with
  | |- context [if nonempty ?l then _ else _] =>
      assert (Hk : Forall (from_catalog W) l)
        by (apply fuzzy_known_from_catalog; [auto | constructor]);
      destruct l as [| c0 l0] eqn:El
  end; cbn [nonempty].
  - match goal with
    | |- context [if nonempty ?l then _ else _] =>
        assert (Hu : Forall (from_registry W) l)
          by (apply fuzzy_ugc_from_registry; [auto | constructor]);
        destruct (nonempty l)
    end; [| split; [cbn; lia | left; constructor]].
    cbn [app]. split; [rewrite length_firstn; lia | right].
    apply Forall_firstn_sort, Hu.
  - split; [rewrite length_firstn; lia | left].
    apply Forall_firstn_sort, Hk.
Qed.

Lemma short_name_empty_or_short (college_name : str) :
  negb (nonempty college_name) || (length (strip college_name) <? 3) =
  (length (strip college_name) <? 3).
Proof.
  destruct college_name; reflexivity.
Qed.

(** X10.  For a name written in ASCII, the resolve end point answers 400,
    without asking any provider, exactly when the name has fewer than three
    characters once trimmed.  For every other name it runs the resolver on
    the trimmed name with at most five results: it answers 404 exactly when
    the resolver finds nothing, and otherwise the candidates found, one to
    five, each with an address that is not empty and a tier among "high",
    "medium" and "low". *)
Theorem resolve_college_answers (W : world) (college_name : str)
    (force_search : bool) :
  is_ascii college_name = true ->
  let answer := resolve_college W college_name force_search in
  let found :=
    value (search_college_website W (strip college_name) 5 force_search) in
  (length (strip college_name) < 3 ->
   exists detail, answer = (HttpError 400 detail, [])) /\
  (3 <= length (strip college_name) -> found = [] ->
   exists detail, value answer = HttpError 404 detail) /\
  (3 <= length (strip college_name) -> found <> [] ->
   value answer = Ok (map to_schema found) /\
   1 <= length found <= 5 /\
   Forall (fun c => url c <> [] /\ known_tier (confidence c)) found).
Proof.
  intros _. cbv zeta. unfold resolve_college.
  rewrite short_name_empty_or_short.
  split; [| split].
  - intro Hlen.
    replace (length (strip college_name) <? 3) with true
      by (symmetry; apply Nat.ltb_lt, Hlen).
    eexists. reflexivity.
  - intros Hlen Hnone.
    replace (length (strip college_name) <? 3) with false
      by (symmetry; apply Nat.ltb_ge, Hlen).
    rewrite value_bind, Hnone. eexists. reflexivity.
  - intros Hlen Hsome.
    replace (length (strip college_name) <? 3) with false
      by (symmetry; apply Nat.ltb_ge, Hlen).
    rewrite value_bind.
    assert (Hcap := resolve_length W (strip college_name) 5
                      force_search ltac:(lia)).
    assert (Hwf := resolve_wellformed W (strip college_name) 5
                     force_search).
    destruct (value (search_college_website W (strip college_name) 5
                       force_search)) as [| c rest]; [congruence |].
    cbn [nonempty negb]. split; [reflexivity |].
    unfold len in Hcap. split; [cbn in *; lia | exact Hwf].
Qed.

Lemma resolve_college_answers_witness :
  let answer := resolve_college online "ABC College of Arts" true in
  let found :=
    value (search_college_website online (strip "ABC College of Arts") 5
             true) in
  (length (strip "ABC College of Arts") < 3 ->
   exists detail, answer = (HttpError 400 detail, [])) /\
  (3 <= length (strip "ABC College of Arts") -> found = [] ->
   exists detail, value answer = HttpError 404 detail) /\
  (3 <= length (strip "ABC College of Arts") -> found <> [] ->
   value answer = Ok (map to_schema found) /\
   1 <= length found <= 5 /\
   Forall (fun c => url c <> [] /\ known_tier (confidence c)) found).
Proof.
  apply (resolve_college_answers online "ABC College of Arts" true).
  reflexivity.
Defined.

End LookupFacts.

(** * [app/services/dynamic_scraper.py]: what the scraper returns *)

Module ScrapeInvariants.
Import Py PyList Search Scraper PyFacts PyListFacts Examples Props
  MoreExamples.

Section Discovery.
Variable W : world.
Variable E : env.

Lemma origin_snoc (P : str -> Prop) (discovered : list (str * str))
    (source u : str) :
  Forall (fun d => P (snd d)) discovered -> P u ->
  Forall (fun d => P (snd d)) (discovered ++ [(source, u)]).
Proof.
  intros H Hu. apply Forall_app. split; [exact H |].
  constructor; [exact Hu | constructor].
Qed.

Lemma discover_iframes_origin (base_url : str) (raws srcs : list str) :
  incl srcs raws ->
  forall discovered out,
    Forall (fun d => origin E base_url raws (snd d)) discovered ->
    discover_iframes E base_url srcs discovered = Some out ->
    Forall (fun d => origin E base_url raws (snd d)) out.
Proof.
  induction srcs as [| src rest IH]; intros Hincl discovered out Hd;
    cbn [discover_iframes].
  - intros [= <-]. exact Hd.
  - assert (Hrest : incl rest raws).
    { intros x Hx. apply Hincl. right. exact Hx. }
    destruct (nonempty src && _); [| apply IH; assumption].
    destruct (absolute E base_url src) as [src' |] eqn:Ea;
      cbn [option_bind]; [| discriminate].
    apply IH; [exact Hrest |].
    apply origin_snoc; [exact Hd |].
    exists src. split; [apply Hincl; left; reflexivity | exact Ea].
Qed.

Lemma discover_links_origin (base_url base_domain : str)
    (patterns raws : list str) (anchors : list (str * str)) :
  incl (map fst anchors) raws ->
  forall discovered out,
    Forall (fun d => origin E base_url raws (snd d)) discovered ->
    discover_links W E base_url base_domain patterns anchors discovered =
      Some out ->
    Forall (fun d => origin E base_url raws (snd d)) out.
Proof.
  induction anchors as [| [href0 stripped] rest IH];
    intros Hincl discovered out Hd; cbn [discover_links].
  - intros [= <-]. exact Hd.
  - assert (Hrest : incl (map fst rest) raws).
    { intros x Hx. apply Hincl. right. exact Hx. }
    destruct (negb (nonempty href0) || _); [apply IH; assumption |].
    destruct (absolute E base_url href0) as [href' |] eqn:Ea;
      cbn [option_bind]; [| discriminate].
    destruct (urlparse W href') as [parsed |]; cbn [option_bind];
      [| discriminate].
    destruct (_ || _); [| apply IH; assumption].
    apply IH; [exact Hrest |].
    apply origin_snoc; [exact Hd |].
    exists href0. split; [apply Hincl; left; reflexivity | exact Ea].
Qed.

Lemma unique_urls_Forall (P : str * str -> Prop)
    (discovered : list (str * str)) :
  Forall P discovered ->
  forall seen unique,
    Forall P unique -> Forall P (unique_urls discovered seen unique).
Proof.
  induction 1 as [| [source u] rest Hx Hrest IH]; intros seen unique Hu;
    cbn [unique_urls]; [exact Hu |].
  destruct (mem u seen); [apply IH, Hu |].
  apply IH. apply Forall_app. split; [exact Hu |].
  constructor; [exact Hx | constructor].
Qed.

Lemma unique_urls_NoDup (discovered : list (str * str)) :
  forall seen unique,
    (forall u, In u (map snd unique) -> In u seen) ->
    NoDup (map snd unique) ->
    NoDup (map snd (unique_urls discovered seen unique)).
Proof.
  induction discovered as [| [source u] rest IH]; intros seen unique Hs Hn;
    cbn [unique_urls]; [exact Hn |].
  destruct (mem u seen) eqn:Em; [apply IH; assumption |].
  assert (Hnot : ~ In u seen).
  { intro H. apply ResolveInvariants.mem_spec in H. congruence. }
  apply IH.
  - intros v Hv. rewrite map_app in Hv. apply in_app_or in Hv.
    destruct Hv as [Hv | [<- | []]]; [right; apply Hs, Hv | left; reflexivity].
  - rewrite map_app. apply CandidateFacts.NoDup_snoc; [exact Hn |].
    intro H. apply Hnot, Hs, H.
Qed.

Lemma with_priority_items (base_domain : str) (items : list (str * str)) :
  forall keyed,
    with_priority W base_domain items = Some keyed ->
    map snd keyed = items.
Proof.
  induction items as [| item rest IH]; intro keyed; cbn [with_priority].
  - intros [= <-]. reflexivity.
  - destruct (priority W base_domain item) as [k |]; cbn [option_bind];
      [| discriminate].
    destruct (with_priority W base_domain rest) as [keyed' |];
      cbn [option_bind]; [| discriminate].
    intros [= <-]. cbn [map snd]. rewrite (IH keyed' eq_refl). reflexivity.
Qed.

Lemma discover_portal_urls_inv (html base_url intent : str)
    (urls : list str) :
  discover_portal_urls W E html base_url intent = Some urls ->
  exists unique : list (str * str),
    NoDup (map snd unique) /\
    Forall (fun d =>
              origin E base_url
                (soup_iframes E html ++ map fst (soup_anchors E html))
                (snd d)) unique /\
    exists sorted : list (Z * (str * str)),
      Permutation (map snd sorted) unique /\
      urls = firstn 5 (map snd (map snd sorted)).
Proof.
  unfold discover_portal_urls.
  destruct (urlparse W base_url) as [base |]; cbn [option_bind];
    [| discriminate].
  destruct (discover_iframes E base_url (soup_iframes E html) [])
    as [d1 |] eqn:E1; cbn [option_bind]; [| discriminate].
  destruct (discover_links W E base_url (replace_www (netloc base))
              (get_list intent INTENT_URL_PATTERNS) (soup_anchors E html) d1)
    as [d2 |] eqn:E2; cbn [option_bind]; [| discriminate].
  destruct (with_priority W (replace_www (netloc base))
              (unique_urls d2 [] [])) as [keyed |] eqn:E3;
    cbn [option_bind]; [| discriminate].
  intros [= <-].
  exists (unique_urls d2 [] []). split; [| split].
  - apply unique_urls_NoDup; [intros u [] | constructor].
  - apply unique_urls_Forall; [| constructor].
    eapply discover_links_origin; [| | exact E2].
    { apply incl_appr, incl_refl. }
    eapply discover_iframes_origin; [| | exact E1].
    { apply incl_appl, incl_refl. }
    constructor.
  - exists (sort priority_asc keyed). split.
    + rewrite <- (with_priority_items _ _ _ E3).
      apply Permutation_map, sort_perm.
    + rewrite map_map, firstn_map. reflexivity.
Qed.

Lemma scan_portals_inv (patterns : list str) (intent : str)
    (discovered_urls : list str) (page : page_record) :
  scan_portals W E patterns intent discovered_urls = Some page ->
  page_type page = intent /\
  In (source_url page) discovered_urls /\
  matches_intent patterns (source_url page) = true /\
  scrape_with_discovery W E (source_url page) intent =
    Some (content_text page) /\
  300 < length (content_text page).
Proof.
  induction discovered_urls as [| portal_url rest IH]; cbn [scan_portals];
    [discriminate |].
  assert (Hrest : scan_portals W E patterns intent rest = Some page ->
                  page_type page = intent /\
                  In (source_url page) (portal_url :: rest) /\
                  matches_intent patterns (source_url page) = true /\
                  scrape_with_discovery W E (source_url page) intent =
                    Some (content_text page) /\
                  300 < length (content_text page)).
  { intro H. destruct (IH H) as (H1 & H2 & H3). split; [exact H1 |].
    split; [right; exact H2 | exact H3]. }
  destruct (matches_intent patterns portal_url) eqn:Em; [| exact Hrest].
  destruct (scrape_with_discovery W E portal_url intent) as [content |]
    eqn:Es; [| exact Hrest].
  destruct (Nat.ltb_spec 300 (length content)) as [Hlen |]; [| exact Hrest].
  intros [= <-]. cbn [page_type source_url content_text].
  split; [reflexivity |]. split; [left; reflexivity |]. auto.
Qed.

Lemma probe_paths_inv (base_url intent : str) (paths : list str)
    (page : page_record) :
  probe_paths W E base_url intent paths = Returns (Some page) ->
  page_type page = intent /\
  (exists path, In path paths /\
                urljoin E base_url path = Some (source_url page)) /\
  scrape_with_discovery W E (source_url page) intent =
    Some (content_text page) /\
  300 < length (content_text page).
Proof.
  induction paths as [| path rest IH]; cbn [probe_paths]; [discriminate |].
  assert (Hrest : probe_paths W E base_url intent rest = Returns (Some page) ->
                  page_type page = intent /\
                  (exists p, In p (path :: rest) /\
                             urljoin E base_url p = Some (source_url page)) /\
                  scrape_with_discovery W E (source_url page) intent =
                    Some (content_text page) /\
                  300 < length (content_text page)).
  { intro H. destruct (IH H) as (H1 & (p & Hp & Hj) & H3).
    split; [exact H1 |]. split; [| exact H3].
    exists p. split; [right; exact Hp | exact Hj]. }
  destruct (urljoin E base_url path) as [url |] eqn:Ej; [| discriminate].
  destruct (scrape_with_discovery W E url intent) as [content |] eqn:Es;
    [| exact Hrest].
  destruct (Nat.ltb_spec 300 (length content)) as [Hlen |]; [| exact Hrest].
  intros [= <-]. cbn [page_type source_url content_text].
  split; [reflexivity |]. split; [| auto].
  exists path. split; [left; reflexivity | exact Ej].
Qed.

Lemma scan_portals_no_pattern (intent : str) (discovered_urls : list str) :
  scan_portals W E [] intent discovered_urls = None.
Proof.
  induction discovered_urls as [| portal_url rest IH]; [reflexivity |].
  cbn [scan_portals matches_intent existsb]. exact IH.
Qed.

Lemma tables_share_keys (intent : str) :
  mem intent (map fst INTENT_URL_PATTERNS) = false ->
  get_list intent INTENT_URL_PATTERNS = [] /\
  get_list intent INTENT_TO_PATHS = [].
Proof.
  unfold get_list, INTENT_URL_PATTERNS, INTENT_TO_PATHS, mem.
  cbn [map fst existsb lookup].
  intro H. repeat (apply orb_false_iff in H; destruct H as [? H]).
  repeat match goal with
         | Hk : str_eqb intent _ = false |- _ => rewrite Hk; clear Hk
         end.
  split; reflexivity.
Qed.

End Discovery.

(** X11.  The portal addresses that [discover_portal_urls] returns are at
    most five, no address occurs twice, and each one is the [src] of a frame
    or the [href] of a link of the page, made absolute against the address
    of the page. *)
Theorem portal_urls_distinct_at_most_five (W : world) (E : env)
    (html base_url intent : str) (urls : list str) :
  discover_portal_urls W E html base_url intent = Some urls ->
  length urls <= 5 /\
  NoDup urls /\
  Forall (origin E base_url
            (soup_iframes E html ++ map fst (soup_anchors E html))) urls.
Proof.
  intro H. apply discover_portal_urls_inv in H.
  destruct H as (unique & Hn & Ho & sorted & Hp & ->).
  assert (Hperm : Permutation (map snd (map snd sorted)) (map snd unique)).
  { apply Permutation_map, Hp. }
  split; [| split].
  - rewrite length_firstn. lia.
  - apply CandidateFacts.NoDup_firstn_of.
    apply (Permutation_NoDup (Permutation_sym Hperm)), Hn.
  - apply Forall_forall. intros u Hu. apply in_firstn in Hu.
    apply (Permutation_in _ Hperm) in Hu.
    apply in_map_iff in Hu. destruct Hu as (d & <- & Hd).
    rewrite Forall_forall in Ho. apply Ho, Hd.
Qed.

Lemma portal_urls_distinct_at_most_five_witness :
  let urls :=
    [ "https://stats.abc.ac.in/embed" : str;
      "https://www.abc.ac.in/placements" : str;
      "https://ocs.abc.ac.in/" : str ] in
  length urls <= 5 /\
  NoDup urls /\
  Forall (origin linked_env college_site
            (soup_iframes linked_env short_page ++
             map fst (soup_anchors linked_env short_page))) urls.
Proof.
  apply (portal_urls_distinct_at_most_five online linked_env short_page
           college_site "placements").
  vm_compute. reflexivity.
Defined.

(** X12.  When [scrape_with_discovery] returns a text, the page loaded with
    a status below 400, the text has at least 100 characters, it is never
    shorter than the text of the page itself, and it is the text of the page
    itself when that has 500 characters or more: the portals are looked at
    only for a shorter page. *)
Theorem scraped_text_result (W : world) (E : env)
    (url intent content : str) :
  scrape_with_discovery W E url intent = Some content ->
  exists status html,
    page_goto E url = Loaded status html /\
    (status < 400)%Z /\
    100 <= length content /\
    length (extract_text_content E html) <= length content /\
    (500 <= length (extract_text_content E html) ->
     content = extract_text_content E html).
Proof.
  unfold scrape_with_discovery.
  destruct (page_goto E url) as [| status html]; [discriminate |].
  destruct (Z.leb_spec 400 status) as [| Hs]; [discriminate |].
  intro H. exists status, html. split; [reflexivity |].
  split; [exact Hs |].
  destruct (Nat.ltb_spec (length (extract_text_content E html)) 500)
    as [Hlt | Hge].
  - destruct (discover_portal_urls W E html url intent) as [urls |];
      cbn [option_bind] in H; [| discriminate].
    destruct (Nat.ltb_spec
                (length (try_portals E urls (extract_text_content E html)))
                100) as [| Hlen]; [discriminate |].
    injection H as <-. split; [exact Hlen |].
    split; [apply ScraperFacts.try_portals_grows | lia].
  - cbn [option_bind] in H.
    destruct (Nat.ltb_spec (length (extract_text_content E html)) 100)
      as [| Hlen]; [discriminate |].
    injection H as <-. split; [exact Hlen |]. split; [lia | reflexivity].
Qed.


Lemma scraped_text_result_witness :
  exists status html,
    page_goto (plain_text_env with_fees_page)
      (college_site ++ ("/fees" : str)) = Loaded status html /\
    (status < 400)%Z /\
    100 <= length fees_page /\
    length (extract_text_content (plain_text_env with_fees_page) html) <=
      length fees_page /\
    (500 <= length (extract_text_content (plain_text_env with_fees_page) html)
     -> fees_page = extract_text_content (plain_text_env with_fees_page) html).
Proof.
  apply (scraped_text_result online (plain_text_env with_fees_page)
           (college_site ++ ("/fees" : str)) "fees" fees_page).
  vm_compute. reflexivity.
Defined.

(** X13.  A record that [scrape_for_intent] returns holds the text that
    [scrape_with_discovery] gives for the address of the record.  Either it
    carries the topic as its type and more than 300 characters, and its
    address is one of the portals discovered on the loaded homepage that
    matches a pattern of the topic, or a standard path of the topic joined
    to the base address; or it is the base page, typed "general", with more
    than 200 characters. *)
Theorem scrape_for_intent_record (W : world) (E : env)
    (base_url intent : str) (page : page_record) :
  scrape_for_intent W E base_url intent = Returns (Some page) ->
  scrape_with_discovery W E (source_url page) intent =
    Some (content_text page) /\
  ((page_type page = intent /\
    300 < length (content_text page) /\
    ((exists status html discovered_urls,
        page_goto E base_url = Loaded status html /\
        discover_portal_urls W E html base_url intent =
          Some discovered_urls /\
        In (source_url page) discovered_urls /\
        matches_intent (get_list intent INTENT_URL_PATTERNS)
          (source_url page) = true) \/
     exists path,
       In path (get_list intent INTENT_TO_PATHS) /\
       urljoin E base_url path = Some (source_url page))) \/
   (page_type page = ("general" : str) /\
    source_url page = base_url /\
    200 < length (content_text page))).
Proof.
  unfold scrape_for_intent.
  destruct (homepage_scan W E base_url intent) as [found |] eqn:Eh.
  - intros [= <-]. unfold homepage_scan in Eh.
    destruct (page_goto E base_url) as [| status html] eqn:Eg;
      [discriminate |].
    destruct (discover_portal_urls W E html base_url intent) as [urls |]
      eqn:Ed; [| discriminate].
    apply scan_portals_inv in Eh. destruct Eh as (H1 & H2 & H3 & H4 & H5).
    split; [exact H4 |]. left. split; [exact H1 |]. split; [exact H5 |].
    left. exists status, html, urls. auto.
  - destruct (probe_paths W E base_url intent
                (get_list intent INTENT_TO_PATHS)) as [| [found |]] eqn:Ep;
      [discriminate | |].
    + intros [= <-]. apply probe_paths_inv in Ep.
      destruct Ep as (H1 & H2 & H3 & H4).
      split; [exact H3 |]. left. auto.
    + destruct (scrape_with_discovery W E base_url intent) as [content |]
        eqn:Es; [| discriminate].
      destruct (Nat.ltb_spec 200 (length content)) as [Hlen |];
        [| discriminate].
      intros [= <-]. cbn [page_type source_url content_text].
      split; [exact Es |]. right. auto.
Qed.

Lemma scrape_for_intent_record_witness :
  let E := plain_text_env with_fees_page in
  let page := mk_page "fees" fees_page (college_site ++ ("/fees" : str)) in
  scrape_with_discovery online E (source_url page) "fees" =
    Some (content_text page) /\
  ((page_type page = ("fees" : str) /\
    300 < length (content_text page) /\
    ((exists status html discovered_urls,
        page_goto E college_site = Loaded status html /\
        discover_portal_urls online E html college_site "fees" =
          Some discovered_urls /\
        In (source_url page) discovered_urls /\
        matches_intent (get_list "fees" INTENT_URL_PATTERNS)
          (source_url page) = true) \/
     exists path,
       In path (get_list "fees" INTENT_TO_PATHS) /\
       urljoin E college_site path = Some (source_url page))) \/
   (page_type page = ("general" : str) /\
    source_url page = college_site /\
    200 < length (content_text page))).
Proof.
  apply (scrape_for_intent_record online (plain_text_env with_fees_page)
           college_site "fees"
           (mk_page "fees" fees_page (college_site ++ ("/fees" : str)))).
  vm_compute. reflexivity.
Defined.

(** X14.  For a topic that is not a key of the pattern table ("academics",
    "contact", "general", ...) neither table has an entry.  When the base
    page loads, [scrape_for_intent] scrapes no portal and no standard path
    for such a topic: its answer is the base page typed "general" when
    [scrape_with_discovery] gives more than 200 characters for the base
    address, and none otherwise. *)
Theorem topic_without_paths (W : world) (E : env) (base_url intent : str)
    (status : Z) (html : str) :
  page_goto E base_url = Loaded status html ->
  mem intent (map fst INTENT_URL_PATTERNS) = false ->
  get_list intent INTENT_URL_PATTERNS = [] /\
  get_list intent INTENT_TO_PATHS = [] /\
  scrape_for_intent W E base_url intent =
    Returns
      match scrape_with_discovery W E base_url intent with
      | Some content =>
          if 200 <? length content
          then Some (mk_page "general" content base_url)
          else None
      | None => None
      end.
Proof.
  intros Hload H. destruct (tables_share_keys intent H) as [Hp Hq].
  split; [exact Hp |]. split; [exact Hq |].
  unfold scrape_for_intent, homepage_scan. rewrite Hp, Hq, Hload.
  assert (Hscan : match discover_portal_urls W E html base_url intent with
                  | Some discovered_urls =>
                      scan_portals W E [] intent discovered_urls
                  | None => None
                  end = None).
  { destruct (discover_portal_urls W E html base_url intent);
      [apply scan_portals_no_pattern | reflexivity]. }
  rewrite Hscan. cbn [probe_paths].
  destruct (scrape_with_discovery W E base_url intent) as [content |];
    [| reflexivity].
  destruct (200 <? length content); reflexivity.
Qed.

Lemma topic_without_paths_witness :
  get_list "contact" INTENT_URL_PATTERNS = [] /\
  get_list "contact" INTENT_TO_PATHS = [] /\
  scrape_for_intent online (plain_text_env (homepage_only 200 short_page))
    college_site "contact" =
  Returns
    match
      scrape_with_discovery online
        (plain_text_env (homepage_only 200 short_page)) college_site
        "contact"
    with
    | Some content =>
        if 200 <? length content
        then Some (mk_page "general" content college_site)
        else None
    | None => None
    end.
Proof.
  apply (topic_without_paths online
           (plain_text_env (homepage_only 200 short_page))
           college_site "contact" 200 short_page);
    vm_compute; reflexivity.
Defined.

(** X16.  For a page whose text, as the parser gives it, is written in
    ASCII: the text that [extract_text_content] returns is made of the lines
    the comprehension keeps, each one stripped, free of line breaks and
    longer than three characters, joined by single newlines; the
    substitution of runs of three or more newlines never changes it.  The
    joined text is returned whole when it fits the limit of 12000
    characters, and cut to the limit with "..." appended when it does
    not. *)
Theorem extracted_text_lines (E : env) (html : str) :
  is_ascii (soup_text E html) = true ->
  let lines := clean_lines (soup_text E html) in
  let joined := join [newline] lines in
  Forall good_line lines /\
  collapse_newlines 0 joined = joined /\
  extract_text_content E html =
    if (CONTENT_LIMIT <? len joined)%Z
    then firstn (Z.to_nat CONTENT_LIMIT) joined ++ ("..." : str)
    else joined.
Proof.
  intros _. cbv zeta.
  assert (Hgood := ExtractFacts.clean_lines_good (soup_text E html)).
  split; [exact Hgood |]. split.
  - exact (ExtractFacts.collapse_join _
             (ExtractFacts.good_lines_split _ Hgood) 0 ltac:(lia)).
  - unfold extract_text_content.
    exact (ExtractFacts.normalize_text_cases (soup_text E html)).
Qed.

Lemma extracted_text_lines_witness :
  let E := plain_text_env unreachable in
  let lines := clean_lines (soup_text E fee_lines) in
  let joined := join [newline] lines in
  Forall good_line lines /\
  collapse_newlines 0 joined = joined /\
  extract_text_content E fee_lines =
    if (CONTENT_LIMIT <? len joined)%Z
    then firstn (Z.to_nat CONTENT_LIMIT) joined ++ ("..." : str)
    else joined.
Proof.
  apply (extracted_text_lines (plain_text_env unreachable) fee_lines).
  vm_compute. reflexivity.
Defined.

End ScrapeInvariants.

(** * The aggregator fallback against the exclusion list *)

Module FallbackFacts.
Import Py PyList Search Scraper PyFacts PyListFacts Examples Props
  MoreExamples.

Section Fallback.
Variable W : world.
Variable E : env.

(** A link kept of an answer of one of the two back ends of the fallback
    never passes the test for an aggregator: its scheme is "http" or
    "https" and its network location holds no excluded name, the names of
    the three aggregators among them. *)
Lemma kept_root_irrelevant (queries : list str) (query intent u : str) :
  web_schemes W queries ->
  In query queries ->
  kept_root W DuckDuckGoLite query u \/ kept_root W SearXNG query u ->
  relevant_link intent u = false.
Proof.
  intros Hweb Hq Hu.
  assert (H : exists raw parsed,
             (answered W DuckDuckGoLite query raw \/
              answered W SearXNG query raw) /\
             startswith raw "http" = true /\
             urlparse W raw = Some parsed /\
             is_excluded_domain (netloc parsed) = false /\
             u = site_root parsed).
  { destruct Hu as [(raw & parsed & H1 & H2 & H3 & H4 & H5)
                   | (raw & parsed & H1 & H2 & H3 & H4 & H5)];
      exists raw, parsed; auto 6. }
  destruct H as (raw & parsed & Ha & Hh & Hp & Hx & ->).
  apply AggregatorFacts.aggregator_links_dropped; [| exact Hx].
  exact (Hweb query raw parsed Hq Ha Hh Hp).
Qed.

Lemma first_relevant_none (queries : list str) (query intent : str) :
  web_schemes W queries ->
  In query queries ->
  first_relevant intent (value (query_results W query)) = None.
Proof.
  intros Hweb Hq. unfold first_relevant.
  assert (H := ResolveClaims.query_results_rooted W query).
  induction H as [| r rest Hr _ IH]; [reflexivity |].
  cbn [find].
  rewrite (kept_root_irrelevant queries query intent _ Hweb Hq Hr).
  exact IH.
Qed.

Lemma fallback_value (college_name intent : str) :
  web_schemes W (search_queries college_name intent) ->
  value (scrape_from_aggregators W E college_name intent) = None.
Proof.
  intro Hweb. unfold scrape_from_aggregators.
  destruct (negb (mem intent AGGREGATOR_INTENTS)); [reflexivity |].
  unfold bind, ret, value.
  assert (H := AggregatorFacts.find_aggregator_url_value W intent
                 (search_queries college_name intent)).
  unfold value in H.
  destruct (find_aggregator_url W intent (search_queries college_name intent))
    as [found log]. cbn [fst] in *.
  rewrite H, (AggregatorFacts.first_hit_none W); [reflexivity |].
  intros query Hq.
  exact (first_relevant_none _ query intent Hweb Hq).
Qed.

End Fallback.

(** In the world [aggregator_answer] every answered link is the fee page of
    the aggregator, whose scheme is "https". *)
Lemma aggregator_answer_schemes (queries : list str) :
  web_schemes aggregator_answer queries.
Proof.
  intros query raw parsed _ Ha _ Hp.
  assert (Hraw : raw =
            ("https://www.shiksha.com/college/abc-college-fees" : str)).
  { destruct Ha as [(items & title0 & Hi & Hin)
                   | (instance & items & title0 & _ & Hi & _)];
      [| discriminate Hi].
    cbn in Hi. injection Hi as <-.
    destruct Hin as [Hin | []]. injection Hin as <- _. reflexivity. }
  subst raw. cbn [urlparse aggregator_answer] in Hp.
  vm_compute in Hp. injection Hp as <-. right. reflexivity.
Qed.

(** X15.  When the links that DuckDuckGo Lite and SearXNG answer to the
    site-restricted queries have the scheme "http" or "https",
    [scrape_from_aggregators] returns none for every college and every
    topic: both providers cut each link to its scheme and network location
    and drop the hosts of the exclusion list, which names the three
    aggregators, so no link that reaches the test for an aggregator name
    passes it. *)
Theorem aggregator_fallback_finds_nothing (W : world) (E : env)
    (college_name intent : str) :
  web_schemes W (search_queries college_name intent) ->
  value (scrape_from_aggregators W E college_name intent) = None.
Proof. intro H. apply fallback_value, H. Qed.

Lemma aggregator_fallback_finds_nothing_witness :
  value (scrape_from_aggregators aggregator_answer
           (plain_text_env unreachable) "ABC College" "fees") = None.
Proof.
  apply (aggregator_fallback_finds_nothing aggregator_answer
           (plain_text_env unreachable) "ABC College" "fees").
  exact (aggregator_answer_schemes (search_queries "ABC College" "fees")).
Defined.

End FallbackFacts.

(** * [app/routers/chat.py]: more on the adequacy check *)

Module AdequacyFacts.
Import Py Re Chat ReFacts PyFacts.

Lemma digits1_digit (s : str) :
  matches digits1 s -> exists c, In c s /\ is_digit c = true.
Proof.
  intro H. apply cat_inv in H. destruct H as (s1 & s2 & -> & H1 & _).
  inversion H1; subst. exists c. split; [left; reflexivity | assumption].
Qed.

Lemma placements_digit (m : str) :
  matches placements_re m -> exists c, In c m /\ is_digit c = true.
Proof.
  unfold placements_re. cbn [Seq]. intro H.
  apply cat_inv in H. destruct H as (s1 & s2 & -> & H1 & _).
  destruct (digits1_digit s1 H1) as (c & Hc & Hd).
  exists c. split; [apply in_or_app; left; exact Hc | exact Hd].
Qed.

Lemma fees_digit (m : str) :
  matches fees_re m -> exists c, In c m /\ is_digit c = true.
Proof.
  unfold fees_re, fees_amount_re, fees_period_re. cbn [Seq]. intro H.
  inversion H as [| | | ? ? ? Hl | ? ? ? Hr | |]; subst.
  - apply cat_inv in Hl. destruct Hl as (s1 & s2 & -> & _ & H2).
    apply cat_inv in H2. destruct H2 as (s3 & s4 & -> & _ & H4).
    destruct (digits1_digit s4 H4) as (c & Hc & Hd).
    exists c. split; [| exact Hd].
    apply in_or_app. right. apply in_or_app. right. exact Hc.
  - apply cat_inv in Hr. destruct Hr as (s1 & s2 & -> & H1 & _).
    apply cat_inv in H1. destruct H1 as (s3 & s4 & -> & H3 & _).
    destruct (digits1_digit s3 H3) as (c & Hc & Hd).
    exists c. split; [| exact Hd].
    apply in_or_app. left. apply in_or_app. left. exact Hc.
Qed.

Lemma lower_char_digit (c : ascii) :
  is_digit (lower_char c) = true -> is_digit c = true.
Proof.
  destruct c as [[] [] [] [] [] [] [] []]; vm_compute; auto.
Qed.

Lemma search_digit (r : regex) (content : str) :
  (forall m, matches r m -> exists c, In c m /\ is_digit c = true) ->
  Forall (fun c => is_digit c = false) content ->
  search r (lower content) = false.
Proof.
  intros Hr Hc. apply not_true_is_false. intro H.
  apply search_spec in H. destruct H as (pre & m & post & E & Hm).
  destruct (Hr m Hm) as (c & Hin & Hd).
  assert (Hl : In c (lower content)).
  { rewrite E. apply in_or_app. right. apply in_or_app. left. exact Hin. }
  unfold lower in Hl. apply in_map_iff in Hl.
  destruct Hl as (c0 & <- & H0).
  apply lower_char_digit in Hd. rewrite Forall_forall in Hc.
  rewrite (Hc c0 H0) in Hd. discriminate.
Qed.

Lemma search_grows (r : regex) (pre s post : str) :
  search r s = true -> search r (pre ++ s ++ post) = true.
Proof.
  rewrite !search_spec. intros (a & m & b & -> & Hm).
  exists (pre ++ a), m, (b ++ post). split; [| exact Hm].
  rewrite <- !app_assoc. reflexivity.
Qed.

(** X17.  A text written in ASCII that holds none of the digits 0 to 9 is
    never adequate for the topics "placements" and "fees": each
    alternative of both patterns needs at least one digit. *)
Theorem no_digit_no_specific_data (content : str) :
  is_ascii content = true ->
  Forall (fun c => is_digit c = false) content ->
  has_specific_data content "placements" = false /\
  has_specific_data content "fees" = false.
Proof.
  intros _ H. split.
  - change (search placements_re (lower content) = false).
    apply search_digit; [exact placements_digit | exact H].
  - change (search fees_re (lower content) = false).
    apply search_digit; [exact fees_digit | exact H].
Qed.

Lemma no_digit_no_specific_data_witness :
  has_specific_data "Highest package: several lakhs per annum" "placements"
    = false /\
  has_specific_data "Highest package: several lakhs per annum" "fees"
    = false.
Proof.
  apply (no_digit_no_specific_data
           "Highest package: several lakhs per annum").
  - reflexivity.
  - repeat constructor.
Defined.

(** X18.  The adequacy check does not depend on the case of the text, and
    a text that contains an adequate text is adequate: text placed before
    or after never turns an accepted text into a rejected one. *)
Theorem specific_data_stable :
  (forall content intent : str,
     has_specific_data (lower content) intent =
     has_specific_data content intent) /\
  (forall pre content post intent : str,
     has_specific_data content intent = true ->
     has_specific_data (pre ++ content ++ post) intent = true).
Proof.
  split.
  - intros content intent. unfold has_specific_data.
    rewrite CandidateFacts.lower_idem. reflexivity.
  - intros pre content post intent. unfold has_specific_data.
    rewrite !lower_app.
    destruct (str_eqb intent "placements"); [apply search_grows |].
    destruct (str_eqb intent "fees"); [apply search_grows | reflexivity].
Qed.

End AdequacyFacts.

(** * [app/services/llm.py]: keyword topics and the content sent along *)

Module LlmFacts.
Import Py PyList Search Scraper Llm PyFacts Props.

(** ** [detect_intent] *)

Lemma matching_intents_grows (table : dict (list str)) (pre q post i : str) :
  In i (matching_intents table q) ->
  In i (matching_intents table (pre ++ q ++ post)).
Proof.
  unfold matching_intents. rewrite !in_map_iff.
  intros (entry & <- & H). exists entry. split; [reflexivity |].
  apply filter_In in H. destruct H as [Hin Hk]. apply filter_In.
  split; [exact Hin |].
  apply existsb_exists in Hk. destruct Hk as (keyword & Hkw & Hc).
  apply existsb_exists. exists keyword. split; [exact Hkw |].
  apply AggregatorFacts.contains_spec in Hc. destruct Hc as (a & b & ->).
  apply AggregatorFacts.contains_spec. exists (pre ++ a), (b ++ post).
  rewrite <- !app_assoc. reflexivity.
Qed.

Lemma detect_intent_cases (question : str) :
  let found := matching_intents INTENT_KEYWORDS (lower question) in
  (found = [] /\
   detect_intent question = [ "about" : str; "general" : str ]) \/
  (found <> [] /\ detect_intent question = found).
Proof.
  cbv zeta. unfold detect_intent.
  destruct (matching_intents INTENT_KEYWORDS (lower question)) as [| i l];
    [left | right]; split; try reflexivity. discriminate.
Qed.

Lemma matching_in_table_order (question_lower : str) :
  let found := matching_intents INTENT_KEYWORDS question_lower in
  NoDup found /\
  found = filter (fun k => mem k found) (map fst INTENT_KEYWORDS).
Proof.
  cbv zeta. unfold matching_intents, INTENT_KEYWORDS.
  cbn [filter snd].
  repeat match goal with
         | |- context [existsb ?f ?l] =>
             let b := fresh "b" in
             generalize (existsb f l); intro b; destruct b
         end;
    (split; [repeat constructor; cbn; intuition discriminate
            | vm_compute; reflexivity]).
Qed.

(** X19.  [detect_intent] never returns an empty list.  It returns either
    the default, "about" then "general", or topics of the keyword table,
    each once and in the order of the table.  Its answer does not depend on
    the case of the question, and a topic found in a question is found in
    every question that contains it. *)
Theorem detect_intent_topics (question : str) :
  let intents := detect_intent question in
  intents <> [] /\
  NoDup intents /\
  (intents = [ "about" : str; "general" : str ] \/
   intents = filter (fun k => mem k intents) (map fst INTENT_KEYWORDS)) /\
  detect_intent (lower question) = intents /\
  (forall pre post i : str,
     intents <> [ "about" : str; "general" : str ] ->
     In i intents -> In i (detect_intent (pre ++ question ++ post))).
Proof.
  cbv zeta.
  destruct (matching_in_table_order (lower question)) as [Hn Ho].
  destruct (detect_intent_cases question) as [[Hf Hd] | [Hf Hd]].
  - rewrite Hd. split; [discriminate |].
    split; [repeat constructor; cbn; intuition discriminate |].
    split; [left; reflexivity |].
    split; [| intros pre post i Hne; congruence].
    unfold detect_intent in *. rewrite CandidateFacts.lower_idem.
    exact Hd.
  - split; [rewrite Hd; exact Hf |].
    split; [rewrite Hd; exact Hn |].
    split; [right; rewrite Hd; exact Ho |].
    split.
    + unfold detect_intent. rewrite CandidateFacts.lower_idem. reflexivity.
    + intros pre post i _ Hi. rewrite Hd in Hi.
      assert (Hg : In i (matching_intents INTENT_KEYWORDS
                           (lower (pre ++ question ++ post)))).
      { rewrite !lower_app. apply matching_intents_grows, Hi. }
      destruct (detect_intent_cases (pre ++ question ++ post))
        as [[Hf' _] | [_ Hd']].
      * rewrite Hf' in Hg. destruct Hg.
      * rewrite Hd'. exact Hg.
Qed.

(** ** [get_relevant_content] *)

Lemma page_eqb_eq (p q : page_record) : page_eqb p q = true -> p = q.
Proof.
  unfold page_eqb. rewrite !andb_true_iff, !str_eqb_eq.
  destruct p, q. cbn. intros [[-> ->] ->]. reflexivity.
Qed.

Lemma add_matching_incl (intent : str) (pages all : list page_record) :
  incl pages all ->
  forall relevant,
    incl relevant all -> incl (add_matching intent pages relevant) all.
Proof.
  induction pages as [| page rest IH]; intros Hp relevant Hr;
    cbn [add_matching]; [exact Hr |].
  assert (Hrest : incl rest all) by (intros x Hx; apply Hp; right; exact Hx).
  destruct (_ && _); [| apply IH; assumption].
  apply IH; [exact Hrest |]. apply incl_app; [exact Hr |].
  intros x [<- | []]. apply Hp. left. reflexivity.
Qed.

Lemma add_intents_incl (intents : list str) (pages : list page_record) :
  forall relevant,
    incl relevant pages -> incl (add_intents intents pages relevant) pages.
Proof.
  induction intents as [| intent rest IH]; intros relevant Hr;
    cbn [add_intents]; [exact Hr |].
  apply IH, add_matching_incl; [apply incl_refl | exact Hr].
Qed.

Lemma add_general_incl (pages all : list page_record) :
  incl pages all ->
  forall relevant,
    incl relevant all -> incl (add_general pages relevant) all.
Proof.
  induction pages as [| page rest IH]; intros Hp relevant Hr;
    cbn [add_general]; [exact Hr |].
  assert (Hrest : incl rest all) by (intros x Hx; apply Hp; right; exact Hx).
  destruct (_ && _); [| apply IH; assumption].
  apply IH; [exact Hrest |]. apply incl_app; [exact Hr |].
  intros x [<- | []]. apply Hp. left. reflexivity.
Qed.

Lemma relevant_pages_incl (pages : list page_record) (intents : list str) :
  incl (relevant_pages pages intents) pages.
Proof.
  unfold relevant_pages.
  assert (H : incl (add_general pages (add_intents intents pages [])) pages).
  { apply add_general_incl; [apply incl_refl |].
    apply add_intents_incl. intros x []. }
  destruct (_ && _); [| exact H].
  apply incl_app; [exact H | apply incl_refl].
Qed.

Lemma relevant_pages_nonempty (pages : list page_record)
    (intents : list str) :
  pages <> [] -> relevant_pages pages intents <> [].
Proof.
  intro Hp. unfold relevant_pages.
  destruct (add_general pages (add_intents intents pages [])) as [| r l];
    [| discriminate].
  destruct pages as [| page rest]; [congruence | discriminate].
Qed.

Lemma taken_chars_snoc (taken : list (page_record * str))
    (t : page_record * str) :
  taken_chars (taken ++ [t]) = (taken_chars taken + len (snd t))%Z.
Proof.
  unfold taken_chars. induction taken as [| x l IH]; cbn [app fold_right];
    cbv beta; [apply Z.add_comm | rewrite IH; apply Z.add_assoc].
Qed.

Lemma take_page_describes (all : list page_record) (limit : Z) (b : built)
    (taken : list (page_record * str)) (page : page_record) (chunk : str) :
  describes all limit b taken ->
  taken_from all (page, chunk) ->
  (total_chars b + len chunk <= limit)%Z ->
  describes all limit (take_page page chunk b) (taken ++ [(page, chunk)]).
Proof.
  intros (H1 & H2 & H3 & H4 & H5) Ht Hl. unfold describes, take_page.
  cbn [content_parts total_chars all_sources].
  rewrite taken_chars_snoc, map_app, H1, H2. cbn [map fst snd].
  split; [reflexivity |]. split; [reflexivity |].
  split; [rewrite <- H2; lia |].
  split; [apply Forall_app; split; [exact H4 | constructor; [exact Ht |]];
          constructor |].
  destruct (source_url page) as [| c u] eqn:Eu; cbn [nonempty];
    [exact H5 |].
  apply Forall_app. split; [exact H5 |]. constructor; [| constructor].
  exists page. destruct Ht as [Hin _]. cbn [fst] in Hin.
  split; [exact Hin |]. rewrite Eu. split; [reflexivity | discriminate].
Qed.

Lemma build_content_describes (all : list page_record) (limit : Z)
    (pages : list page_record) :
  incl pages all ->
  forall b taken,
    describes all limit b taken ->
    exists taken', describes all limit (build_content limit pages b) taken'.
Proof.
  induction pages as [| page rest IH]; intros Hp b taken Hb;
    cbn [build_content]; [eauto |].
  assert (Hrest : incl rest all) by (intros x Hx; apply Hp; right; exact Hx).
  assert (Hin : In page all) by (apply Hp; left; reflexivity).
  cbv zeta.
  destruct (Z.ltb_spec limit (total_chars b + len (content_text page)))
    as [Hover | Hfits].
  - destruct (Z.ltb_spec 500 (limit - total_chars b)) as [Hroom |];
      [| eauto].
    apply (IH Hrest _ (taken ++
             [(page, slice_to (limit - total_chars b) (content_text page))])).
    apply take_page_describes; [exact Hb | |].
    + split; [exact Hin |]. cbn [fst snd].
      exists (skipn (Z.to_nat (limit - total_chars b)) (content_text page)).
      unfold slice_to. destruct (Z.leb_spec 0 (limit - total_chars b));
        [| lia].
      symmetry. apply firstn_skipn.
    + assert (H := ResolveInvariants.slice_to_length
                     (limit - total_chars b) (content_text page)).
      lia.
  - apply (IH Hrest _ (taken ++ [(page, content_text page)])).
    apply take_page_describes; [exact Hb | | exact Hfits].
    split; [exact Hin |]. exists []. cbn [fst snd].
    rewrite app_nil_r. reflexivity.
Qed.

Lemma build_content_keeps (limit : Z) (pages : list page_record) :
  forall b part parts s,
    content_parts b = part :: parts ->
    primary_source b = Some s ->
    let b' := build_content limit pages b in
    (exists parts', content_parts b' = part :: parts') /\
    primary_source b' = Some s.
Proof.
  induction pages as [| page rest IH]; intros b part parts s Hc Hs;
    cbn [build_content]; cbv zeta; [eauto |].
  destruct (_ <? _)%Z.
  - destruct (_ <? _)%Z; [| eauto].
    eapply IH.
    + cbn [take_page content_parts]. rewrite Hc. reflexivity.
    + cbn [take_page primary_source]. rewrite Hs. reflexivity.
  - eapply IH.
    + cbn [take_page content_parts]. rewrite Hc. reflexivity.
    + cbn [take_page primary_source]. rewrite Hs. reflexivity.
Qed.

Lemma build_content_first (limit : Z) (page : page_record)
    (rest : list page_record) :
  (500 < limit)%Z ->
  let b := build_content limit (page :: rest) (mk_built [] 0 None []) in
  (exists chunk parts, content_parts b = part_of page chunk :: parts) /\
  primary_source b = Some (page_type page, source_url page).
Proof.
  intro Hl. cbn [build_content total_chars]. cbv zeta.
  destruct (_ <? _)%Z.
  - replace (500 <? limit - 0)%Z with true
      by (symmetry; apply Z.ltb_lt; lia).
    destruct (build_content_keeps limit rest
                (take_page page (slice_to (limit - 0) (content_text page))
                   (mk_built [] 0 None []))
                (part_of page (slice_to (limit - 0) (content_text page))) []
                (page_type page, source_url page) eq_refl eq_refl)
      as [(parts & H1) H2].
    split; [eauto | exact H2].
  - destruct (build_content_keeps limit rest
                (take_page page (content_text page) (mk_built [] 0 None []))
                (part_of page (content_text page)) []
                (page_type page, source_url page) eq_refl eq_refl)
      as [(parts & H1) H2].
    split; [eauto | exact H2].
Qed.

Lemma join_head (sep part : str) (parts : list str) :
  part <> [] -> join sep (part :: parts) <> [].
Proof.
  intro H. cbn [join]. destruct parts; [exact H |].
  destruct part; [congruence | discriminate].
Qed.

Lemma start_describes (all : list page_record) (limit : Z) :
  describes all limit (mk_built [] 0 None []) [].
Proof.
  unfold describes. cbn. repeat split; try constructor. lia.
Qed.

(** X21.  The content that [get_relevant_content] returns is made of
    leading pieces of the texts of given pages, each under its heading and
    the parts joined by a blank line; the pieces together never have more
    characters than four times [max_tokens]. *)
Theorem content_within_budget (pages : list page_record)
    (intents : list str) (max_tokens : Z) :
  exists taken : list (page_record * str),
    fst (fst (fst (get_relevant_content pages intents max_tokens))) =
      join [newline; newline]
        (map (fun t => part_of (fst t) (snd t)) taken) /\
    Forall (taken_from pages) taken /\
    (taken_chars taken <= Z.max 0 (max_tokens * 4))%Z.
Proof.
  destruct (build_content_describes pages (max_tokens * 4)
              (relevant_pages pages intents)
              (relevant_pages_incl pages intents) _ []
              (start_describes pages (max_tokens * 4)))
    as (taken & H1 & _ & H3 & H4 & _).
  exists taken. unfold get_relevant_content. cbn [fst].
  rewrite H1. auto.
Qed.

(** X20.  Every source that [get_relevant_content] lists is the type and
    the address of a given page with a non-empty address.  Without pages
    the answer is the empty content of type "general" without sources.
    With at least one page and a budget of more than 500 characters the
    content is not empty and the primary source is a given page: its
    address, and its type, or "general" when that type is empty. *)
Theorem content_sources (pages : list page_record) (intents : list str)
    (max_tokens : Z) :
  let '(content, source_type, primary_url, sources) :=
    get_relevant_content pages intents max_tokens in
  Forall (fun s => exists page,
            In page pages /\ s = (page_type page, source_url page) /\
            source_url page <> []) sources /\
  (pages = [] ->
   content = [] /\ source_type = ("general" : str) /\
   primary_url = None /\ sources = []) /\
  (pages <> [] -> (500 < max_tokens * 4)%Z ->
   content <> [] /\
   exists page,
     In page pages /\ primary_url = Some (source_url page) /\
     source_type =
       if nonempty (page_type page) then page_type page
       else ("general" : str)).
Proof.
  unfold get_relevant_content. cbv zeta.
  split; [| split].
  - destruct (build_content_describes pages (max_tokens * 4)
                (relevant_pages pages intents)
                (relevant_pages_incl pages intents) _ []
                (start_describes pages (max_tokens * 4)))
      as (taken & _ & _ & _ & _ & H5).
    exact H5.
  - intros ->.
    assert (Hnone : relevant_pages [] intents = []).
    { assert (H := relevant_pages_incl [] intents).
      destruct (relevant_pages [] intents) as [| page rest];
        [reflexivity |].
      destruct (H page (or_introl eq_refl)). }
    rewrite Hnone. cbn. repeat split.
  - intros Hp Hl.
    assert (Hincl := relevant_pages_incl pages intents).
    assert (Hne := relevant_pages_nonempty pages intents Hp).
    destruct (relevant_pages pages intents) as [| page rest]; [congruence |].
    destruct (build_content_first (max_tokens * 4) page rest Hl)
      as [(chunk & parts & H1) H2].
    rewrite H1, H2. split.
    + apply join_head. discriminate.
    + exists page. split; [apply Hincl; left; reflexivity |].
      split; reflexivity.
Qed.

End LlmFacts.

(** * [app/services/scraper.py]: link relevance and page types *)

Module StaticScraperFacts.
Import Py PyList Search StaticScraper PyFacts.

Lemma first_page_type_general (table : dict (list str)) (url_lower : str) :
  Forall (fun entry => fst entry <> ("general" : str)) table ->
  (first_page_type table url_lower = ("general" : str) <->
   existsb (fun keyword => contains keyword url_lower)
     (flat_map snd table) = false).
Proof.
  induction 1 as [| [page_type patterns] rest Hk _ IH];
    cbn [first_page_type flat_map snd]; [tauto |].
  rewrite existsb_app, orb_false_iff.
  destruct (existsb (fun pattern => contains pattern url_lower) patterns).
  - cbn [fst] in Hk. split; [congruence | intros [H _]; discriminate].
  - rewrite IH. tauto.
Qed.

Lemma first_page_type_key (table : dict (list str)) (url_lower : str) :
  first_page_type table url_lower = ("general" : str) \/
  In (first_page_type table url_lower) (map fst table).
Proof.
  induction table as [| [page_type patterns] rest IH];
    cbn [first_page_type map fst]; [left; reflexivity |].
  destruct (existsb _ patterns); [right; left; reflexivity |].
  destruct IH as [IH | IH]; [left; exact IH | right; right; exact IH].
Qed.

Lemma table_has_no_general :
  Forall (fun entry => fst entry <> ("general" : str)) PAGE_TYPE_PATTERNS.
Proof. repeat constructor; discriminate. Qed.

(** X22.  [is_relevant_link] accepts a link exactly when the link has no
    skip pattern and [get_page_type] gives it a type other than "general";
    the base domain plays no part.  The type of an accepted link is a key of
    the pattern table, and the empty link is never accepted. *)
Theorem relevant_link_has_page_type (href base_domain : str) :
  (is_relevant_link href base_domain = true <->
   existsb (fun pattern => contains pattern (lower href)) skip_patterns
     = false /\
   get_page_type href <> ("general" : str)) /\
  (get_page_type href = ("general" : str) \/
   In (get_page_type href) (map fst PAGE_TYPE_PATTERNS)) /\
  is_relevant_link [] base_domain = false.
Proof.
  split; [| split; [apply first_page_type_key | reflexivity]].
  assert (Hg := first_page_type_general PAGE_TYPE_PATTERNS (lower href)
                  table_has_no_general).
  fold (get_page_type href) in Hg. fold relevant_keywords in Hg.
  unfold is_relevant_link.
  destruct href as [| c href'].
  - cbn [nonempty negb]. split; [discriminate |].
    intros [_ H]. exfalso. apply H. reflexivity.
  - cbn [nonempty negb]. cbv zeta.
    destruct (existsb (fun pattern => contains pattern (lower (c :: href')))
                skip_patterns).
    + split; [discriminate | intros [H _]; discriminate].
    + destruct (existsb (fun keyword => contains keyword (lower (c :: href')))
                  relevant_keywords) eqn:Ek.
      * split; [| reflexivity]. intros _. split; [reflexivity |].
        intro H. apply Hg in H. discriminate.
      * split; [discriminate |]. intros [_ H]. exfalso. apply H, Hg.
        reflexivity.
Qed.

End StaticScraperFacts.
